(** * gostatsd: the daemon's entry point ([cmd/gostatsd/main.go])

    A shallow embedding of [main.go] and the properties of its start-up and
    shutdown logic.  The functions of [main.go] are written as programs over
    the calls they make into other packages (viper, pflag, logrus, statsd,
    backends, context, os/signal); an execution runs a program against an
    arbitrary environment that answers those calls and records them.

    The aggregation pipeline itself lives in other packages; the part of it
    that the stated properties mention is modelled from the specification in
    the modules [Identity] and [Counters].

    The definitions come first; the properties, from [getPercentiles] on,
    make up the second half. *)

From Stdlib Require Import ZArith String List Sorting.Sorted OrdersEx.
From Corelib Require Import PrimFloat.
From stdpp Require Import base option list strings gmap.

Set Warnings "-clear-no-such-hyp".

Local Open Scope string_scope.
Local Open Scope list_scope.
Local Open Scope Z_scope.

(** Go's [float64]. *)
Abbreviation float64 := PrimFloat.float.

(** ** Go values *)

(** Errors.  The code compares errors by identity against two sentinel
    values, [pflag.ErrHelp] and [context.Canceled]; every other error is
    known by its message. *)
Inductive error : Type :=
| pflag_ErrHelp
| context_Canceled
| errorString (msg : string).

#[global] Instance error_eq_dec : EqDecision error.
Proof. solve_decision. Defined.

(** [err.Error()] *)
Definition Error (e : error) : string :=
  match e with
  | pflag_ErrHelp => "pflag: help requested"
  | context_Canceled => "context canceled"
  | errorString msg => msg
  end.

(** The [%v] verb of package fmt on an error value that may be nil. *)
Definition fmt_v (e : option error) : string :=
  match e with
  | Some e => Error e
  | None => "<nil>"
  end.

(** [fmt.Errorf(format ++ "%v", err)] *)
Definition fmt_Errorf (pre : string) (e : option error) : error :=
  errorString (pre +:+ fmt_v e).

(** [os.Signal] *)
Inductive Signal : Type :=
| SIGHUP | SIGINT | SIGQUIT | SIGKILL | SIGUSR1 | SIGUSR2 | SIGPIPE | SIGTERM.

#[global] Instance Signal_eq_dec : EqDecision Signal.
Proof. solve_decision. Defined.

Definition os_Interrupt : Signal := SIGINT.
Definition syscall_SIGTERM : Signal := SIGTERM.

(** The value a goroutine panics with. *)
Inductive PanicValue : Type :=
| PanicError (e : error)
| PanicIndexOutOfRange
| PanicNilDereference.

(** How a function call ends: it returns, it panics, or the process exits. *)
Inductive Outcome (A : Type) : Type :=
| Returned (a : A)
| Panicked (p : PanicValue)
| Exited.

Arguments Returned {A} a.
Arguments Panicked {A} p.
Arguments Exited {A}.

(** ** The packages [main.go] imports

    The objects that [main.go] only passes around (pointers to structs of
    other packages, interface values) are handles of an abstract type; the
    constants and pure functions it takes from other packages are
    parameters. *)
Class Externals : Type := {
  viper_Viper : Type;                  (* *viper.Viper *)
  logrus_Logger : Type;                (* *logrus.Logger *)
  transport_TransportPool : Type;      (* *transport.TransportPool *)
  statsd_CloudHandlerFactory : Type;   (* *statsd.CloudHandlerFactory, not nil *)
  gostatsd_Backend : Type;             (* a non-nil gostatsd.Backend *)
  gostatsd_TimerSubtypes : Type;
  context_Context : Type;
  context_CancelFunc : Type;
  pflag_FlagSet : Type;
  pflag_Flag : Type;                   (* *pflag.Flag *)
  SignalChan : Type;                   (* chan os.Signal *)
  BoolVar : Type;                      (* *bool *)
  flag_Name : pflag_Flag -> string;    (* flag.Name *)
  (* strconv.ParseFloat(s, 64) *)
  strconv_ParseFloat : string -> float64 * option error;
  (* build information of package main *)
  Version : string;
  GitCommit : string;
  BuildDate : string;
  (* configuration keys of package statsd *)
  ParamBackends : string;
  ParamPercentThreshold : string;
  ParamInternalTags : string;
  ParamInternalNamespace : string;
  ParamDefaultTags : string;
  ParamHostname : string;
  ParamExpiryInterval : string;
  ParamFlushInterval : string;
  ParamIgnoreHost : string;
  ParamMaxReaders : string;
  ParamMaxParsers : string;
  ParamMaxWorkers : string;
  ParamMaxQueueSize : string;
  ParamMaxConcurrentEvents : string;
  ParamEstimatedTags : string;
  ParamMetricsAddr : string;
  ParamNamespace : string;
  ParamStatserType : string;
  ParamHeartbeatEnabled : string;
  ParamReceiveBatchSize : string;
  ParamConnPerReader : string;
  ParamServerMode : string;
  ParamLogRawMetric : string;
  ParamBadLinesPerMinute : string;
}.

(** Configuration keys of package main. *)
Definition ParamVerbose : string := "verbose".
Definition ParamProfile : string := "profile".
Definition ParamJSON : string := "json".
Definition ParamConfigPath : string := "config-path".
Definition ParamVersion : string := "version".

Section Main.
Context `{Ext : Externals}.

(** [statsd.Server], with the fields [constructServer] sets. *)
Record Server : Type := {
  Backends : list (option gostatsd_Backend);
  CloudHandlerFactory : option statsd_CloudHandlerFactory;
  InternalTags : list string;
  InternalNamespace : string;
  DefaultTags : list string;
  Hostname : string;
  ExpiryInterval : Z;
  FlushInterval : Z;
  IgnoreHost : bool;
  MaxReaders : Z;
  MaxParsers : Z;
  MaxWorkers : Z;
  MaxQueueSize : Z;
  MaxConcurrentEvents : Z;
  EstimatedTags : Z;
  MetricsAddr : string;
  Namespace : string;
  StatserType : string;
  PercentThreshold : option (list float64);
  HeartbeatEnabled : bool;
  ReceiveBatchSize : Z;
  ConnPerReader : bool;
  ServerMode : string;
  LogRawMetric : bool;
  HeartbeatTags : list string;
  DisabledSubTypes : gostatsd_TimerSubtypes;
  BadLineRateLimitPerSecond : float64;
  Viper : viper_Viper;
  TransportPool : transport_TransportPool;
}.

(** What a [select] over [ctx.Done()] and a signal channel came back with. *)
Inductive Selected : Type :=
| DoneClosed
| Received (sig : Signal).

(** The calls [main.go] makes into other packages, by the type of what they
    return.  A Go function returning [(T, error)] returns a pair; a pointer
    or interface that may be nil is an [option]. *)
Inductive ExtCall : Type -> Type :=
(* logrus *)
| logrus_StandardLogger : ExtCall logrus_Logger
| logrus_Info (msg : string) : ExtCall unit
| logrus_Errorf (msg : string) : ExtCall unit
| logrus_SetLevel_Debug : ExtCall unit
| logrus_SetFormatter_JSON : ExtCall unit
(* net/http, fmt, math/rand, time, os *)
| http_ListenAndServe (addr : string) : ExtCall (option error)
| fmt_Printf (out : string) : ExtCall unit
| time_Now_UnixNano : ExtCall Z
| rand_Seed (seed : Z) : ExtCall unit
| os_Args : ExtCall (list string)
(* viper *)
| viper_New : ExtCall viper_Viper
| GetString (v : viper_Viper) (key : string) : ExtCall string
| GetStringSlice (v : viper_Viper) (key : string) : ExtCall (list string)
| GetBool (v : viper_Viper) (key : string) : ExtCall bool
| GetInt (v : viper_Viper) (key : string) : ExtCall Z
| GetFloat64 (v : viper_Viper) (key : string) : ExtCall float64
| GetDuration (v : viper_Viper) (key : string) : ExtCall Z
| BindPFlag (v : viper_Viper) (key : string) (flag : pflag_Flag) : ExtCall (option error)
| SetConfigFile (v : viper_Viper) (path : string) : ExtCall unit
| ReadInConfig (v : viper_Viper) : ExtCall (option error)
(* pflag *)
| pflag_NewFlagSet_ContinueOnError (name : string) : ExtCall pflag_FlagSet
| FlagSet_BoolVar (cmd : pflag_FlagSet) (p : BoolVar) (name : string) (value : bool) (usage : string) : ExtCall unit
| FlagSet_Bool (cmd : pflag_FlagSet) (name : string) (value : bool) (usage : string) : ExtCall unit
| FlagSet_String (cmd : pflag_FlagSet) (name : string) (value : string) (usage : string) : ExtCall unit
| FlagSet_flags (cmd : pflag_FlagSet) : ExtCall (list pflag_Flag)
| FlagSet_Parse (cmd : pflag_FlagSet) (arguments : list string) : ExtCall (option error)
(* a local [bool] variable whose address is handed out *)
| var_bool : ExtCall BoolVar
| load_bool (p : BoolVar) : ExtCall bool
(* gostatsd and its packages *)
| util_InitViper (v : viper_Viper) (prefix : string) : ExtCall unit
| transport_NewTransportPool (logger : logrus_Logger) (v : viper_Viper) : ExtCall transport_TransportPool
| statsd_NewCloudHandlerFactoryFromViper (v : viper_Viper) (logger : logrus_Logger) (version : string)
  : ExtCall (option statsd_CloudHandlerFactory * option error)
| InitCloudProvider (cloud : statsd_CloudHandlerFactory) (v : viper_Viper) : ExtCall (option error)
| backends_InitBackend (backendName : string) (v : viper_Viper) (pool : transport_TransportPool)
  : ExtCall (option gostatsd_Backend * option error)
| gostatsd_DisabledSubMetrics (v : viper_Viper) : ExtCall gostatsd_TimerSubtypes
| statsd_AddFlags (cmd : pflag_FlagSet) : ExtCall unit
| Server_Run (s : Server) (ctx : context_Context) : ExtCall (option error)
(* context, os/signal, channels *)
| context_Background : ExtCall context_Context
| context_WithCancel (parent : context_Context) : ExtCall (context_Context * context_CancelFunc)
| call_CancelFunc (f : context_CancelFunc) : ExtCall unit
| make_chan_Signal (capacity : nat) : ExtCall SignalChan
| signal_Notify (c : SignalChan) (sigs : list Signal) : ExtCall unit
| select_Done_or_recv (ctx : context_Context) (c : SignalChan) : ExtCall Selected.

(** ** Programs

    A Go function body is a tree of calls; it ends by returning, by
    panicking, or in [logrus.Fatalf], which logs and exits the process.
    [Go] starts a goroutine.  A call into another package is taken to
    return. *)
Inductive Prog (A : Type) : Type :=
| Ret (a : A)
| Call {X : Type} (c : ExtCall X) (k : X -> Prog A)
| Panic (p : PanicValue)
| logrus_Fatalf (msg : string)
| Go (body : Prog unit) (k : Prog A).

Arguments Ret {A} a.
Arguments Call {A X} c k.
Arguments Panic {A} p.
Arguments logrus_Fatalf {A} msg.
Arguments Go {A} body k.

Fixpoint bind {A B : Type} (p : Prog A) (f : A -> Prog B) : Prog B :=
  match p with
  | Ret a => f a
  | Call c k => Call c (fun x => bind (k x) f)
  | Panic v => Panic v
  | logrus_Fatalf msg => logrus_Fatalf msg
  | Go body k => Go body (bind k f)
  end.

#[global] Instance Prog_ret : MRet Prog := @Ret.
#[global] Instance Prog_bind : MBind Prog := fun A B f p => bind p f.

Definition call {X : Type} (c : ExtCall X) : Prog X := Call c Ret.

(** [defer d] before [body]: [d] runs when [body] returns or panics, not
    when the process exits. *)
Fixpoint defer {A : Type} (d : Prog unit) (body : Prog A) : Prog A :=
  match body with
  | Ret a => bind d (fun _ => Ret a)
  | Call c k => Call c (fun x => defer d (k x))
  | Panic v => bind d (fun _ => Panic v)
  | logrus_Fatalf msg => logrus_Fatalf msg
  | Go g k => Go g (defer d k)
  end.

(** ** Executions *)

Inductive Event : Type :=
| EvCall {X : Type} (c : ExtCall X) (x : X)
| EvGo (body : Prog unit)
| EvFatal (msg : string).

Section Exec.
Context {World : Type}.

(** The environment: it answers every call, in a state of its own. *)
Definition Handler : Type := forall X : Type, ExtCall X -> World -> X * World.

Variable h : Handler.

(** The outcome of a program, the environment's final state and the calls
    made, first to last. *)
Fixpoint exec {A : Type} (p : Prog A) (w : World) : Outcome A * World * list Event :=
  match p with
  | Ret a => (Returned a, w, [])
  | Call c k =>
      let '(x, w1) := h _ c w in
      let '(o, w2, l) := exec (k x) w1 in
      (o, w2, EvCall c x :: l)
  | Panic v => (Panicked v, w, [])
  | logrus_Fatalf msg => (Exited, w, [EvFatal msg])
  | Go body k =>
      let '(o, w2, l) := exec k w in
      (o, w2, EvGo body :: l)
  end.

End Exec.

(** ** [main.go] *)

Fixpoint getPercentiles_range (s : list string) (i : nat) (percentThresholds : list float64)
  : option (list float64) * option error :=
  match s with
  | [] => (Some percentThresholds, None)
  | sPercentThreshold :: rest =>
      let '(pt, err) := strconv_ParseFloat sPercentThreshold in
      match err with
      | Some e => (None, Some e)
      | None => getPercentiles_range rest (S i) (<[i := pt]> percentThresholds)
      end
  end.

Definition getPercentiles (s : list string) : option (list float64) * option error :=
  let percentThresholds := replicate (length s) 0%float in
  getPercentiles_range s 0 percentThresholds.

(** The [for i, backendName := range backendNames] loop of
    [constructServer], from index [i] on; an error leaves the loop and the
    function. *)
Fixpoint constructServer_range (v : viper_Viper) (pool : transport_TransportPool)
    (backendNames : list string) (i : nat) (backendsList : list (option gostatsd_Backend))
  : Prog (list (option gostatsd_Backend) * option error) :=
  match backendNames with
  | [] => Ret (backendsList, None)
  | backendName :: rest =>
      '(backend, errBackend) ← call (backends_InitBackend backendName v pool);
      match errBackend with
      | Some e => Ret (backendsList, Some e)
      | None => constructServer_range v pool rest (S i) (<[i := backend]> backendsList)
      end
  end.

Definition constructServer (v : viper_Viper) : Prog (option Server * option error) :=
  (* Logger *)
  logger ← call logrus_StandardLogger;
  (* HTTP client pool *)
  pool ← call (transport_NewTransportPool logger v);
  (* Cloud handler factory *)
  '(cloud, err) ← call (statsd_NewCloudHandlerFactoryFromViper v logger Version);
  match err with
  | Some e => Ret (None, Some e)
  | None =>
  err ← match cloud with
        | Some c => call (InitCloudProvider c v)
        | None => Ret None
        end;
  match err with
  | Some e => Ret (None, Some e)
  | None =>
  (* Backends *)
  backendNames ← call (GetStringSlice v ParamBackends);
  '(backendsList, errBackend) ←
    constructServer_range v pool backendNames 0 (replicate (length backendNames) None);
  match errBackend with
  | Some e => Ret (None, Some e)
  | None =>
  (* Percentiles *)
  percentThreshold ← call (GetStringSlice v ParamPercentThreshold);
  let '(pt, err) := getPercentiles percentThreshold in
  match err with
  | Some e => Ret (None, Some e)
  | None =>
  (* Create server *)
  internalTags ← call (GetStringSlice v ParamInternalTags);
  internalNamespace ← call (GetString v ParamInternalNamespace);
  defaultTags ← call (GetStringSlice v ParamDefaultTags);
  hostname ← call (GetString v ParamHostname);
  expiryInterval ← call (GetDuration v ParamExpiryInterval);
  flushInterval ← call (GetDuration v ParamFlushInterval);
  ignoreHost ← call (GetBool v ParamIgnoreHost);
  maxReaders ← call (GetInt v ParamMaxReaders);
  maxParsers ← call (GetInt v ParamMaxParsers);
  maxWorkers ← call (GetInt v ParamMaxWorkers);
  maxQueueSize ← call (GetInt v ParamMaxQueueSize);
  maxConcurrentEvents ← call (GetInt v ParamMaxConcurrentEvents);
  estimatedTags ← call (GetInt v ParamEstimatedTags);
  metricsAddr ← call (GetString v ParamMetricsAddr);
  namespace ← call (GetString v ParamNamespace);
  statserType ← call (GetString v ParamStatserType);
  heartbeatEnabled ← call (GetBool v ParamHeartbeatEnabled);
  receiveBatchSize ← call (GetInt v ParamReceiveBatchSize);
  connPerReader ← call (GetBool v ParamConnPerReader);
  serverMode ← call (GetString v ParamServerMode);
  logRawMetric ← call (GetBool v ParamLogRawMetric);
  disabledSubTypes ← call (gostatsd_DisabledSubMetrics v);
  badLinesPerMinute ← call (GetFloat64 v ParamBadLinesPerMinute);
  Ret (Some {|
    Backends := backendsList;
    CloudHandlerFactory := cloud;
    InternalTags := internalTags;
    InternalNamespace := internalNamespace;
    DefaultTags := defaultTags;
    Hostname := hostname;
    ExpiryInterval := expiryInterval;
    FlushInterval := flushInterval;
    IgnoreHost := ignoreHost;
    MaxReaders := maxReaders;
    MaxParsers := maxParsers;
    MaxWorkers := maxWorkers;
    MaxQueueSize := maxQueueSize;
    MaxConcurrentEvents := maxConcurrentEvents;
    EstimatedTags := estimatedTags;
    MetricsAddr := metricsAddr;
    Namespace := namespace;
    StatserType := statserType;
    PercentThreshold := pt;
    HeartbeatEnabled := heartbeatEnabled;
    ReceiveBatchSize := receiveBatchSize;
    ConnPerReader := connPerReader;
    ServerMode := serverMode;
    LogRawMetric := logRawMetric;
    HeartbeatTags := ["version:" +:+ Version; "commit:" +:+ GitCommit];
    DisabledSubTypes := disabledSubTypes;
    BadLineRateLimitPerSecond := PrimFloat.div badLinesPerMinute 60%float;
    Viper := v;
    TransportPool := pool;
  |}, None)
  end end end end.

(** The goroutine [cancelOnInterrupt] starts. *)
Definition cancelOnInterrupt_go (ctx : context_Context) (f : context_CancelFunc)
    (c : SignalChan) : Prog unit :=
  r ← call (select_Done_or_recv ctx c);
  match r with
  | DoneClosed => Ret tt
  | Received _ => call (call_CancelFunc f)
  end.

(** [cancelOnInterrupt] calls [f] when [os.Interrupt] or [SIGTERM] is
    received. *)
Definition cancelOnInterrupt (ctx : context_Context) (f : context_CancelFunc) : Prog unit :=
  c ← call (make_chan_Signal 1);
  call (signal_Notify c [os_Interrupt; syscall_SIGTERM]);;
  Go (cancelOnInterrupt_go ctx f c) (Ret tt).

(** The profiler goroutine of [run]. *)
Definition run_go (profileAddr : string) : Prog unit :=
  e ← call (http_ListenAndServe profileAddr);
  call (logrus_Errorf ("Profiler server failed: " +:+ fmt_v e)).

Definition run (v : viper_Viper) : Prog (option error) :=
  profileAddr ← call (GetString v ParamProfile);
  (if decide (profileAddr ≠ "") then Go (run_go profileAddr) (Ret tt) else Ret tt);;
  call (logrus_Info "Starting server");;
  '(s, err) ← constructServer v;
  match err with
  | Some e => Ret (Some e)
  | None =>
  parent ← call context_Background;
  '(ctx, cancelFunc) ← call (context_WithCancel parent);
  defer (call (call_CancelFunc cancelFunc)) (
    cancelOnInterrupt ctx cancelFunc;;
    match s with
    | None => Panic PanicNilDereference
    | Some s =>
        err ← call (Server_Run s ctx);
        match err with
        | Some e =>
            if decide (e ≠ context_Canceled)
            then Ret (Some (fmt_Errorf "server error: " (Some e)))
            else Ret None
        | None => Ret None
        end
    end)
  end.

Definition setupLogger (v : viper_Viper) : Prog unit :=
  verbose ← call (GetBool v ParamVerbose);
  (if (verbose : bool) then call logrus_SetLevel_Debug else Ret tt);;
  json ← call (GetBool v ParamJSON);
  (if (json : bool) then call logrus_SetFormatter_JSON else Ret tt).

(** The callback [setupConfiguration] hands to [cmd.VisitAll], over the
    flags of [cmd]. *)
Fixpoint setupConfiguration_VisitAll (v : viper_Viper) (flags : list pflag_Flag) : Prog unit :=
  match flags with
  | [] => Ret tt
  | flag :: rest =>
      err ← call (BindPFlag v (flag_Name flag) flag);
      match err with
      | Some e => Panic (PanicError e) (* Should never happen *)
      | None => setupConfiguration_VisitAll v rest
      end
  end.

(** The body of [setupConfiguration] after its [defer]. *)
Definition setupConfiguration_body (v : viper_Viper)
  : Prog (option viper_Viper * bool * option error) :=
  call (util_InitViper v "");;
  version ← call var_bool;
  args ← call os_Args;
  match args with
  | [] => Panic PanicIndexOutOfRange
  | arg0 :: _ =>
  cmd ← call (pflag_NewFlagSet_ContinueOnError arg0);
  call (FlagSet_BoolVar cmd version ParamVersion false "Print the version and exit");;
  call (FlagSet_Bool cmd ParamVerbose false "Verbose");;
  call (FlagSet_Bool cmd ParamJSON false "Log in JSON format");;
  call (FlagSet_String cmd ParamProfile ""
          "Enable profiler endpoint on the specified address and port");;
  call (FlagSet_String cmd ParamConfigPath "" "Path to the configuration file");;
  call (statsd_AddFlags cmd);;
  flags ← call (FlagSet_flags cmd);
  setupConfiguration_VisitAll v flags;;
  args ← call os_Args;
  match args with
  | [] => Panic PanicIndexOutOfRange
  | _ :: arguments =>
  err ← call (FlagSet_Parse cmd arguments);
  match err with
  | Some e => Ret (None, false, Some e)
  | None =>
  configPath ← call (GetString v ParamConfigPath);
  err ← (if decide (configPath ≠ "")
         then call (SetConfigFile v configPath);; call (ReadInConfig v)
         else Ret None);
  match err with
  | Some e => Ret (None, false, Some e)
  | None =>
      version ← call (load_bool version);
      Ret (Some v, version, None)
  end end end end.

Definition setupConfiguration : Prog (option viper_Viper * bool * option error) :=
  v ← call viper_New;
  defer (setupLogger v) (* Apply logging configuration in case of early exit *)
    (setupConfiguration_body v).

Definition newline : string := String (Ascii.ascii_of_nat 10) EmptyString.

Definition main : Prog unit :=
  seed ← call time_Now_UnixNano;
  call (rand_Seed seed);;
  '(v, version, err) ← setupConfiguration;
  match err with
  | Some e =>
      if decide (e = pflag_ErrHelp) then Ret tt
      else logrus_Fatalf ("Error while parsing configuration: " +:+ Error e)
  | None =>
      if (version : bool) then
        call (fmt_Printf ("Version: " +:+ Version +:+ " - Commit: " +:+ GitCommit
                          +:+ " - Date: " +:+ BuildDate +:+ newline))
      else
        match v with
        | None => Panic PanicNilDereference
        | Some v =>
            err ← run v;
            match err with
            | Some e => logrus_Fatalf (Error e)
            | None => Ret tt
            end
        end
  end.

End Main.

Arguments Ret {Ext A} a.
Arguments Call {Ext A X} c k.
Arguments Panic {Ext A} p.
Arguments logrus_Fatalf {Ext A} msg.
Arguments Go {Ext A} body k.
Arguments EvCall {Ext X} c x.

(** ** What an execution's record of calls says *)

Section Records.
Context `{Ext : Externals}.

(** The name and the result of a call to [backends.InitBackend]. *)
Definition InitBackend_of (ev : Event)
  : option (string * (option gostatsd_Backend * option error)) :=
  match ev with
  | EvCall c x =>
      match c in ExtCall X return X -> option _ with
      | backends_InitBackend backendName _ _ => fun r => Some (backendName, r)
      | _ => fun _ => None
      end x
  | _ => None
  end.

(** The server and the result of a call to [Server.Run]. *)
Definition Server_Run_of (ev : Event) : option (Server * context_Context * option error) :=
  match ev with
  | EvCall c x =>
      match c in ExtCall X return X -> option _ with
      | Server_Run s ctx => fun r => Some (s, ctx, r)
      | _ => fun _ => None
      end x
  | _ => None
  end.

Definition is_InitCloudProvider (ev : Event) : Prop :=
  match ev with
  | EvCall (InitCloudProvider _ _) _ => True
  | _ => False
  end.

(** A start-up step that failed: the cloud handler factory could not be
    created, its provider or a backend could not be initialised, or the
    percentile thresholds read from the configuration do not all parse. *)
Definition startup_failure (ev : Event) : Prop :=
  match ev with
  | EvCall c x =>
      match c in ExtCall X return X -> Prop with
      | statsd_NewCloudHandlerFactoryFromViper _ _ _ => fun r => is_Some r.2
      | InitCloudProvider _ _ => fun r => is_Some r
      | backends_InitBackend _ _ _ => fun r => is_Some r.2
      | GetStringSlice _ key => fun l =>
          key = ParamPercentThreshold ∧ Exists (λ x, is_Some (strconv_ParseFloat x).2) l
      | _ => fun _ => False
      end x
  | _ => False
  end.

(** The result of a call to [statsd.NewCloudHandlerFactoryFromViper]. *)
Definition NewCloudHandlerFactory_of (ev : Event)
  : option (option statsd_CloudHandlerFactory * option error) :=
  match ev with
  | EvCall c x =>
      match c in ExtCall X return X -> option _ with
      | statsd_NewCloudHandlerFactoryFromViper _ _ _ => fun r => Some r
      | _ => fun _ => None
      end x
  | _ => None
  end.

(** The key and the result of a call to [GetStringSlice]. *)
Definition GetStringSlice_of (ev : Event) : option (viper_Viper * string * list string) :=
  match ev with
  | EvCall c x =>
      match c in ExtCall X return X -> option _ with
      | GetStringSlice v key => fun r => Some (v, key, r)
      | _ => fun _ => None
      end x
  | _ => None
  end.

(** The key and the result of a call to [GetFloat64]. *)
Definition GetFloat64_of (ev : Event) : option (viper_Viper * string * float64) :=
  match ev with
  | EvCall c x =>
      match c in ExtCall X return X -> option _ with
      | GetFloat64 v key => fun r => Some (v, key, r)
      | _ => fun _ => None
      end x
  | _ => None
  end.

(** Calls to [backends.InitBackend] for [names], in order, with results [rs]. *)
Definition backend_calls (v : viper_Viper) (pool : transport_TransportPool)
    (names : list string) (rs : list (option gostatsd_Backend * option error)) : list Event :=
  zip_with (λ n r, EvCall (backends_InitBackend n v pool) r) names rs.

(** The calls up to and including the set-up of the cloud handler. *)
Definition cloud_calls (v : viper_Viper) (logger : logrus_Logger) (pool : transport_TransportPool)
    (cloud : option statsd_CloudHandlerFactory) : list Event :=
  [EvCall logrus_StandardLogger logger;
   EvCall (transport_NewTransportPool logger v) pool;
   EvCall (statsd_NewCloudHandlerFactoryFromViper v logger Version) (cloud, None)]
  ++ match cloud with
     | Some c => [EvCall (InitCloudProvider c v) None]
     | None => []
     end.

(** The configuration reads behind the fields of a server, in the order of
    the struct literal. *)
Definition field_reads (v : viper_Viper) (s : Server) (badLinesPerMinute : float64) : list Event :=
  [EvCall (GetStringSlice v ParamInternalTags) (InternalTags s);
   EvCall (GetString v ParamInternalNamespace) (InternalNamespace s);
   EvCall (GetStringSlice v ParamDefaultTags) (DefaultTags s);
   EvCall (GetString v ParamHostname) (Hostname s);
   EvCall (GetDuration v ParamExpiryInterval) (ExpiryInterval s);
   EvCall (GetDuration v ParamFlushInterval) (FlushInterval s);
   EvCall (GetBool v ParamIgnoreHost) (IgnoreHost s);
   EvCall (GetInt v ParamMaxReaders) (MaxReaders s);
   EvCall (GetInt v ParamMaxParsers) (MaxParsers s);
   EvCall (GetInt v ParamMaxWorkers) (MaxWorkers s);
   EvCall (GetInt v ParamMaxQueueSize) (MaxQueueSize s);
   EvCall (GetInt v ParamMaxConcurrentEvents) (MaxConcurrentEvents s);
   EvCall (GetInt v ParamEstimatedTags) (EstimatedTags s);
   EvCall (GetString v ParamMetricsAddr) (MetricsAddr s);
   EvCall (GetString v ParamNamespace) (Namespace s);
   EvCall (GetString v ParamStatserType) (StatserType s);
   EvCall (GetBool v ParamHeartbeatEnabled) (HeartbeatEnabled s);
   EvCall (GetInt v ParamReceiveBatchSize) (ReceiveBatchSize s);
   EvCall (GetBool v ParamConnPerReader) (ConnPerReader s);
   EvCall (GetString v ParamServerMode) (ServerMode s);
   EvCall (GetBool v ParamLogRawMetric) (LogRawMetric s);
   EvCall (gostatsd_DisabledSubMetrics v) (DisabledSubTypes s);
   EvCall (GetFloat64 v ParamBadLinesPerMinute) badLinesPerMinute].

(** The ways through [constructServer]: what it returns and the calls it
    has made by then. *)
Inductive constructServer_path (v : viper_Viper)
  : option Server * option error → list Event → Prop :=
| path_factory_error logger pool cloud e :
    constructServer_path v (None, Some e)
      [EvCall logrus_StandardLogger logger;
       EvCall (transport_NewTransportPool logger v) pool;
       EvCall (statsd_NewCloudHandlerFactoryFromViper v logger Version) (cloud, Some e)]
| path_provider_error logger pool c e :
    constructServer_path v (None, Some e)
      [EvCall logrus_StandardLogger logger;
       EvCall (transport_NewTransportPool logger v) pool;
       EvCall (statsd_NewCloudHandlerFactoryFromViper v logger Version) (Some c, None);
       EvCall (InitCloudProvider c v) (Some e)]
| path_backend_error logger pool cloud pre n post bs b e :
    length bs = length pre →
    constructServer_path v (None, Some e)
      (cloud_calls v logger pool cloud
       ++ [EvCall (GetStringSlice v ParamBackends) (pre ++ n :: post)]
       ++ backend_calls v pool pre ((., None) <$> bs)
       ++ [EvCall (backends_InitBackend n v pool) (b, Some e)])
| path_percentile_error logger pool cloud names bs percentThreshold e :
    length bs = length names →
    (getPercentiles percentThreshold).2 = Some e →
    constructServer_path v (None, Some e)
      (cloud_calls v logger pool cloud
       ++ [EvCall (GetStringSlice v ParamBackends) names]
       ++ backend_calls v pool names ((., None) <$> bs)
       ++ [EvCall (GetStringSlice v ParamPercentThreshold) percentThreshold])
| path_server logger pool cloud names percentThreshold s badLinesPerMinute :
    length (Backends s) = length names →
    CloudHandlerFactory s = cloud →
    getPercentiles percentThreshold = (PercentThreshold s, None) →
    HeartbeatTags s = ["version:" +:+ Version; "commit:" +:+ GitCommit] →
    BadLineRateLimitPerSecond s = PrimFloat.div badLinesPerMinute 60%float →
    Viper s = v →
    TransportPool s = pool →
    constructServer_path v (Some s, None)
      (cloud_calls v logger pool cloud
       ++ [EvCall (GetStringSlice v ParamBackends) names]
       ++ backend_calls v pool names ((., None) <$> Backends s)
       ++ [EvCall (GetStringSlice v ParamPercentThreshold) percentThreshold]
       ++ field_reads v s badLinesPerMinute).

(** What [run] does before it constructs the server. *)
Definition run_prelude (v : viper_Viper) (profileAddr : string) : list Event :=
  [EvCall (GetString v ParamProfile) profileAddr]
  ++ (if decide (profileAddr ≠ "") then [EvGo (run_go profileAddr)] else [])
  ++ [EvCall (logrus_Info "Starting server") tt].

(** What [run] returns for a result of [Server.Run]. *)
Definition run_result (r : option error) : option error :=
  match r with
  | Some e => if decide (e ≠ context_Canceled) then Some (fmt_Errorf "server error: " (Some e)) else None
  | None => None
  end.

(** What [run] does once it has a server: it runs it under a context that
    [cancelOnInterrupt] cancels, and cancels the context when it returns. *)
Definition run_server_calls (s : Server) (parent ctx : context_Context)
    (cancelFunc : context_CancelFunc) (c : SignalChan) (r : option error) : list Event :=
  [EvCall context_Background parent;
   EvCall (context_WithCancel parent) (ctx, cancelFunc);
   EvCall (make_chan_Signal 1) c;
   EvCall (signal_Notify c [os_Interrupt; syscall_SIGTERM]) tt;
   EvGo (cancelOnInterrupt_go ctx cancelFunc c);
   EvCall (Server_Run s ctx) r;
   EvCall (call_CancelFunc cancelFunc) tt].

(** *** [setupConfiguration] and [main] *)

(** The result of a call to [cmd.Parse]. *)
Definition Parse_of (ev : Event) : option (option error) :=
  match ev with
  | EvCall c x =>
      match c in ExtCall X return X -> option _ with
      | FlagSet_Parse _ _ => fun r => Some r
      | _ => fun _ => None
      end x
  | _ => None
  end.

(** The result of a call to [v.ReadInConfig]. *)
Definition ReadInConfig_of (ev : Event) : option (option error) :=
  match ev with
  | EvCall c x =>
      match c in ExtCall X return X -> option _ with
      | ReadInConfig _ => fun r => Some r
      | _ => fun _ => None
      end x
  | _ => None
  end.

(** The result of a call to [v.BindPFlag]. *)
Definition BindPFlag_of (ev : Event) : option (option error) :=
  match ev with
  | EvCall c x =>
      match c in ExtCall X return X -> option _ with
      | BindPFlag _ _ _ => fun r => Some r
      | _ => fun _ => None
      end x
  | _ => None
  end.

(** The value of [os.Args] when it was read. *)
Definition os_Args_of (ev : Event) : option (list string) :=
  match ev with
  | EvCall c x =>
      match c in ExtCall X return X -> option _ with
      | os_Args => fun r => Some r
      | _ => fun _ => None
      end x
  | _ => None
  end.

(** The key and the result of a call to [GetString]. *)
Definition GetString_of (ev : Event) : option (string * string) :=
  match ev with
  | EvCall c x =>
      match c in ExtCall X return X -> option _ with
      | GetString _ key => fun r => Some (key, r)
      | _ => fun _ => None
      end x
  | _ => None
  end.

(** The path given to [v.SetConfigFile]. *)
Definition SetConfigFile_of (ev : Event) : option string :=
  match ev with
  | EvCall (SetConfigFile _ path) _ => Some path
  | _ => None
  end.

(** The message of a fatal log. *)
Definition Fatal_of (ev : Event) : option string :=
  match ev with
  | EvFatal msg => Some msg
  | _ => None
  end.

Definition setupLogger_calls (v : viper_Viper) (verbose json : bool) : list Event :=
  [EvCall (GetBool v ParamVerbose) verbose]
  ++ (if verbose then [EvCall logrus_SetLevel_Debug ()] else [])
  ++ [EvCall (GetBool v ParamJSON) json]
  ++ (if json then [EvCall logrus_SetFormatter_JSON ()] else []).

(** Successful calls to [v.BindPFlag] for [flags], in order. *)
Definition bind_calls (v : viper_Viper) (flags : list pflag_Flag) : list Event :=
  (λ flag, EvCall (BindPFlag v (flag_Name flag) flag) None) <$> flags.

(** The calls of [setupConfiguration] that declare the flags. *)
Definition flag_calls (v : viper_Viper) (version : BoolVar) (arg0 : string)
    (args : list string) (cmd : pflag_FlagSet) : list Event :=
  [EvCall (util_InitViper v "") ();
   EvCall var_bool version;
   EvCall os_Args (arg0 :: args);
   EvCall (pflag_NewFlagSet_ContinueOnError arg0) cmd;
   EvCall (FlagSet_BoolVar cmd version ParamVersion false "Print the version and exit") ();
   EvCall (FlagSet_Bool cmd ParamVerbose false "Verbose") ();
   EvCall (FlagSet_Bool cmd ParamJSON false "Log in JSON format") ();
   EvCall (FlagSet_String cmd ParamProfile ""
             "Enable profiler endpoint on the specified address and port") ();
   EvCall (FlagSet_String cmd ParamConfigPath "" "Path to the configuration file") ();
   EvCall (statsd_AddFlags cmd) ()].

(** The calls of [setupConfiguration] up to and including [cmd.Parse],
    followed by [rest]. *)
Definition parse_calls (v : viper_Viper) (version : BoolVar) (arg0 : string)
    (args : list string) (cmd : pflag_FlagSet) (flags : list pflag_Flag)
    (arg0' : string) (arguments : list string) (r : option error)
    (rest : list Event) : list Event :=
  flag_calls v version arg0 args cmd
  ++ [EvCall (FlagSet_flags cmd) flags]
  ++ bind_calls v flags
  ++ [EvCall os_Args (arg0' :: arguments);
      EvCall (FlagSet_Parse cmd arguments) r]
  ++ rest.

(** The ways through the body of [setupConfiguration]. *)
Inductive setupConfiguration_path (v : viper_Viper)
  : Outcome (option viper_Viper * bool * option error) → list Event → Prop :=
| path_no_args version :
    setupConfiguration_path v (Panicked PanicIndexOutOfRange)
      [EvCall (util_InitViper v "") (); EvCall var_bool version; EvCall os_Args []]
| path_bind_panic version arg0 args cmd pre flag post e :
    setupConfiguration_path v (Panicked (PanicError e))
      (flag_calls v version arg0 args cmd
       ++ [EvCall (FlagSet_flags cmd) (pre ++ flag :: post)]
       ++ bind_calls v pre
       ++ [EvCall (BindPFlag v (flag_Name flag) flag) (Some e)])
| path_no_arguments version arg0 args cmd flags :
    setupConfiguration_path v (Panicked PanicIndexOutOfRange)
      (flag_calls v version arg0 args cmd
       ++ [EvCall (FlagSet_flags cmd) flags]
       ++ bind_calls v flags
       ++ [EvCall os_Args []])
| path_parse_error version arg0 args cmd flags arg0' arguments e :
    setupConfiguration_path v (Returned (None, false, Some e))
      (parse_calls v version arg0 args cmd flags arg0' arguments (Some e) [])
| path_config_error version arg0 args cmd flags arg0' arguments configPath e :
    configPath ≠ "" →
    setupConfiguration_path v (Returned (None, false, Some e))
      (parse_calls v version arg0 args cmd flags arg0' arguments None
          [EvCall (GetString v ParamConfigPath) configPath;
           EvCall (SetConfigFile v configPath) ();
           EvCall (ReadInConfig v) (Some e)])
| path_config_file version arg0 args cmd flags arg0' arguments configPath ver :
    configPath ≠ "" →
    setupConfiguration_path v (Returned (Some v, ver, None))
      (parse_calls v version arg0 args cmd flags arg0' arguments None
          [EvCall (GetString v ParamConfigPath) configPath;
           EvCall (SetConfigFile v configPath) ();
           EvCall (ReadInConfig v) None;
           EvCall (load_bool version) ver])
| path_no_config_file version arg0 args cmd flags arg0' arguments ver :
    setupConfiguration_path v (Returned (Some v, ver, None))
      (parse_calls v version arg0 args cmd flags arg0' arguments None
          [EvCall (GetString v ParamConfigPath) "";
           EvCall (load_bool version) ver]).

(** A string that [strconv.ParseFloat] accepts. *)
Definition parses (x : string) : Prop := (strconv_ParseFloat x).2 = None.

(** The keys of the string-slice settings other than the percentile
    thresholds differ from the key of the percentile thresholds. *)
Definition percent_key_distinct : Prop :=
  ParamPercentThreshold ∉ [ParamBackends; ParamInternalTags; ParamDefaultTags].

(** *** Further readers of the record of calls *)

(** The value read from the [bool] variable bound to the [version] flag. *)
Definition load_bool_of (ev : Event) : option bool :=
  match ev with
  | EvCall c x =>
      match c in ExtCall X return X -> option _ with
      | load_bool _ => fun r => Some r
      | _ => fun _ => None
      end x
  | _ => None
  end.

(** The text printed by [fmt.Printf]. *)
Definition Printf_of (ev : Event) : option string :=
  match ev with
  | EvCall (fmt_Printf out) _ => Some out
  | _ => None
  end.

(** The message of [logrus.Info]. *)
Definition Info_of (ev : Event) : option string :=
  match ev with
  | EvCall (logrus_Info msg) _ => Some msg
  | _ => None
  end.

(** The body of a goroutine that was started. *)
Definition Go_of (ev : Event) : option (Prog unit) :=
  match ev with
  | EvGo body => Some body
  | _ => None
  end.

(** The context and the cancel function [context.WithCancel] returned. *)
Definition WithCancel_of (ev : Event) : option (context_Context * context_CancelFunc) :=
  match ev with
  | EvCall c x =>
      match c in ExtCall X return X -> option _ with
      | context_WithCancel _ => fun r => Some r
      | _ => fun _ => None
      end x
  | _ => None
  end.

(** The cancel function that was called. *)
Definition Cancel_of (ev : Event) : option context_CancelFunc :=
  match ev with
  | EvCall (call_CancelFunc f) _ => Some f
  | _ => None
  end.

(** The channel and the signals of a call to [signal.Notify]. *)
Definition Notify_of (ev : Event) : option (SignalChan * list Signal) :=
  match ev with
  | EvCall (signal_Notify c sigs) _ => Some (c, sigs)
  | _ => None
  end.

(** The capacity and the channel of a [make(chan os.Signal, n)]. *)
Definition make_chan_of (ev : Event) : option (nat * SignalChan) :=
  match ev with
  | EvCall c x =>
      match c in ExtCall X return X -> option _ with
      | make_chan_Signal capacity => fun r => Some (capacity, r)
      | _ => fun _ => None
      end x
  | _ => None
  end.

(** What [setupLogger] can set. *)
Inductive LogSetting : Type := DebugLevel | JSONFormatter.

Definition Logging_of (ev : Event) : option LogSetting :=
  match ev with
  | EvCall logrus_SetLevel_Debug _ => Some DebugLevel
  | EvCall logrus_SetFormatter_JSON _ => Some JSONFormatter
  | _ => None
  end.

(** The key and the result of a call to [GetBool]. *)
Definition GetBool_of (ev : Event) : option (string * bool) :=
  match ev with
  | EvCall c x =>
      match c in ExtCall X return X -> option _ with
      | GetBool _ key => fun r => Some (key, r)
      | _ => fun _ => None
      end x
  | _ => None
  end.

(** The name given to [pflag.NewFlagSet]. *)
Definition NewFlagSet_of (ev : Event) : option string :=
  match ev with
  | EvCall (pflag_NewFlagSet_ContinueOnError name) _ => Some name
  | _ => None
  end.

(** The flags [cmd.VisitAll] visits. *)
Definition flags_of (ev : Event) : option (list pflag_Flag) :=
  match ev with
  | EvCall c x =>
      match c in ExtCall X return X -> option _ with
      | FlagSet_flags _ => fun r => Some r
      | _ => fun _ => None
      end x
  | _ => None
  end.

(** The key and the flag of a call to [v.BindPFlag]. *)
Definition Bind_of (ev : Event) : option (string * pflag_Flag) :=
  match ev with
  | EvCall (BindPFlag _ key flag) _ => Some (key, flag)
  | _ => None
  end.

(** The arguments given to [cmd.Parse]. *)
Definition Parse_args_of (ev : Event) : option (list string) :=
  match ev with
  | EvCall (FlagSet_Parse _ arguments) _ => Some arguments
  | _ => None
  end.

(** The viper [viper.New] returned. *)
Definition viper_New_of (ev : Event) : option viper_Viper :=
  match ev with
  | EvCall c x =>
      match c in ExtCall X return X -> option _ with
      | viper_New => fun r => Some r
      | _ => fun _ => None
      end x
  | _ => None
  end.

(** The viper a call is made on or is given; for [Server.Run], the viper
    of the server. *)
Definition viper_arg_of (ev : Event) : option viper_Viper :=
  match ev with
  | EvCall c _ =>
      match c with
      | GetString v _ | GetStringSlice v _ | GetBool v _ | GetInt v _
      | GetFloat64 v _ | GetDuration v _ | BindPFlag v _ _ | SetConfigFile v _
      | ReadInConfig v | util_InitViper v _ | transport_NewTransportPool _ v
      | statsd_NewCloudHandlerFactoryFromViper v _ _ | InitCloudProvider _ v
      | backends_InitBackend _ v _ | gostatsd_DisabledSubMetrics v => Some v
      | Server_Run s _ => Some (Viper s)
      | _ => None
      end
  | _ => None
  end.

(** The viper and the transport pool given to [backends.InitBackend]. *)
Definition InitBackend_args_of (ev : Event) : option (viper_Viper * transport_TransportPool) :=
  match ev with
  | EvCall (backends_InitBackend _ v pool) _ => Some (v, pool)
  | _ => None
  end.

(** The transport pool [transport.NewTransportPool] returned. *)
Definition NewTransportPool_of (ev : Event) : option transport_TransportPool :=
  match ev with
  | EvCall c x =>
      match c in ExtCall X return X -> option _ with
      | transport_NewTransportPool _ _ => fun r => Some r
      | _ => fun _ => None
      end x
  | _ => None
  end.

(** The factory and the result of a call to [InitCloudProvider]. *)
Definition InitCloudProvider_of (ev : Event)
  : option (statsd_CloudHandlerFactory * option error) :=
  match ev with
  | EvCall c x =>
      match c in ExtCall X return X -> option _ with
      | InitCloudProvider cloud _ => fun r => Some (cloud, r)
      | _ => fun _ => None
      end x
  | _ => None
  end.

(** The line [main] prints for the [version] flag. *)
Definition version_line : string :=
  "Version: " +:+ Version +:+ " - Commit: " +:+ GitCommit
  +:+ " - Date: " +:+ BuildDate +:+ newline.

(** What [main] does before [setupConfiguration]. *)
Definition main_prelude (seed : Z) : list Event :=
  [EvCall time_Now_UnixNano seed; EvCall (rand_Seed seed) ()].

End Records.

(** * A concrete environment

    An environment with handles of unit type, backends known by their name
    and a parser that knows a few decimal numerals; what it answers is fixed
    by a [Config], and its state counts the calls it has answered. *)

Module Demo.

Definition ParseFloat (s : string) : float64 * option error :=
  if decide (s = "90") then (90%float, None)
  else if decide (s = "95") then (95%float, None)
  else if decide (s = "99") then (99%float, None)
  else (0%float, Some (errorString ("strconv.ParseFloat: parsing " +:+ s +:+ ": invalid syntax"))).

#[export] Instance externals : Externals := {|
  viper_Viper := unit;
  logrus_Logger := unit;
  transport_TransportPool := unit;
  statsd_CloudHandlerFactory := unit;
  gostatsd_Backend := string;
  gostatsd_TimerSubtypes := unit;
  context_Context := unit;
  context_CancelFunc := unit;
  pflag_FlagSet := unit;
  pflag_Flag := string;
  SignalChan := unit;
  BoolVar := unit;
  flag_Name := λ flag, flag;
  strconv_ParseFloat := ParseFloat;
  Version := "0.0.0";
  GitCommit := "unknown";
  BuildDate := "unknown";
  ParamBackends := "backends";
  ParamPercentThreshold := "percent-threshold";
  ParamInternalTags := "internal-tags";
  ParamInternalNamespace := "internal-namespace";
  ParamDefaultTags := "default-tags";
  ParamHostname := "hostname";
  ParamExpiryInterval := "expiry-interval";
  ParamFlushInterval := "flush-interval";
  ParamIgnoreHost := "ignore-host";
  ParamMaxReaders := "max-readers";
  ParamMaxParsers := "max-parsers";
  ParamMaxWorkers := "max-workers";
  ParamMaxQueueSize := "max-queue-size";
  ParamMaxConcurrentEvents := "max-concurrent-events";
  ParamEstimatedTags := "estimated-tags";
  ParamMetricsAddr := "metrics-addr";
  ParamNamespace := "namespace";
  ParamStatserType := "statser-type";
  ParamHeartbeatEnabled := "heartbeat-enabled";
  ParamReceiveBatchSize := "receive-batch-size";
  ParamConnPerReader := "conn-per-reader";
  ParamServerMode := "server-mode";
  ParamLogRawMetric := "log-raw-metric";
  ParamBadLinesPerMinute := "bad-lines-per-minute";
|}.

Record Config : Type := {
  cfg_cloud : option unit * option error;
  cfg_provider : option error;
  cfg_backend : string → option string * option error;
  cfg_backends : list string;
  cfg_percent : list string;
  cfg_config_path : string;
  cfg_bad_lines : float64;
  cfg_run : option error;
  cfg_args : list string;
  cfg_parse : option error;
  cfg_read : option error;
  cfg_selected : Selected;
}.

Definition known_backend (name : string) : option string * option error :=
  if decide (name = "graphite") then (Some name, None)
  else if decide (name = "datadog") then (Some name, None)
  else (None, Some (errorString ("unknown backend " +:+ name))).

(** A configuration with which the server starts and stops on a signal. *)
Definition good : Config := {|
  cfg_cloud := (None, None);
  cfg_provider := None;
  cfg_backend := known_backend;
  cfg_backends := ["graphite"; "datadog"];
  cfg_percent := ["90"; "99"];
  cfg_config_path := "";
  cfg_bad_lines := 600%float;
  cfg_run := Some context_Canceled;
  cfg_args := ["gostatsd"];
  cfg_parse := None;
  cfg_read := None;
  cfg_selected := Received SIGTERM;
|}.

Definition answer (cfg : Config) (X : Type) (c : ExtCall X) : X :=
  match c in ExtCall X return X with
  | logrus_StandardLogger => ()
  | logrus_Info _ => ()
  | logrus_Errorf _ => ()
  | logrus_SetLevel_Debug => ()
  | logrus_SetFormatter_JSON => ()
  | http_ListenAndServe _ => Some (errorString "listen: address already in use")
  | fmt_Printf _ => ()
  | time_Now_UnixNano => 0
  | rand_Seed _ => ()
  | os_Args => cfg_args cfg
  | viper_New => ()
  | GetString _ key => if decide (key = ParamConfigPath) then cfg_config_path cfg else ""
  | GetStringSlice _ key =>
      if decide (key = "backends") then cfg_backends cfg
      else if decide (key = "percent-threshold") then cfg_percent cfg
      else []
  | GetBool _ _ => false
  | GetInt _ _ => 0
  | GetFloat64 _ _ => cfg_bad_lines cfg
  | GetDuration _ _ => 0
  | BindPFlag _ _ _ => None
  | SetConfigFile _ _ => ()
  | ReadInConfig _ => cfg_read cfg
  | pflag_NewFlagSet_ContinueOnError _ => ()
  | FlagSet_BoolVar _ _ _ _ _ => ()
  | FlagSet_Bool _ _ _ _ => ()
  | FlagSet_String _ _ _ _ => ()
  | FlagSet_flags _ => [ParamVersion; ParamVerbose; ParamJSON; ParamProfile; ParamConfigPath]
  | FlagSet_Parse _ _ => cfg_parse cfg
  | var_bool => ()
  | load_bool _ => false
  | util_InitViper _ _ => ()
  | transport_NewTransportPool _ _ => ()
  | statsd_NewCloudHandlerFactoryFromViper _ _ _ => cfg_cloud cfg
  | InitCloudProvider _ _ => cfg_provider cfg
  | backends_InitBackend backendName _ _ => cfg_backend cfg backendName
  | gostatsd_DisabledSubMetrics _ => ()
  | statsd_AddFlags _ => ()
  | Server_Run _ _ => cfg_run cfg
  | context_Background => ()
  | context_WithCancel _ => ((), ())
  | call_CancelFunc _ => ()
  | make_chan_Signal _ => ()
  | signal_Notify _ _ => ()
  | select_Done_or_recv _ _ => cfg_selected cfg
  end.

Definition handler (cfg : Config) : Handler (World := nat) :=
  λ X c calls, (answer cfg X c, S calls).

(** The percentile thresholds do not parse. *)
Definition bad_percent : Config := {|
  cfg_cloud := cfg_cloud good;
  cfg_provider := cfg_provider good;
  cfg_backend := cfg_backend good;
  cfg_backends := cfg_backends good;
  cfg_percent := ["90"; "ninety-nine"];
  cfg_config_path := cfg_config_path good;
  cfg_bad_lines := cfg_bad_lines good;
  cfg_run := cfg_run good;
  cfg_args := cfg_args good;
  cfg_parse := cfg_parse good;
  cfg_read := cfg_read good;
  cfg_selected := cfg_selected good;
|}.

(** The second backend is not known. *)
Definition bad_backend : Config := {|
  cfg_cloud := cfg_cloud good;
  cfg_provider := cfg_provider good;
  cfg_backend := cfg_backend good;
  cfg_backends := ["graphite"; "carbon"; "datadog"];
  cfg_percent := cfg_percent good;
  cfg_config_path := cfg_config_path good;
  cfg_bad_lines := cfg_bad_lines good;
  cfg_run := cfg_run good;
  cfg_args := cfg_args good;
  cfg_parse := cfg_parse good;
  cfg_read := cfg_read good;
  cfg_selected := cfg_selected good;
|}.

(** The server stops on an error of its own. *)
Definition server_error : Config := {|
  cfg_cloud := cfg_cloud good;
  cfg_provider := cfg_provider good;
  cfg_backend := cfg_backend good;
  cfg_backends := cfg_backends good;
  cfg_percent := cfg_percent good;
  cfg_config_path := cfg_config_path good;
  cfg_bad_lines := cfg_bad_lines good;
  cfg_run := Some (errorString "listen udp :8125: bind: address already in use");
  cfg_args := cfg_args good;
  cfg_parse := cfg_parse good;
  cfg_read := cfg_read good;
  cfg_selected := cfg_selected good;
|}.

(** The command line does not parse: [-h], or an unknown flag. *)
Definition command_line (arguments : list string) (r : option error) : Config := {|
  cfg_cloud := cfg_cloud good;
  cfg_provider := cfg_provider good;
  cfg_backend := cfg_backend good;
  cfg_backends := cfg_backends good;
  cfg_percent := cfg_percent good;
  cfg_config_path := cfg_config_path good;
  cfg_bad_lines := cfg_bad_lines good;
  cfg_run := cfg_run good;
  cfg_args := "gostatsd" :: arguments;
  cfg_parse := r;
  cfg_read := cfg_read good;
  cfg_selected := cfg_selected good;
|}.

(** A configuration file is named and cannot be read. *)
Definition unreadable_file : Config := {|
  cfg_cloud := cfg_cloud good;
  cfg_provider := cfg_provider good;
  cfg_backend := cfg_backend good;
  cfg_backends := cfg_backends good;
  cfg_percent := cfg_percent good;
  cfg_config_path := "/etc/gostatsd.toml";
  cfg_bad_lines := cfg_bad_lines good;
  cfg_run := cfg_run good;
  cfg_args := ["gostatsd"; "--config-path"; "/etc/gostatsd.toml"];
  cfg_parse := cfg_parse good;
  cfg_read := Some (errorString "open /etc/gostatsd.toml: no such file or directory");
  cfg_selected := cfg_selected good;
|}.

(** A cloud provider is configured. *)
Definition with_cloud : Config := {|
  cfg_cloud := (Some (), None);
  cfg_provider := cfg_provider good;
  cfg_backend := cfg_backend good;
  cfg_backends := cfg_backends good;
  cfg_percent := cfg_percent good;
  cfg_config_path := cfg_config_path good;
  cfg_bad_lines := cfg_bad_lines good;
  cfg_run := cfg_run good;
  cfg_args := cfg_args good;
  cfg_parse := cfg_parse good;
  cfg_read := cfg_read good;
  cfg_selected := cfg_selected good;
|}.

(** The environment of [cfg] in which parsing has set the variable of the
    [version] flag. *)
Definition version_handler (cfg : Config) : Handler (World := nat) :=
  λ X c calls,
    (match c in ExtCall X return X → X with
     | load_bool _ => λ _, true
     | _ => λ x, x
     end (answer cfg X c), S calls).

End Demo.

(** * The aggregation key and the counters

    The aggregation pipeline is not part of [main.go].  The two modules
    below model, from the specification, the part of it that the stated
    properties are about. *)

Module Identity.

(** Modelled from the spec: the metric kinds (data model, section 3; the
    package that declares them is not among the sources). *)
Inductive MetricKind : Type := Counter | Gauge | Set_ | Timer.

#[global] Instance MetricKind_eq_dec : EqDecision MetricKind.
Proof. solve_decision. Defined.

(** Modelled from the spec: a Metric is one ingested data point, with its
    name, its kind, its tags in the order they were inserted, and its value
    (the struct is declared in package gostatsd, not among the sources). *)
Record Metric : Type := {
  Name : string;
  Kind : MetricKind;
  Tags : list string;
  Value : Z;
}.

(** Modelled from the spec: a MetricIdentity is (name, tag-set, kind), with
    the tag-set in a canonical sorted form (the type is declared in package
    gostatsd, not among the sources). *)
Record MetricIdentity : Type := {
  id_name : string;
  id_kind : MetricKind;
  id_tags : list string;
}.

#[global] Instance MetricIdentity_eq_dec : EqDecision MetricIdentity.
Proof. solve_decision. Defined.

Abbreviation tag_lt := String_as_OT.lt.

(** Modelled from the spec: the canonical sorted form of a tag-set, here by
    insertion into a strictly increasing list (the function that computes it
    is not among the sources). *)
Fixpoint insert_tag (t : string) (l : list string) : list string :=
  match l with
  | [] => [t]
  | x :: l' =>
      match String_as_OT.compare t x with
      | Lt => t :: l
      | Eq => l
      | Gt => x :: insert_tag t l'
      end
  end.

Definition canonical (tags : list string) : list string := foldr insert_tag [] tags.

(** Modelled from the spec: the identity of a metric. *)
Definition identity (m : Metric) : MetricIdentity :=
  {| id_name := Name m; id_kind := Kind m; id_tags := canonical (Tags m) |}.

Section Shard.

(** Modelled from the spec: identities are partitioned over a fixed pool of
    workers by a hash of the identity; the hash function itself is not
    specified. *)
Variable hash : MetricIdentity → N.
Variable workers : N.

Definition shard (id : MetricIdentity) : N := (hash id mod workers)%N.

End Shard.

(** A hash function to compute with: the length of the name. *)
Definition name_length_hash (id : MetricIdentity) : N := N.of_nat (String.length (id_name id)).

End Identity.

Module Counters.
Import Identity.

#[global] Instance MetricKind_countable : Countable MetricKind.
Proof.
  refine (inj_countable'
            (λ k, match k with Counter => 0 | Gauge => 1 | Set_ => 2 | Timer => 3 end)%nat
            (λ n, match n with 0 => Counter | 1 => Gauge | 2 => Set_ | _ => Timer end)%nat _).
  by intros [].
Defined.

#[global] Instance MetricIdentity_countable : Countable MetricIdentity.
Proof.
  refine (inj_countable'
            (λ i, (id_name i, id_kind i, id_tags i))
            (λ '(n, k, t), {| id_name := n; id_kind := k; id_tags := t |}) _).
  by intros [].
Defined.

(** Modelled from the spec: an AggregatedCounter is a running sum since the
    last flush and a total since start; the expiry manager, which is part of
    every worker shard, tracks the time an identity was last seen (data
    model and section 4.5; the aggregator is not among the sources). *)
Record AggregatedCounter : Type := {
  Sum : Z;
  Total : Z;
  LastSeen : Z;
}.

(** Modelled from the spec: after a flush a counter is reset to zero and
    either persists at zero or disappears, as configured (data model; the
    worker "clears/rolls state per the reset policy"). *)
Inductive ResetPolicy : Type := PersistAtZero | Disappear.

(** Modelled from the spec: the part of the configuration surface that the
    counters of a shard depend on: the reset policy and the expiry interval
    of counters (the interval is configured per metric kind). *)
Record Settings : Type := {
  Reset : ResetPolicy;
  ExpiryInterval : Z;
}.

(** Modelled from the spec: a WorkerShard maps identities to their aggregate
    state; a Snapshot is a copy of it taken at a flush. *)
Abbreviation WorkerShard := (gmap MetricIdentity AggregatedCounter).
Abbreviation Snapshot := (gmap MetricIdentity AggregatedCounter).

(** Modelled from the spec: a counter metric is folded into the state of its
    identity, looked up or created, by addition; the activity resets the
    expiry clock of the identity. *)
Definition fold_counter (now : Z) (id : MetricIdentity) (v : Z) (sh : WorkerShard)
  : WorkerShard :=
  let c := default {| Sum := 0; Total := 0; LastSeen := now |} (sh !! id) in
  <[id := {| Sum := Sum c + v; Total := Total c + v; LastSeen := now |}]> sh.

(** Modelled from the spec: a flush hands out a snapshot of the shard and
    then applies the reset policy: the counters persist with a running sum
    of zero and their total, or they disappear from the shard. *)
Definition flush (policy : ResetPolicy) (sh : WorkerShard) : Snapshot * WorkerShard :=
  (sh,
   match policy with
   | PersistAtZero =>
       (λ c, {| Sum := 0; Total := Total c; LastSeen := LastSeen c |}) <$> sh
   | Disappear => ∅
   end).

(** Modelled from the spec: an expiry check removes, entirely, the
    identities that were not seen for longer than the expiry interval; data
    that arrives later under such an identity starts a fresh aggregate. *)
Definition expire (interval now : Z) (sh : WorkerShard) : WorkerShard :=
  filter (λ p, now - LastSeen p.2 ≤ interval) sh.

(** Modelled from the spec: what a worker receives: a counter metric at
    some time, a flush signal, or an expiry check at some time (flush and
    expiry run on independent cadences). *)
Inductive Input : Type :=
| Fold (now : Z) (id : MetricIdentity) (v : Z)
| Flush
| Expire (now : Z).

#[global] Instance Input_eq_dec : EqDecision Input.
Proof. solve_decision. Defined.

(** Modelled from the spec: a worker's state is its shard, with the
    snapshots it has handed out; it folds a metric in, flushes, or checks
    for expired identities. *)
Definition receive (cfg : Settings) (st : WorkerShard * list Snapshot) (i : Input)
  : WorkerShard * list Snapshot :=
  match i with
  | Fold now id v => (fold_counter now id v st.1, st.2)
  | Flush => let '(snap, sh) := flush (Reset cfg) st.1 in (sh, st.2 ++ [snap])
  | Expire now => (expire (ExpiryInterval cfg) now st.1, st.2)
  end.

(** Modelled from the spec: a worker from its start, with an empty shard. *)
Definition worker (cfg : Settings) (inputs : list Input) : WorkerShard * list Snapshot :=
  foldl (receive cfg) (∅, []) inputs.

(** Modelled from the spec: the delta since the last flush and the total
    since start that a snapshot reports for an identity (nothing for an
    identity it does not hold). *)
Definition delta (id : MetricIdentity) (snap : Snapshot) : Z :=
  from_option Sum 0 (snap !! id).







End Counters.

(** * Properties *)

Section Properties.
Context `{Ext : Externals}.

(** ** [getPercentiles] *)

(** A list either parses throughout or splits at its first failure. *)
Lemma first_failure (s : list string) :
  Forall parses s ∨
  ∃ pre x post e, s = pre ++ x :: post ∧ Forall parses pre ∧ (strconv_ParseFloat x).2 = Some e.
Proof.
  induction s as [|y s IH].
  - left. constructor.
  - destruct (strconv_ParseFloat y) as [pt [e|]] eqn:Hy.
    + right. exists [], y, s, e. rewrite Hy. split_and!; [done | constructor | done].
    + destruct IH as [IH | (pre & x & post & e & -> & Hpre & Hx)].
      * left. constructor; [unfold parses; by rewrite Hy | done].
      * right. exists (y :: pre), x, post, e. split_and!; [done | | done].
        constructor; [unfold parses; by rewrite Hy | done].
Qed.

Lemma getPercentiles_range_ok (s : list string) : ∀ i acc,
  Forall parses s → (i + length s ≤ length acc)%nat →
  getPercentiles_range s i acc =
    (Some (take i acc ++ ((λ x, (strconv_ParseFloat x).1) <$> s) ++ drop (i + length s) acc), None).
Proof.
  induction s as [|y s IH]; intros i acc Hall Hlen; simpl in *.
  - rewrite Nat.add_0_r, take_drop. done.
  - inversion Hall as [|? ? Hy Hs]; subst. unfold parses in Hy.
    destruct (strconv_ParseFloat y) as [pt err] eqn:Ept. simpl in Hy. subst err.
    rewrite IH; [| done | rewrite length_insert; lia].
    do 2 f_equal.
    rewrite (take_S_r _ i pt) by (apply list_lookup_insert_eq; lia).
    rewrite take_insert_ge by lia.
    rewrite drop_insert_lt by lia.
    rewrite <- app_assoc. simpl. by rewrite Nat.add_succ_r.
Qed.

Lemma getPercentiles_range_fail (pre post : list string) x e : ∀ i acc,
  Forall parses pre → (strconv_ParseFloat x).2 = Some e →
  getPercentiles_range (pre ++ x :: post) i acc = (None, Some e).
Proof.
  induction pre as [|y pre IH]; intros i acc Hall Hx; simpl.
  - destruct (strconv_ParseFloat x) as [pt err]. simpl in Hx. by subst.
  - inversion Hall as [|? ? Hy Hs]; subst. unfold parses in Hy.
    destruct (strconv_ParseFloat y) as [pt err]. simpl in Hy. subst err. by apply IH.
Qed.

Lemma getPercentiles_ok (s : list string) :
  Forall parses s →
  getPercentiles s = (Some ((λ x, (strconv_ParseFloat x).1) <$> s), None).
Proof.
  intros Hall. unfold getPercentiles.
  rewrite getPercentiles_range_ok; [| done | rewrite length_replicate; lia].
  rewrite take_0. simpl. rewrite drop_ge by (rewrite length_replicate; lia).
  by rewrite app_nil_r.
Qed.

Lemma getPercentiles_fail (pre post : list string) x e :
  Forall parses pre → (strconv_ParseFloat x).2 = Some e →
  getPercentiles (pre ++ x :: post) = (None, Some e).
Proof. intros. unfold getPercentiles. by apply getPercentiles_range_fail. Qed.

Lemma not_parses_Exists (pre post : list string) x e :
  (strconv_ParseFloat x).2 = Some e →
  Exists (λ y, is_Some (strconv_ParseFloat y).2) (pre ++ x :: post).
Proof.
  intros Hx. apply Exists_exists. exists x. split; [| by rewrite Hx].
  set_solver.
Qed.

Lemma parses_not_Exists (s : list string) :
  Forall parses s → ¬ Exists (λ y, is_Some (strconv_ParseFloat y).2) s.
Proof.
  intros Hall Hex. apply Exists_exists in Hex as (x & Hin & [e He]).
  rewrite Forall_forall in Hall. specialize (Hall x Hin). unfold parses in Hall. congruence.
Qed.

(** C7: [getPercentiles] returns an error exactly when some element of its
    input does not parse as a float; the slice returned is then nil and the
    error is the parse error of the first such element.  Otherwise it
    returns a slice as long as the input whose [i]-th element is the parsed
    value of the [i]-th input string. *)
Theorem getPercentiles_spec (s : list string) :
  (is_Some (getPercentiles s).2 ↔ Exists (λ x, is_Some (strconv_ParseFloat x).2) s) ∧
  (∀ e, (getPercentiles s).2 = Some e →
     (getPercentiles s).1 = None ∧
     ∃ pre x post, s = pre ++ x :: post ∧ Forall parses pre ∧
                   (strconv_ParseFloat x).2 = Some e) ∧
  ((getPercentiles s).2 = None →
     ∃ pts, (getPercentiles s).1 = Some pts ∧ length pts = length s ∧
            ∀ i x, s !! i = Some x → pts !! i = Some (strconv_ParseFloat x).1).
Proof.
  destruct (first_failure s) as [Hall | (pre & x & post & e & -> & Hpre & Hx)].
  - rewrite (getPercentiles_ok s Hall). simpl. split_and!.
    + split; [intros [? ?]; done | intros Hex; by apply parses_not_Exists in Hex].
    + intros e He. done.
    + intros _. eexists. split_and!; [done | by rewrite length_fmap |].
      intros i x Hx. rewrite list_lookup_fmap, Hx. done.
  - rewrite (getPercentiles_fail pre post x e Hpre Hx). simpl. split_and!.
    + split; [intros _; by eapply not_parses_Exists | by eexists].
    + intros e' [= <-]. split; [done|]. by exists pre, x, post.
    + intros H. done.
Qed.

(** ** Executions of composed programs *)

Section Executions.
Context {World : Type} (h : Handler (World := World)).

Lemma exec_bind {A B : Type} (p : Prog A) (f : A → Prog B) (w : World) :
  exec h (bind p f) w =
    match exec h p w with
    | (Returned a, w1, l1) => let '(o, w2, l2) := exec h (f a) w1 in (o, w2, l1 ++ l2)
    | (Panicked v, w1, l1) => (Panicked v, w1, l1)
    | (Exited, w1, l1) => (Exited, w1, l1)
    end.
Proof.
  revert B f w. induction p as [A a | A X c k IH | A v | A msg | A body _ k IH]; intros B f w; simpl.
  - by destruct (exec h (f a) w) as [[o w2] l2].
  - destruct (h X c w) as [x w1]. rewrite IH.
    destruct (exec h (k x) w1) as [[[a| |] w2] l]; [|done..].
    by destruct (exec h (f a) w2) as [[o w3] l2].
  - done.
  - done.
  - rewrite IH. destruct (exec h k w) as [[[a| |] w2] l]; [|done..].
    by destruct (exec h (f a) w2) as [[o w3] l2].
Qed.

Lemma exec_mbind {A B : Type} (p : Prog A) (f : A → Prog B) (w : World) :
  exec h (p ≫= f) w =
    match exec h p w with
    | (Returned a, w1, l1) => let '(o, w2, l2) := exec h (f a) w1 in (o, w2, l1 ++ l2)
    | (Panicked v, w1, l1) => (Panicked v, w1, l1)
    | (Exited, w1, l1) => (Exited, w1, l1)
    end.
Proof. apply exec_bind. Qed.

(** A deferred call runs after a return and after a panic, and keeps the
    outcome unless it ends otherwise itself. *)
Lemma exec_defer {A : Type} (d : Prog unit) (p : Prog A) (w : World) :
  exec h (defer d p) w =
    match exec h p w with
    | (Returned a, w1, l1) =>
        let '(o, w2, l2) := exec h (bind d (λ _, Ret a)) w1 in (o, w2, l1 ++ l2)
    | (Panicked v, w1, l1) =>
        let '(o, w2, l2) := exec h (bind d (λ _, Panic (A := A) v)) w1 in (o, w2, l1 ++ l2)
    | (Exited, w1, l1) => (Exited, w1, l1)
    end.
Proof.
  revert w. induction p as [A a | A X c k IH | A v | A msg | A body _ k IH]; intros w; simpl.
  - by destruct (exec h (bind d _) w) as [[o w2] l2].
  - destruct (h X c w) as [x w1]. rewrite IH.
    destruct (exec h (k x) w1) as [[[a|v|] w2] l]; [| |done].
    + by destruct (exec h (bind d _) w2) as [[o w3] l2].
    + by destruct (exec h (bind d _) w2) as [[o w3] l2].
  - by destruct (exec h (bind d _) w) as [[o w2] l2].
  - done.
  - rewrite IH. destruct (exec h k w) as [[[a|v|] w2] l]; [| |done].
    + by destruct (exec h (bind d _) w2) as [[o w3] l2].
    + by destruct (exec h (bind d _) w2) as [[o w3] l2].
Qed.

(** ** [constructServer] *)

Lemma constructServer_range_exec v pool (names : list string) :
  ∀ i acc w o w' l,
  (i + length names ≤ length acc)%nat →
  exec h (constructServer_range v pool names i acc) w = (o, w', l) →
  (∃ bs, length bs = length names ∧
         l = backend_calls v pool names ((., None) <$> bs) ∧
         o = Returned (take i acc ++ bs ++ drop (i + length names) acc, None)) ∨
  (∃ pre n post bs b e acc', names = pre ++ n :: post ∧ length bs = length pre ∧
         l = backend_calls v pool pre ((., None) <$> bs)
             ++ [EvCall (backends_InitBackend n v pool) (b, Some e)] ∧
         o = Returned (acc', Some e)).
Proof.
  induction names as [|name names IH]; intros i acc w o w' l Hlen Hex; simpl in *.
  - left. exists []. injection Hex as <- <- <-.
    rewrite Nat.add_0_r. simpl. by rewrite take_drop.
  - destruct (h _ (backends_InitBackend name v pool) w) as [[backend [e|]] w1] eqn:Hcall;
      simpl in Hex.
    + injection Hex as <- <- <-. right.
      exists [], name, names, [], backend, e, acc. done.
    + destruct (exec h (constructServer_range v pool names (S i) (<[i:=backend]> acc)) w1)
        as [[o1 w2] l1] eqn:Hrest.
      injection Hex as <- <- <-.
      apply IH in Hrest; [| rewrite length_insert; lia].
      destruct Hrest as [(bs & Hbs & -> & ->)
                        | (pre & n & post & bs & b & e & acc' & -> & Hbs & -> & ->)].
      * left. exists (backend :: bs). split_and!; [simpl; lia | done |].
        do 2 f_equal.
        rewrite (take_S_r _ i backend) by (apply list_lookup_insert_eq; lia).
        rewrite take_insert_ge, drop_insert_lt by lia.
        rewrite <- app_assoc. simpl. by rewrite Nat.add_succ_r.
      * right. exists (name :: pre), n, post, (backend :: bs), b, e, acc'.
        split_and!; [done | simpl; lia | done | done].
Qed.

Ltac answer H :=
  match type of H with
  | context [h ?X ?c ?w] =>
      let x := fresh "x" in let w' := fresh "w" in
      destruct (h X c w) as [x w']; simpl in H
  end.

(** Every execution of [constructServer] returns, along one of the paths. *)
Lemma constructServer_paths v w o w' log :
  exec h (constructServer v) w = (o, w', log) →
  ∃ r, o = Returned r ∧ constructServer_path v r log.
Proof.
  unfold constructServer. intros Hex. simpl in Hex.
  destruct (h _ logrus_StandardLogger w) as [logger w1].
  destruct (h _ (transport_NewTransportPool logger v) w1) as [pool w2].
  destruct (h _ (statsd_NewCloudHandlerFactoryFromViper v logger Version) w2)
    as [[cloud [e|]] w3]; simpl in Hex.
  { injection Hex as <- <- <-. eexists; split; [done|]. constructor. }
  match type of Hex with context [exec h (_ ≫= ?f) w3] => remember f as rest eqn:Erest end.
  rewrite exec_mbind in Hex.
  assert (Hrest : ∀ w o w' l, exec h (rest None) w = (o, w', l) →
            ∃ r, o = Returned r ∧ constructServer_path v r (cloud_calls v logger pool cloud ++ l)).
  { clear Hex w w1 w2 w3 o w' log. intros w o w' l Hex. rewrite Erest in Hex. simpl in Hex.
    destruct (h _ (GetStringSlice v ParamBackends) w) as [names w1].
    rewrite exec_mbind in Hex.
    destruct (exec h (constructServer_range _ _ _ _ _) w1) as [[o1 w2] l1] eqn:Hloop.
    apply constructServer_range_exec in Hloop; [| rewrite length_replicate; lia].
    destruct Hloop as [(bs & Hbs & -> & ->)
                      | (pre & n & post & bs & b & e & acc' & -> & Hbs & -> & ->)];
      simpl in Hex.
    2:{ injection Hex as <- <- <-. eexists; split; [done|].
        rewrite app_nil_r. by apply path_backend_error. }
    destruct (h _ (GetStringSlice v ParamPercentThreshold) w2) as [percentThreshold w3].
    destruct (getPercentiles percentThreshold) as [pt [e|]] eqn:Hpt; simpl in Hex.
    { injection Hex as <- <- <-. eexists; split; [done|].
      apply path_percentile_error; [done | by rewrite Hpt]. }
    repeat answer Hex.
    injection Hex as <- <- <-. eexists; split; [done|].
    rewrite drop_ge, app_nil_r by (rewrite length_replicate; lia).
    match goal with |- constructServer_path _ (Some ?s, _) _ =>
      apply (path_server v logger pool cloud names percentThreshold s) end; done. }
  destruct cloud as [c|]; simpl in Hex.
  - destruct (h _ (InitCloudProvider c v) w3) as [[e|] w4]; simpl in Hex.
    + rewrite Erest in Hex. simpl in Hex. inversion Hex; subst.
      eexists; split; [done|]. apply path_provider_error.
    + destruct (exec h (rest None) w4) as [[o1 w5] l1] eqn:Hr.
      apply Hrest in Hr as (r & -> & Hp). simpl in Hex. inversion Hex; subst.
      exists r. split; [done | exact Hp].
  - destruct (exec h (rest None) w3) as [[o1 w5] l1] eqn:Hr.
    apply Hrest in Hr as (r & -> & Hp). simpl in Hex. inversion Hex; subst.
      exists r. split; [done | exact Hp].
Qed.

(** ** [run] *)

Lemma exec_call {X : Type} (c : ExtCall X) (w : World) :
  exec h (call c) w = let '(x, w1) := h X c w in (Returned x, w1, [EvCall c x]).
Proof. simpl. by destruct (h X c w). Qed.

Ltac bind_call H x w :=
  rewrite exec_mbind, exec_call in H;
  match type of H with
  | context [h ?X ?c ?w0] => destruct (h X c w0) as [x w]
  end;
  cbv beta iota zeta in H.

Lemma run_prelude_app v profileAddr (l : list Event) :
  run_prelude v profileAddr ++ l =
    EvCall (GetString v ParamProfile) profileAddr
    :: (if decide (profileAddr ≠ "") then [EvGo (run_go profileAddr)] else [])
       ++ EvCall (logrus_Info "Starting server") () :: l.
Proof. unfold run_prelude. simpl. by rewrite <- app_assoc. Qed.

(** Every execution of [run] returns.  Either [constructServer] fails and
    [run] returns its error right away, or the server runs under a
    cancellable context. *)
Lemma run_exec v w o w' log :
  exec h (run v) w = (o, w', log) →
  (∃ profileAddr e w1 lc,
      exec h (constructServer v) w1 = (Returned (None, Some e), w', lc) ∧
      constructServer_path v (None, Some e) lc ∧
      log = run_prelude v profileAddr ++ lc ∧
      o = Returned (Some e)) ∨
  (∃ profileAddr s w1 w2 lc parent ctx cancelFunc c r,
      exec h (constructServer v) w1 = (Returned (Some s, None), w2, lc) ∧
      constructServer_path v (Some s, None) lc ∧
      log = run_prelude v profileAddr ++ lc ++ run_server_calls s parent ctx cancelFunc c r ∧
      o = Returned (run_result r)).
Proof.
  unfold run. intros Hex.
  bind_call Hex profileAddr w1.
  rewrite exec_mbind in Hex.
  assert (Hgo : exec h (if decide (profileAddr ≠ "")
                        then Go (run_go profileAddr) (Ret ()) else Ret ()) w1
                = (Returned (), w1,
                   if decide (profileAddr ≠ "") then [EvGo (run_go profileAddr)] else []))
    by (by destruct (decide _)).
  rewrite Hgo in Hex. clear Hgo. cbv beta iota zeta in Hex.
  bind_call Hex u w2. destruct u.
  rewrite exec_mbind in Hex.
  destruct (exec h (constructServer v) w2) as [[oc w3] lc] eqn:Hc.
  destruct (constructServer_paths _ _ _ _ _ Hc) as ([s err] & -> & Hpath).
  cbv beta iota zeta in Hex.
  destruct err as [e|].
  - simpl in Hex. inversion Hex; subst.
    assert (s = None) as -> by (by inversion Hpath).
    left. exists profileAddr, e, w2, lc.
    by rewrite app_nil_r, <- run_prelude_app.
  - assert (∃ srv, s = Some srv) as [srv ->] by (inversion Hpath; by eexists).
    bind_call Hex parent w4.
    bind_call Hex cc w5. destruct cc as [ctx cancelFunc].
    rewrite exec_defer in Hex. unfold cancelOnInterrupt in Hex.
    rewrite exec_mbind in Hex.
    bind_call Hex c w6. bind_call Hex u w7. destruct u.
    simpl in Hex.
    destruct (h _ (Server_Run srv ctx) w7) as [r w8].
    assert (Hr : ∃ res, res = run_result r ∧
      exec h (match r with
              | Some e => if decide (e ≠ context_Canceled)
                          then Ret (Some (fmt_Errorf "server error: " (Some e)))
                          else Ret None
              | None => Ret None
              end) w8 = (Returned res, w8, [])).
    { eexists; split; [done|]. destruct r as [e|]; simpl; [|done]. by destruct (decide _). }
    destruct Hr as (res & Hres & Hr). rewrite Hr in Hex. clear Hr. simpl in Hex.
    destruct (h _ (call_CancelFunc cancelFunc) w8) as [[] w9].
    inversion Hex; subst.
    right. exists profileAddr, srv, w2, w3, lc, parent, ctx, cancelFunc, c, r.
    by rewrite <- run_prelude_app.
Qed.

(** ** What the paths record *)

Lemma backend_calls_InitBackend v pool names rs :
  omap InitBackend_of (backend_calls v pool names rs) = zip names rs.
Proof.
  unfold backend_calls. revert rs.
  induction names as [|n names IH]; intros [|r rs]; simpl; try done. by rewrite IH.
Qed.

Lemma backend_calls_omap {T : Type} (f : Event → option T) v pool names rs :
  (∀ n r, f (EvCall (backends_InitBackend n v pool) r) = None) →
  omap f (backend_calls v pool names rs) = [].
Proof.
  intros Hf. unfold backend_calls. revert rs.
  induction names as [|n names IH]; intros [|r rs]; simpl; try done. by rewrite Hf, IH.
Qed.

Lemma backend_calls_ok v pool names (bs : list (option gostatsd_Backend)) :
  Forall (λ ev, ¬ startup_failure ev) (backend_calls v pool names ((., None) <$> bs)).
Proof.
  unfold backend_calls. revert bs.
  induction names as [|n names IH]; intros [|b bs]; simpl; try by constructor.
  constructor; [| apply IH]. simpl. by intros [? ?].
Qed.

Lemma cloud_calls_ok v logger pool cloud :
  Forall (λ ev, ¬ startup_failure ev) (cloud_calls v logger pool cloud).
Proof.
  unfold cloud_calls.
  destruct cloud; simpl; repeat constructor; simpl; try (by intros [? ?]); tauto.
Qed.

Lemma getPercentiles_error_Exists (l : list string) e :
  (getPercentiles l).2 = Some e → Exists (λ x, is_Some (strconv_ParseFloat x).2) l.
Proof.
  intros He. destruct (first_failure l) as [Hall | (pre & x & post & e' & -> & _ & Hx)].
  - rewrite (getPercentiles_ok l Hall) in He. done.
  - by eapply not_parses_Exists.
Qed.

Lemma getPercentiles_ok_Forall (l : list string) pt :
  getPercentiles l = (pt, None) → ¬ Exists (λ x, is_Some (strconv_ParseFloat x).2) l.
Proof.
  intros Hpt. destruct (first_failure l) as [Hall | (pre & x & post & e' & -> & Hpre & Hx)].
  - by apply parses_not_Exists.
  - rewrite (getPercentiles_fail pre post x e' Hpre Hx) in Hpt. done.
Qed.

(** A path that ends in an error has a failed start-up step. *)
Lemma error_path_failure v s e l :
  constructServer_path v (s, Some e) l → Exists startup_failure l.
Proof.
  inversion 1; subst.
  - do 2 apply Exists_cons_tl. apply Exists_cons_hd. simpl. by eexists.
  - do 3 apply Exists_cons_tl. apply Exists_cons_hd. simpl. by eexists.
  - rewrite !Exists_app. do 3 right. apply Exists_cons_hd. simpl. by eexists.
  - rewrite !Exists_app. do 3 right. apply Exists_cons_hd. simpl.
    split; [done|]. by eapply getPercentiles_error_Exists.
Qed.

(** A path that ends in a server has no failed start-up step. *)
Lemma server_path_no_failure v s l :
  percent_key_distinct →
  constructServer_path v (Some s, None) l → Forall (λ ev, ¬ startup_failure ev) l.
Proof.
  intros Hkeys. inversion 1; subst.
  unfold percent_key_distinct in Hkeys.
  rewrite !Forall_app. split_and!.
  - apply cloud_calls_ok.
  - repeat constructor. simpl. intros [Heq _]. apply Hkeys. rewrite <- Heq. set_solver.
  - apply backend_calls_ok.
  - repeat constructor. simpl. intros [_ Hex]. by eapply getPercentiles_ok_Forall.
  - unfold field_reads. repeat constructor; simpl; try tauto.
    + intros [Heq _]. apply Hkeys. rewrite <- Heq. set_solver.
    + intros [Heq _]. apply Hkeys. rewrite <- Heq. set_solver.
Qed.

(** [constructServer] does not run the server. *)
Lemma constructServer_path_no_Run v r l :
  constructServer_path v r l → omap Server_Run_of l = [].
Proof.
  intros Hp.
  destruct Hp as [logger pool cloud e | logger pool c e
                 | logger pool cloud pre n post bs b e Hlen
                 | logger pool cloud names bs percentThreshold e Hlen He
                 | logger pool cloud names percentThreshold s badLinesPerMinute Hlen];
    try done; rewrite !omap_app;
    rewrite (backend_calls_omap Server_Run_of) by done;
    unfold cloud_calls; by destruct cloud.
Qed.

Lemma run_prelude_no_Run v profileAddr : omap Server_Run_of (run_prelude v profileAddr) = [].
Proof. unfold run_prelude. simpl. by destruct (decide _). Qed.

Lemma run_prelude_ok v profileAddr :
  Forall (λ ev, ¬ startup_failure ev) (run_prelude v profileAddr).
Proof.
  unfold run_prelude. simpl. destruct (decide _); repeat constructor; simpl; tauto.
Qed.

(** C1: a failed start-up step aborts before the pipeline starts.  In every
    execution in which the creation of the cloud handler factory, the
    initialisation of its provider or of a backend fails, or a configured
    percentile threshold does not parse, [constructServer] returns a non-nil
    error, and [run] returns that very error without a call to
    [Server.Run]. *)
Theorem startup_failure_aborts v :
  percent_key_distinct →
  (∀ w o w' log,
     exec h (constructServer v) w = (o, w', log) → Exists startup_failure log →
     ∃ e, o = Returned (None, Some e)) ∧
  (∀ w o w' log,
     exec h (run v) w = (o, w', log) → Exists startup_failure log →
     ∃ e, o = Returned (Some e) ∧
          (∃ w1 l0 l1, log = l0 ++ l1 ∧
             exec h (constructServer v) w1 = (Returned (None, Some e), w', l1)) ∧
          omap Server_Run_of log = []).
Proof.
  intros Hkeys. split.
  - intros w o w' log Hex Hfail.
    apply constructServer_paths in Hex as ([s [e|]] & -> & Hpath).
    + exists e. by inversion Hpath.
    + exfalso. assert (∃ srv, s = Some srv) as [srv ->] by (inversion Hpath; by eexists).
      apply (server_path_no_failure _ _ _ Hkeys) in Hpath.
      by apply Forall_Exists_neg in Hpath.
  - intros w o w' log Hex Hfail.
    apply run_exec in Hex
      as [(profileAddr & e & w1 & lc & Hc & Hpath & -> & ->)
         |(profileAddr & s & w1 & w2 & lc & parent & ctx & cancelFunc & c & r
           & Hc & Hpath & -> & ->)].
    + exists e. split_and!; [done | by exists w1, (run_prelude v profileAddr), lc |].
      rewrite omap_app, run_prelude_no_Run.
      by rewrite (constructServer_path_no_Run _ _ _ Hpath).
    + exfalso. apply (server_path_no_failure _ _ _ Hkeys) in Hpath.
      rewrite !Exists_app in Hfail. destruct Hfail as [Hf | [Hf | Hf]].
      * by apply (proj1 (Forall_Exists_neg _ _) (run_prelude_ok v profileAddr)).
      * by apply (proj1 (Forall_Exists_neg _ _) Hpath).
      * unfold run_server_calls in Hf.
        repeat (apply Exists_cons in Hf as [Hf | Hf]; [done |]).
        by apply Exists_nil in Hf.
Qed.

Lemma cloud_calls_InitBackend v logger pool cloud :
  omap InitBackend_of (cloud_calls v logger pool cloud) = [].
Proof. unfold cloud_calls. by destruct cloud. Qed.

Lemma cloud_calls_GetStringSlice v logger pool cloud :
  omap GetStringSlice_of (cloud_calls v logger pool cloud) = [].
Proof. unfold cloud_calls. by destruct cloud. Qed.

Lemma cloud_calls_GetFloat64 v logger pool cloud :
  omap GetFloat64_of (cloud_calls v logger pool cloud) = [].
Proof. unfold cloud_calls. by destruct cloud. Qed.

Lemma cloud_calls_NewCloudHandlerFactory v logger pool cloud :
  omap NewCloudHandlerFactory_of (cloud_calls v logger pool cloud) = [(cloud, None)].
Proof. unfold cloud_calls. by destruct cloud. Qed.

Lemma Exists_zip_ok (names : list string) (bs : list (option gostatsd_Backend)) :
  ¬ Exists (λ c : string * (option gostatsd_Backend * option error), is_Some c.2.2)
      (zip names ((., None) <$> bs)).
Proof.
  revert bs. induction names as [|n names IH]; intros [|b bs]; simpl;
    try (by intros ?%Exists_nil).
  intros [[? ?]|?]%Exists_cons; [done | by eapply IH].
Qed.

Lemma zip_lookup_ok (names : list string) (bs : list (option gostatsd_Backend)) i name :
  length bs = length names → names !! i = Some name →
  ∃ b, bs !! i = Some b ∧
       zip names ((., None (A := error)) <$> bs) !! i = Some (name, (b, None)).
Proof.
  intros Hlen Hname.
  destruct (lookup_lt_is_Some_2 bs i) as [b Hb].
  { rewrite Hlen. by eapply lookup_lt_Some. }
  exists b. split; [done|].
  by rewrite lookup_zip_with, Hname, list_lookup_fmap, Hb.
Qed.

(** C4, amended: [constructServer] returns either an error or a server.
    When the initialisation of a backend fails, the calls to
    [backends.InitBackend] stop at the first failing name and
    [constructServer] returns its error (it can also return an error of the
    cloud handler or of the percentile thresholds, with no backend failing).
    When it returns a server, [Backends] is as long as the configured list
    of names and the [i]-th call initialised the [i]-th name and returned
    the [i]-th backend. *)
Theorem constructServer_backends v w o w' log :
  exec h (constructServer v) w = (o, w', log) →
  ((∃ e, o = Returned (None, Some e)) ∨ (∃ s, o = Returned (Some s, None))) ∧
  (Exists (λ c, is_Some c.2.2) (omap InitBackend_of log) →
     ∃ pre n post bs b e,
       (v, ParamBackends, pre ++ n :: post) ∈ omap GetStringSlice_of log ∧
       length bs = length pre ∧
       omap InitBackend_of log = zip pre ((., None) <$> bs) ++ [(n, (b, Some e))] ∧
       o = Returned (None, Some e)) ∧
  (∀ s, o = Returned (Some s, None) →
     ∃ names,
       (v, ParamBackends, names) ∈ omap GetStringSlice_of log ∧
       length (Backends s) = length names ∧
       omap InitBackend_of log = zip names ((., None) <$> Backends s) ∧
       ∀ i name, names !! i = Some name →
         ∃ b, Backends s !! i = Some b ∧
              omap InitBackend_of log !! i = Some (name, (b, None))).
Proof.
  intros Hex. apply constructServer_paths in Hex as (r & -> & Hpath).
  destruct Hpath as [logger pool cloud e | logger pool c e
                    | logger pool cloud pre n post bs b e Hlen
                    | logger pool cloud names bs percentThreshold e Hlen He
                    | logger pool cloud names percentThreshold s badLinesPerMinute Hlen].
  - split_and!; [left; by eexists | by intros ?%Exists_nil | done].
  - split_and!; [left; by eexists | by intros ?%Exists_nil | done].
  - assert (Hcalls : omap InitBackend_of
              (cloud_calls v logger pool cloud
               ++ [EvCall (GetStringSlice v ParamBackends) (pre ++ n :: post)]
               ++ backend_calls v pool pre ((., None) <$> bs)
               ++ [EvCall (backends_InitBackend n v pool) (b, Some e)])
            = zip pre ((., None) <$> bs) ++ [(n, (b, Some e))]).
    { by rewrite !omap_app, cloud_calls_InitBackend, backend_calls_InitBackend. }
    split_and!; [left; by eexists | | done].
    intros _. exists pre, n, post, bs, b, e. split_and!; [| done | done | done].
    rewrite !omap_app, cloud_calls_GetStringSlice. simpl. set_solver.
  - assert (Hcalls : omap InitBackend_of
              (cloud_calls v logger pool cloud
               ++ [EvCall (GetStringSlice v ParamBackends) names]
               ++ backend_calls v pool names ((., None) <$> bs)
               ++ [EvCall (GetStringSlice v ParamPercentThreshold) percentThreshold])
            = zip names ((., None) <$> bs)).
    { rewrite !omap_app, cloud_calls_InitBackend, backend_calls_InitBackend. simpl.
      by rewrite app_nil_r. }
    rewrite Hcalls. split_and!; [left; by eexists | | done].
    by intros ?%Exists_zip_ok.
  - assert (Hcalls : omap InitBackend_of
              (cloud_calls v logger pool cloud
               ++ [EvCall (GetStringSlice v ParamBackends) names]
               ++ backend_calls v pool names ((., None) <$> Backends s)
               ++ [EvCall (GetStringSlice v ParamPercentThreshold) percentThreshold]
               ++ field_reads v s badLinesPerMinute)
            = zip names ((., None) <$> Backends s)).
    { rewrite !omap_app, cloud_calls_InitBackend, backend_calls_InitBackend. simpl.
      by rewrite app_nil_r. }
    rewrite Hcalls. split_and!; [right; by eexists | by intros ?%Exists_zip_ok |].
    intros s' [= <-]. exists names. split_and!; [| done | done |].
    + rewrite !omap_app, cloud_calls_GetStringSlice. simpl. set_solver.
    + intros i name Hname. by apply zip_lookup_ok.
Qed.

(** C6: the server is constructed with its rate limit for bad-line
    diagnostics equal to the configured bad lines per minute divided by 60,
    in [float64]. *)
Theorem constructServer_BadLineRateLimit v w s w' log :
  exec h (constructServer v) w = (Returned (Some s, None), w', log) →
  ∃ m, omap GetFloat64_of log = [(v, ParamBadLinesPerMinute, m)] ∧
       BadLineRateLimitPerSecond s = PrimFloat.div m 60%float.
Proof.
  intros Hex. apply constructServer_paths in Hex as (r & [= <-] & Hpath).
  inversion Hpath as [| | | |logger pool cloud names percentThreshold s' m Hlen]; subst.
  exists m. split; [| done].
  rewrite !omap_app, cloud_calls_GetFloat64.
  by rewrite (backend_calls_omap GetFloat64_of).
Qed.

(** C8: when [statsd.NewCloudHandlerFactoryFromViper] returns nil and no
    error, [constructServer] does not call [InitCloudProvider], it returns
    (it does not panic), an error it returns is the error of a backend or of
    the percentile thresholds, it returns a server when no start-up step
    fails, and the server carries the nil factory. *)
Theorem constructServer_nil_cloud v w o w' log :
  exec h (constructServer v) w = (o, w', log) →
  omap NewCloudHandlerFactory_of log = [(None, None)] →
  Forall (λ ev, ¬ is_InitCloudProvider ev) log ∧
  (∃ r, o = Returned r) ∧
  (∀ s e, o = Returned (s, Some e) →
     (∃ n b, (n, (b, Some e)) ∈ omap InitBackend_of log) ∨
     (∃ l, (v, ParamPercentThreshold, l) ∈ omap GetStringSlice_of log ∧
           (getPercentiles l).2 = Some e)) ∧
  (¬ Exists startup_failure log → ∃ s, o = Returned (Some s, None)) ∧
  (∀ s, o = Returned (Some s, None) → CloudHandlerFactory s = None).
Proof.
  intros Hex Hnil. apply constructServer_paths in Hex as (r & -> & Hpath).
  assert (Hback : ∀ names (bs : list (option gostatsd_Backend)) pool,
            Forall (λ ev, ¬ is_InitCloudProvider ev)
              (backend_calls v pool names ((., None) <$> bs))).
  { intros names bs pool. unfold backend_calls. revert bs.
    induction names as [|n names IH]; intros [|b bs]; simpl; try by constructor.
    constructor; [tauto | apply IH]. }
  destruct Hpath as [logger pool cloud e | logger pool c e
                    | logger pool cloud pre n post bs b e Hlen
                    | logger pool cloud names bs percentThreshold e Hlen He
                    | logger pool cloud names percentThreshold s badLinesPerMinute Hlen Hcloud].
  - done.
  - done.
  - rewrite !omap_app, cloud_calls_NewCloudHandlerFactory in Hnil.
    rewrite (backend_calls_omap NewCloudHandlerFactory_of) in Hnil by done.
    injection Hnil as ->.
    split_and!.
    + rewrite !Forall_app. split_and!; [repeat constructor; tauto.. | apply Hback |].
      repeat constructor; tauto.
    + by eexists.
    + intros s e' [= <- <-]. left. exists n, b.
      rewrite !omap_app, backend_calls_InitBackend. simpl. set_solver.
    + intros Hno. exfalso. apply Hno. eapply error_path_failure. by constructor.
    + done.
  - rewrite !omap_app, cloud_calls_NewCloudHandlerFactory in Hnil.
    rewrite (backend_calls_omap NewCloudHandlerFactory_of) in Hnil by done.
    injection Hnil as ->.
    split_and!.
    + rewrite !Forall_app. split_and!; [repeat constructor; tauto.. | apply Hback |].
      repeat constructor; tauto.
    + by eexists.
    + intros s e' [= <- <-]. right. exists percentThreshold. split; [| done].
      rewrite !omap_app, (backend_calls_omap GetStringSlice_of) by done.
      simpl. set_solver.
    + intros Hno. exfalso. apply Hno. eapply error_path_failure. by constructor.
    + done.
  - rewrite !omap_app, cloud_calls_NewCloudHandlerFactory in Hnil.
    rewrite (backend_calls_omap NewCloudHandlerFactory_of) in Hnil by done.
    injection Hnil as ->.
    split_and!.
    + rewrite !Forall_app. split_and!; [repeat constructor; tauto.. | apply Hback | |].
      * repeat constructor; tauto.
      * unfold field_reads. repeat constructor; tauto.
    + by eexists.
    + done.
    + intros _. by eexists.
    + by intros s' [= <-].
Qed.

(** C5: [run] treats a shutdown by cancellation as success.  Every
    execution of [run] constructs the server; [run] returns without a call
    to [Server.Run] only when [constructServer] has failed, and then with
    the error of [constructServer]; a server that [constructServer] has
    returned is run exactly once.  [run] returns nil when [Server.Run]
    returns nil or [context.Canceled] and a non-nil error wrapping any other
    error of [Server.Run].  The context passed to [Server.Run] is the one
    [context.WithCancel] returned with [cancelFunc]; before the server runs,
    a channel is registered for [os.Interrupt] and [SIGTERM] and a goroutine
    is started that calls [cancelFunc] when it receives a signal from that
    channel. *)
Theorem run_shutdown v :
  (∀ w o w' log,
     exec h (run v) w = (o, w', log) →
     ∃ w1 w2 pre lc post,
       log = pre ++ lc ++ post ∧
       ((∃ e, exec h (constructServer v) w1 = (Returned (None, Some e), w2, lc) ∧
              o = Returned (Some e) ∧ post = [] ∧ omap Server_Run_of log = []) ∨
        (∃ s ctx r,
            exec h (constructServer v) w1 = (Returned (Some s, None), w2, lc) ∧
            omap Server_Run_of log = [(s, ctx, r)] ∧
            o = Returned (match r with
                          | Some e =>
                              if decide (e = context_Canceled) then None
                              else Some (errorString ("server error: " +:+ Error e))
                          | None => None
                          end)))) ∧
  (∀ w o w' log s ctx r,
     exec h (run v) w = (o, w', log) →
     (s, ctx, r) ∈ omap Server_Run_of log →
     (r = None ∨ r = Some context_Canceled → o = Returned None) ∧
     (∀ e, r = Some e → e ≠ context_Canceled →
           o = Returned (Some (errorString ("server error: " +:+ Error e)))) ∧
     ∃ pre parent cancelFunc c,
       log = pre ++ [EvCall context_Background parent;
                     EvCall (context_WithCancel parent) (ctx, cancelFunc);
                     EvCall (make_chan_Signal 1) c;
                     EvCall (signal_Notify c [os_Interrupt; syscall_SIGTERM]) tt;
                     EvGo (cancelOnInterrupt_go ctx cancelFunc c);
                     EvCall (Server_Run s ctx) r;
                     EvCall (call_CancelFunc cancelFunc) tt]) ∧
  (∀ ctx cancelFunc c w,
     exec h (cancelOnInterrupt_go ctx cancelFunc c) w =
       let '(r, w1) := h _ (select_Done_or_recv ctx c) w in
       match r with
       | DoneClosed => (Returned (), w1, [EvCall (select_Done_or_recv ctx c) DoneClosed])
       | Received sig =>
           let '(u, w2) := h _ (call_CancelFunc cancelFunc) w1 in
           (Returned (), w2, [EvCall (select_Done_or_recv ctx c) (Received sig);
                              EvCall (call_CancelFunc cancelFunc) ()])
       end).
Proof.
  split_and!.
  - intros w o w' log Hex.
    apply run_exec in Hex
      as [(profileAddr & e & w1 & lc & Hc & Hpath & -> & ->)
         |(profileAddr & s0 & w1 & w2 & lc & parent & ctx0 & cancelFunc & c & r0
           & Hc & Hpath & -> & ->)].
    + exists w1, w', (run_prelude v profileAddr), lc, []. split; [by rewrite app_nil_r|].
      left. exists e. split_and!; [done | done | done |].
      by rewrite omap_app, run_prelude_no_Run, (constructServer_path_no_Run _ _ _ Hpath).
    + exists w1, w2, (run_prelude v profileAddr), lc,
        (run_server_calls s0 parent ctx0 cancelFunc c r0). split; [done|].
      right. exists s0, ctx0, r0. split_and!; [done | |].
      * by rewrite !omap_app, run_prelude_no_Run, (constructServer_path_no_Run _ _ _ Hpath).
      * unfold run_result. destruct r0 as [e|]; [|done].
        by destruct (decide (e ≠ context_Canceled)), (decide (e = context_Canceled)).
  - intros w o w' log s ctx r Hex Hin.
    apply run_exec in Hex
      as [(profileAddr & e & w1 & lc & Hc & Hpath & -> & ->)
         |(profileAddr & s0 & w1 & w2 & lc & parent & ctx0 & cancelFunc & c & r0
           & Hc & Hpath & -> & ->)].
    + rewrite omap_app, run_prelude_no_Run in Hin.
      rewrite (constructServer_path_no_Run _ _ _ Hpath) in Hin. by apply elem_of_nil in Hin.
    + rewrite !omap_app, run_prelude_no_Run in Hin.
      rewrite (constructServer_path_no_Run _ _ _ Hpath) in Hin. simpl in Hin.
      apply list_elem_of_singleton in Hin as [= <- <- <-].
      split_and!.
      * by intros [-> | ->].
      * intros e -> Hne. unfold run_result. by destruct (decide _).
      * exists (run_prelude v profileAddr ++ lc), parent, cancelFunc, c.
        by rewrite <- app_assoc.
  - intros ctx cancelFunc c w. unfold cancelOnInterrupt_go. simpl.
    destruct (h _ (select_Done_or_recv ctx c) w) as [[|sig] w1]; simpl; [done|].
    by destruct (h _ (call_CancelFunc cancelFunc) w1) as [[] w2].
Qed.

(** ** [setupConfiguration] *)

Lemma setupLogger_exec v w :
  ∃ verbose json w',
    exec h (setupLogger v) w = (Returned (), w', setupLogger_calls v verbose json).
Proof.
  unfold setupLogger, setupLogger_calls. simpl.
  destruct (h _ (GetBool v ParamVerbose) w) as [verbose w1].
  exists verbose. destruct verbose; simpl.
  - destruct (h _ logrus_SetLevel_Debug w1) as [[] w2].
    destruct (h _ (GetBool v ParamJSON) w2) as [json w3].
    exists json. destruct json; simpl.
    + destruct (h _ logrus_SetFormatter_JSON w3) as [[] w4]. by eexists.
    + by eexists.
  - destruct (h _ (GetBool v ParamJSON) w1) as [json w3].
    exists json. destruct json; simpl.
    + destruct (h _ logrus_SetFormatter_JSON w3) as [[] w4]. by eexists.
    + by eexists.
Qed.

Lemma setupConfiguration_VisitAll_exec v (flags : list pflag_Flag) :
  ∀ w o w' l,
  exec h (setupConfiguration_VisitAll v flags) w = (o, w', l) →
  (o = Returned () ∧ l = bind_calls v flags) ∨
  (∃ pre flag post e, flags = pre ++ flag :: post ∧
     l = bind_calls v pre ++ [EvCall (BindPFlag v (flag_Name flag) flag) (Some e)] ∧
     o = Panicked (PanicError e)).
Proof.
  induction flags as [|flag flags IH]; intros w o w' l Hex; simpl in Hex.
  - left. by inversion Hex.
  - destruct (h _ (BindPFlag v (flag_Name flag) flag) w) as [[e|] w1]; simpl in Hex.
    + right. exists [], flag, flags, e. by inversion Hex.
    + destruct (exec h (setupConfiguration_VisitAll v flags) w1) as [[o1 w2] l1] eqn:Hrest.
      inversion Hex; subst.
      apply IH in Hrest as [[-> ->] | (pre & f & post & e & -> & -> & ->)].
      * by left.
      * right. by exists (flag :: pre), f, post, e.
Qed.

(** Every execution of the body of [setupConfiguration] follows a path. *)
Lemma setupConfiguration_body_paths v w o w' log :
  exec h (setupConfiguration_body v) w = (o, w', log) →
  setupConfiguration_path v o log.
Proof.
  unfold setupConfiguration_body. intros Hex.
  bind_call Hex u w1. destruct u.
  bind_call Hex version w2.
  bind_call Hex args w3.
  destruct args as [|arg0 args].
  { simpl in Hex. inversion Hex; subst. constructor. }
  bind_call Hex cmd w4.
  bind_call Hex u w5. destruct u.
  bind_call Hex u w6. destruct u.
  bind_call Hex u w7. destruct u.
  bind_call Hex u w8. destruct u.
  bind_call Hex u w9. destruct u.
  bind_call Hex u w10. destruct u.
  bind_call Hex flags w11.
  rewrite exec_mbind in Hex.
  destruct (exec h (setupConfiguration_VisitAll v flags) w11) as [[o1 w12] l1] eqn:Hvisit.
  apply setupConfiguration_VisitAll_exec in Hvisit
    as [[-> ->] | (pre & flag & post & e & -> & -> & ->)].
  2:{ simpl in Hex. inversion Hex; subst.
      apply (path_bind_panic v version arg0 args cmd pre flag post e). }
  cbv beta iota zeta in Hex.
  bind_call Hex args' w13.
  destruct args' as [|arg0' arguments].
  { simpl in Hex. inversion Hex; subst.
    apply (path_no_arguments v version arg0 args cmd flags). }
  bind_call Hex err w14.
  destruct err as [e|].
  { simpl in Hex. inversion Hex; subst.
    apply (path_parse_error v version arg0 args cmd flags arg0' arguments e). }
  bind_call Hex configPath w15.
  rewrite exec_mbind in Hex.
  destruct (decide (configPath ≠ "")) as [Hne|Heq].
  - bind_call Hex u w16. destruct u.
    rewrite exec_call in Hex.
    destruct (h _ (ReadInConfig v) w16) as [[e|] w17]; simpl in Hex.
    + inversion Hex; subst.
      by apply (path_config_error v version arg0 args cmd flags arg0' arguments configPath e).
    + destruct (h _ (load_bool version) w17) as [ver w18].
      inversion Hex; subst.
      by apply (path_config_file v version arg0 args cmd flags arg0' arguments configPath ver).
  - apply dec_stable in Heq. subst configPath. simpl in Hex.
    destruct (h _ (load_bool version) w15) as [ver w18].
    inversion Hex; subst.
    apply (path_no_config_file v version arg0 args cmd flags arg0' arguments ver).
Qed.

(** Every execution of [setupConfiguration] follows a path through its
    body and then applies the logging configuration. *)
Lemma setupConfiguration_exec w o w' log :
  exec h setupConfiguration w = (o, w', log) →
  ∃ v lb verbose json,
    setupConfiguration_path v o lb ∧
    log = EvCall viper_New v :: lb ++ setupLogger_calls v verbose json.
Proof.
  unfold setupConfiguration. intros Hex.
  bind_call Hex v w1. rewrite exec_defer in Hex.
  destruct (exec h (setupConfiguration_body v) w1) as [[ob w2] lb] eqn:Hb.
  apply setupConfiguration_body_paths in Hb.
  destruct (setupLogger_exec v w2) as (verbose & json & w3 & Hl).
  exists v, lb, verbose, json.
  destruct ob as [a|pv|]; [| |by inversion Hb];
    rewrite exec_bind, Hl in Hex; simpl in Hex; inversion Hex; subst;
    by rewrite app_nil_r.
Qed.

Lemma bind_calls_omap {T : Type} (f : Event → option T) v flags :
  (∀ flag, f (EvCall (BindPFlag v (flag_Name flag) flag) None) = None) →
  omap f (bind_calls v flags) = [].
Proof.
  intros Hf. unfold bind_calls. induction flags as [|flag flags IH]; csimpl; [done|].
  by rewrite Hf, IH.
Qed.

Lemma bind_calls_BindPFlag v flags :
  ¬ Exists is_Some (omap BindPFlag_of (bind_calls v flags)).
Proof.
  unfold bind_calls. induction flags as [|flag flags IH]; csimpl.
  - by intros ?%Exists_nil.
  - intros [[? ?]|?]%Exists_cons; [done | by apply IH].
Qed.

Lemma setupLogger_calls_omap {T : Type} (f : Event → option T) v verbose json :
  (∀ b, f (EvCall (GetBool v ParamVerbose) b) = None) →
  (∀ b, f (EvCall (GetBool v ParamJSON) b) = None) →
  f (EvCall logrus_SetLevel_Debug ()) = None →
  f (EvCall logrus_SetFormatter_JSON ()) = None →
  omap f (setupLogger_calls v verbose json) = [].
Proof.
  intros H1 H2 H3 H4. unfold setupLogger_calls.
  destruct verbose, json; simpl; by rewrite ?H1, ?H2, ?H3, ?H4.
Qed.

Arguments setupLogger_calls : simpl never.
Arguments bind_calls : simpl never.

Ltac path_omap :=
  unfold parse_calls; cbn;
  rewrite ?omap_app;
  repeat first [ rewrite (bind_calls_omap Parse_of) by done
               | rewrite (bind_calls_omap ReadInConfig_of) by done
               | rewrite (bind_calls_omap os_Args_of) by done
               | rewrite (bind_calls_omap GetString_of) by done
               | rewrite (bind_calls_omap SetConfigFile_of) by done
               | rewrite (bind_calls_omap Fatal_of) by done
               | rewrite (setupLogger_calls_omap Parse_of) by done
               | rewrite (setupLogger_calls_omap ReadInConfig_of) by done
               | rewrite (setupLogger_calls_omap os_Args_of) by done
               | rewrite (setupLogger_calls_omap BindPFlag_of) by done
               | rewrite (setupLogger_calls_omap GetString_of) by done
               | rewrite (setupLogger_calls_omap SetConfigFile_of) by done
               | rewrite (setupLogger_calls_omap Fatal_of) by done ];
  cbn; rewrite ?app_nil_r.

(** [setupConfiguration] does not log fatally. *)
Lemma setupConfiguration_path_no_Fatal v o lb verbose json :
  setupConfiguration_path v o lb →
  omap Fatal_of (EvCall viper_New v :: lb ++ setupLogger_calls v verbose json) = [].
Proof. intros Hp. destruct Hp; by path_omap. Qed.

(** How [main] goes on from [setupConfiguration]. *)
Lemma main_exec w o w' log :
  exec h main w = (o, w', log) →
  ∃ w1 w2 oc lc pre rest,
    exec h setupConfiguration w1 = (oc, w2, lc) ∧
    log = pre ++ lc ++ rest ∧
    omap Fatal_of (pre ++ lc) = [] ∧
    ∀ v ver e, oc = Returned (v, ver, Some e) →
      (e = pflag_ErrHelp → o = Returned () ∧ rest = []) ∧
      (e ≠ pflag_ErrHelp →
         o = Exited ∧ rest = [EvFatal ("Error while parsing configuration: " +:+ Error e)]).
Proof.
  unfold main. intros Hex.
  bind_call Hex seed w1. bind_call Hex u w2. destruct u.
  rewrite exec_mbind in Hex.
  destruct (exec h setupConfiguration w2) as [[oc w3] lc] eqn:Hc.
  destruct (setupConfiguration_exec _ _ _ _ Hc) as (v0 & lb & verbose & json & Hp & ->).
  pose proof (setupConfiguration_path_no_Fatal v0 oc lb verbose json Hp) as Hnf.
  exists w2, w3, oc, (EvCall viper_New v0 :: lb ++ setupLogger_calls v0 verbose json),
    [EvCall time_Now_UnixNano seed; EvCall (rand_Seed seed) ()].
  destruct oc as [[[v ver] err]|pv|].
  - match type of Hex with context [exec h ?p w3] =>
      destruct (exec h p w3) as [[o2 w4] l2] eqn:Hf end.
    exists l2. inversion Hex; subst. split_and!; [done | done | done |].
    intros v' ver' e [= -> -> ->]. simpl in Hf.
    destruct (decide (e = pflag_ErrHelp)) as [->|Hne]; simpl in Hf; inversion Hf; subst.
    + done.
    + split; [done|]. by intros _.
  - exists []. inversion Hex; subst. by rewrite !app_nil_r.
  - exists []. inversion Hex; subst. by rewrite !app_nil_r.
Qed.

(** The calls of [setupConfiguration] before it parses the command line. *)
Lemma parse_calls_split v version arg0 args cmd flags arg0' arguments r rest logger :
  ∃ pre,
    EvCall viper_New v
      :: parse_calls v version arg0 args cmd flags arg0' arguments r rest ++ logger
      = pre ++ EvCall (FlagSet_Parse cmd arguments) r :: (rest ++ logger) ∧
    last (omap os_Args_of pre) = Some (arg0' :: arguments) ∧
    omap Parse_of pre = [] ∧ omap GetString_of pre = [] ∧
    omap SetConfigFile_of pre = [] ∧ omap ReadInConfig_of pre = [].
Proof.
  exists (EvCall viper_New v :: flag_calls v version arg0 args cmd
          ++ [EvCall (FlagSet_flags cmd) flags] ++ bind_calls v flags
          ++ [EvCall os_Args (arg0' :: arguments)]).
  split_and!.
  - unfold parse_calls. cbn. by rewrite <- !app_assoc.
  - cbn. rewrite !omap_app. by rewrite (bind_calls_omap os_Args_of).
  - cbn. rewrite !omap_app. by rewrite (bind_calls_omap Parse_of).
  - cbn. rewrite !omap_app. by rewrite (bind_calls_omap GetString_of).
  - cbn. rewrite !omap_app. by rewrite (bind_calls_omap SetConfigFile_of).
  - cbn. rewrite !omap_app. by rewrite (bind_calls_omap ReadInConfig_of).
Qed.

(** C9: [setupConfiguration] reads a configuration file only when the
    [config-path] parameter is not empty (and then does read it); it returns,
    unless [os.Args] is empty or binding a flag fails, which make it panic;
    the error it returns is non-nil exactly when parsing the command line
    failed or the configuration file that was set could not be read.  Every
    execution that returns has parsed the command line, [os.Args[1:]],
    exactly once and read nothing of the configuration before; when parsing
    failed it returns the error of [cmd.Parse] and reads no [config-path];
    when parsing succeeded it reads [config-path] once and, for a path that
    is not empty, sets that file and returns what [ReadInConfig] returned.
    On an error of [setupConfiguration], [main] returns without a fatal log
    exactly when the error is [pflag.ErrHelp], and exits on a fatal log of
    any other error. *)
Theorem setupConfiguration_errors :
  (∀ w o w' log,
     exec h setupConfiguration w = (o, w', log) →
     (omap ReadInConfig_of log ≠ [] ↔
        ∃ path, (ParamConfigPath, path) ∈ omap GetString_of log ∧ path ≠ "") ∧
     (∀ path, path ∈ omap SetConfigFile_of log ↔
        (ParamConfigPath, path) ∈ omap GetString_of log ∧ path ≠ "") ∧
     ((∃ r, o = Returned r) ∨
      (∃ p, o = Panicked p ∧
            ([] ∈ omap os_Args_of log ∨ Exists is_Some (omap BindPFlag_of log)))) ∧
     (∀ v ver err, o = Returned (v, ver, err) →
        (is_Some err ↔
           Exists is_Some (omap Parse_of log) ∨
           Exists is_Some (omap ReadInConfig_of log)))) ∧
  (∀ w v ver err w' log,
     exec h setupConfiguration w = (Returned (v, ver, err), w', log) →
     ∃ arg0 arguments cmd r pre post,
       log = pre ++ EvCall (FlagSet_Parse cmd arguments) r :: post ∧
       last (omap os_Args_of pre) = Some (arg0 :: arguments) ∧
       omap Parse_of pre = [] ∧ omap Parse_of post = [] ∧
       omap GetString_of pre = [] ∧ omap SetConfigFile_of pre = [] ∧
       omap ReadInConfig_of pre = [] ∧
       match r with
       | Some e =>
           err = Some e ∧ omap GetString_of post = [] ∧
           omap SetConfigFile_of post = [] ∧ omap ReadInConfig_of post = []
       | None =>
           ∃ configPath,
             omap GetString_of post = [(ParamConfigPath, configPath)] ∧
             if decide (configPath = "")
             then err = None ∧ omap SetConfigFile_of post = [] ∧
                  omap ReadInConfig_of post = []
             else omap SetConfigFile_of post = [configPath] ∧
                  omap ReadInConfig_of post = [err]
       end) ∧
  (∀ w o w' log,
     exec h main w = (o, w', log) →
     ∃ w1 w2 oc lc pre rest,
       exec h setupConfiguration w1 = (oc, w2, lc) ∧
       log = pre ++ lc ++ rest ∧
       ∀ v ver e, oc = Returned (v, ver, Some e) →
         (omap Fatal_of log = [] ↔ e = pflag_ErrHelp) ∧
         (e = pflag_ErrHelp → o = Returned ()) ∧
         (e ≠ pflag_ErrHelp →
            o = Exited ∧
            omap Fatal_of log = ["Error while parsing configuration: " +:+ Error e])).
Proof.
  split_and!.
  - intros w o w' log Hex.
    apply setupConfiguration_exec in Hex as (v & lb & verbose & json & Hp & ->).
    destruct Hp.
    all: split_and!.
    all: path_omap.
    all: try match goal with
      | |- _ ≠ _ ↔ _ => set_unfold; naive_solver
      | |- ∀ path : string, _ ↔ _ => set_unfold; naive_solver
      | |- (∃ r, Returned _ = Returned r) ∨ _ => left; by eexists
      | |- ∀ v ver err, _ = _ → _ =>
          intros ? ? ? [= <- <- <-];
          rewrite ?Exists_cons, ?Exists_nil; unfold is_Some; naive_solver
      end.
    + right. eexists. split; [done|]. left. set_solver.
    + right. eexists. split; [done|]. right. rewrite Exists_app. right.
      constructor. by eexists.
    + right. eexists. split; [done|]. left. set_solver.
  - intros w v0 ver0 err w' log Hex.
    apply setupConfiguration_exec in Hex as (v & lb & verbose & json & Hp & ->).
    remember (Returned (v0, ver0, err)) as o eqn:Ho.
    destruct Hp as [version | version arg0 args cmd pre flag post e
                   | version arg0 args cmd flags
                   | version arg0 args cmd flags arg0' arguments e
                   | version arg0 args cmd flags arg0' arguments configPath e Hne
                   | version arg0 args cmd flags arg0' arguments configPath ver Hne
                   | version arg0 args cmd flags arg0' arguments ver];
      try discriminate; injection Ho as <- <- <-.
    all: match goal with
         | |- context [parse_calls _ _ _ _ _ _ _ _ ?r ?rest ++ ?logger] =>
             destruct (parse_calls_split v version arg0 args cmd flags arg0' arguments
                         r rest logger)
               as (pre' & Hlog & Hargs & Hp1 & Hp2 & Hp3 & Hp4);
             exists arg0', arguments, cmd, r, pre', (rest ++ logger)
         end.
    all: split_and!; try done.
    all: rewrite ?omap_app, ?(setupLogger_calls_omap Parse_of),
           ?(setupLogger_calls_omap GetString_of),
           ?(setupLogger_calls_omap SetConfigFile_of),
           ?(setupLogger_calls_omap ReadInConfig_of) by done; try done.
    + exists configPath. split; [done|]. by destruct (decide (configPath = "")).
    + exists configPath. split; [done|]. by destruct (decide (configPath = "")).
    + exists "". split; [done|]. by destruct (decide ("" = "")).
  - intros w o w' log Hex.
    apply main_exec in Hex as (w1 & w2 & oc & lc & pre & rest & Hc & -> & Hnf & Hmain).
    exists w1, w2, oc, lc, pre, rest. split_and!; [done | done |].
    intros v ver e ->. destruct (Hmain v ver e eq_refl) as [Hhelp Hfatal].
    rewrite app_assoc, omap_app, Hnf. simpl.
    destruct (decide (e = pflag_ErrHelp)) as [->|Hne].
    + destruct (Hhelp eq_refl) as [-> ->]. done.
    + destruct (Hfatal Hne) as [-> ->]. simpl. split_and!; [| done | done].
      split; [done | by intros ->].
Qed.

(** ** Further properties of [getPercentiles] *)

Lemma getPercentiles_None_parses (s : list string) :
  (getPercentiles s).2 = None → Forall parses s.
Proof.
  intros Hnone. destruct (first_failure s) as [Hall | (pre & x & post & e & -> & Hpre & Hx)].
  - done.
  - by rewrite (getPercentiles_fail pre post x e Hpre Hx) in Hnone.
Qed.

(** X1: [getPercentiles] over a concatenation: an error in the first part is the
    error of the whole, whatever follows; after a first part that parses, an
    error in the second part is the error of the whole; and two parts that
    parse give the concatenation of their values. *)
Theorem getPercentiles_app (s1 s2 : list string) :
  (∀ e, (getPercentiles s1).2 = Some e → getPercentiles (s1 ++ s2) = (None, Some e)) ∧
  (∀ e, (getPercentiles s1).2 = None → (getPercentiles s2).2 = Some e →
        getPercentiles (s1 ++ s2) = (None, Some e)) ∧
  (∀ l1 l2, getPercentiles s1 = (Some l1, None) → getPercentiles s2 = (Some l2, None) →
            getPercentiles (s1 ++ s2) = (Some (l1 ++ l2), None)).
Proof.
  split_and!.
  - intros e He.
    destruct (first_failure s1) as [Hall | (pre & x & post & e' & -> & Hpre & Hx)].
    + by rewrite (getPercentiles_ok s1 Hall) in He.
    + rewrite (getPercentiles_fail pre post x e' Hpre Hx) in He. injection He as <-.
      rewrite <- app_assoc. simpl. by apply getPercentiles_fail.
  - intros e H1 H2. apply getPercentiles_None_parses in H1.
    destruct (first_failure s2) as [Hall | (pre & x & post & e' & -> & Hpre & Hx)].
    + by rewrite (getPercentiles_ok s2 Hall) in H2.
    + rewrite (getPercentiles_fail pre post x e' Hpre Hx) in H2. injection H2 as <-.
      rewrite app_assoc. apply getPercentiles_fail; [| done]. by apply Forall_app.
  - intros l1 l2 H1 H2.
    assert (Forall parses s1) as Hs1 by (apply getPercentiles_None_parses; by rewrite H1).
    assert (Forall parses s2) as Hs2 by (apply getPercentiles_None_parses; by rewrite H2).
    rewrite (getPercentiles_ok s1 Hs1) in H1. rewrite (getPercentiles_ok s2 Hs2) in H2.
    injection H1 as <-. injection H2 as <-.
    rewrite getPercentiles_ok by (by apply Forall_app). by rewrite fmap_app.
Qed.

(** ** Further properties of [constructServer] *)

Lemma backend_calls_args v pool names rs :
  Forall (.= (v, pool)) (omap InitBackend_args_of (backend_calls v pool names rs)).
Proof.
  unfold backend_calls. revert rs.
  induction names as [|n names IH]; intros [|r rs]; simpl; try by constructor.
Qed.

(** X2: [constructServer] returns as soon as a step fails: when it returns an
    error it returns no server, and the call that failed is the last call it
    has made. *)
Theorem constructServer_error_is_last v w o w' log s e :
  exec h (constructServer v) w = (o, w', log) →
  o = Returned (s, Some e) →
  s = None ∧ ∃ pre ev, log = pre ++ [ev] ∧ startup_failure ev.
Proof.
  intros Hex Ho. apply constructServer_paths in Hex as (r & -> & Hpath).
  injection Ho as ->.
  inversion Hpath as [logger pool cloud e' | logger pool c e'
                     | logger pool cloud pre n post bs b e' Hlen
                     | logger pool cloud names bs percentThreshold e' Hlen He | ];
    subst; (split; [done|]).
  - eexists [_; _], _. split; [done|]. simpl. by eexists.
  - eexists [_; _; _], _. split; [done|]. simpl. by eexists.
  - exists (cloud_calls v logger pool cloud
            ++ [EvCall (GetStringSlice v ParamBackends) (pre ++ n :: post)]
            ++ backend_calls v pool pre ((., None) <$> bs)),
           (EvCall (backends_InitBackend n v pool) (b, Some e)).
    split; [by rewrite <- !app_assoc|]. simpl. by eexists.
  - exists (cloud_calls v logger pool cloud
            ++ [EvCall (GetStringSlice v ParamBackends) names]
            ++ backend_calls v pool names ((., None) <$> bs)),
           (EvCall (GetStringSlice v ParamPercentThreshold) percentThreshold).
    split; [by rewrite <- !app_assoc|]. simpl.
    split; [done|]. by eapply getPercentiles_error_Exists.
Qed.

(** X3: The cloud handler factory is created exactly once; [InitCloudProvider]
    is called, once and on that factory, exactly when the factory is not nil
    and came without an error; and no backend is initialised unless the
    factory was created and its provider initialised without an error. *)
Theorem constructServer_cloud_provider v w o w' log :
  exec h (constructServer v) w = (o, w', log) →
  ∃ cloud err,
    omap NewCloudHandlerFactory_of log = [(cloud, err)] ∧
    ((∃ c r, cloud = Some c ∧ err = None ∧ omap InitCloudProvider_of log = [(c, r)]) ∨
     ((cloud = None ∨ is_Some err) ∧ omap InitCloudProvider_of log = [])) ∧
    (omap InitBackend_of log ≠ [] →
       err = None ∧ Forall (λ p, p.2 = None) (omap InitCloudProvider_of log)).
Proof.
  intros Hex. apply constructServer_paths in Hex as (r & -> & Hpath).
  destruct Hpath as [logger pool cloud e | logger pool c e
                    | logger pool cloud pre n post bs b e Hlen
                    | logger pool cloud names bs percentThreshold e Hlen He
                    | logger pool cloud names percentThreshold s badLinesPerMinute Hlen].
  - exists cloud, (Some e). split_and!; [done | | done].
    right. split; [right; by eexists | done].
  - exists (Some c), None. split_and!; [done | | done].
    left. by exists c, (Some e).
  - exists cloud, None.
    rewrite !omap_app, cloud_calls_NewCloudHandlerFactory.
    rewrite (backend_calls_omap NewCloudHandlerFactory_of),
            (backend_calls_omap InitCloudProvider_of) by done.
    unfold cloud_calls. destruct cloud as [c|]; simpl; (split_and!; [done | | ]).
    + left. by exists c, None.
    + intros _. split; [done|]. by repeat constructor.
    + right. split; [by left | done].
    + intros _. split; [done|]. constructor.
  - exists cloud, None.
    rewrite !omap_app, cloud_calls_NewCloudHandlerFactory.
    rewrite (backend_calls_omap NewCloudHandlerFactory_of),
            (backend_calls_omap InitCloudProvider_of) by done.
    unfold cloud_calls. destruct cloud as [c|]; simpl; (split_and!; [done | | ]).
    + left. by exists c, None.
    + intros _. split; [done|]. by repeat constructor.
    + right. split; [by left | done].
    + intros _. split; [done|]. constructor.
  - exists cloud, None.
    rewrite !omap_app, cloud_calls_NewCloudHandlerFactory.
    rewrite (backend_calls_omap NewCloudHandlerFactory_of),
            (backend_calls_omap InitCloudProvider_of) by done.
    unfold cloud_calls. destruct cloud as [c|]; simpl; (split_and!; [done | | ]).
    + left. by exists c, None.
    + intros _. split; [done|]. by repeat constructor.
    + right. split; [by left | done].
    + intros _. split; [done|]. constructor.
Qed.

(** X4: Every field of the server that comes from the configuration holds the
    value that viper returned for its key; the keys are read once each, in
    the order of the struct literal, as the last calls of [constructServer];
    the heartbeat tags name the version and the commit; and the server
    keeps the viper it was constructed from. *)
Theorem constructServer_fields v w s w' log :
  exec h (constructServer v) w = (Returned (Some s, None), w', log) →
  (∃ pre badLinesPerMinute, log = pre ++ field_reads v s badLinesPerMinute) ∧
  HeartbeatTags s = ["version:" +:+ Version; "commit:" +:+ GitCommit] ∧
  Viper s = v.
Proof.
  intros Hex. apply constructServer_paths in Hex as (r & [= <-] & Hpath).
  remember (Some s, None (A := error)) as r eqn:Hr.
  destruct Hpath as [| | | |logger pool cloud names percentThreshold s' m
                              Hlen Hcloud Hpt Htags Hrate Hv Hpool]; try discriminate.
  injection Hr as ->.
  split_and!; [| done | done].
  exists (cloud_calls v logger pool cloud
          ++ [EvCall (GetStringSlice v ParamBackends) names]
          ++ backend_calls v pool names ((., None) <$> Backends s)
          ++ [EvCall (GetStringSlice v ParamPercentThreshold) percentThreshold]), m.
  by rewrite <- !app_assoc.
Qed.

(** X5: The percentile thresholds of the server are the parsed values of the
    configured list, which parses throughout; the slice is not nil, also
    for an empty list. *)
Theorem constructServer_PercentThreshold v w s w' log :
  exec h (constructServer v) w = (Returned (Some s, None), w', log) →
  ∃ percentThreshold,
    (v, ParamPercentThreshold, percentThreshold) ∈ omap GetStringSlice_of log ∧
    Forall parses percentThreshold ∧
    PercentThreshold s = Some ((λ x, (strconv_ParseFloat x).1) <$> percentThreshold).
Proof.
  intros Hex. apply constructServer_paths in Hex as (r & [= <-] & Hpath).
  remember (Some s, None (A := error)) as r eqn:Hr.
  destruct Hpath as [| | | |logger pool cloud names percentThreshold s' m
                              Hlen Hcloud Hpt Htags Hrate Hv Hpool]; try discriminate.
  injection Hr as ->.
  exists percentThreshold.
  assert (Forall parses percentThreshold) as Hall
    by (apply getPercentiles_None_parses; by rewrite Hpt).
  split_and!; [| done |].
  - rewrite !omap_app, cloud_calls_GetStringSlice.
    rewrite (backend_calls_omap GetStringSlice_of) by done. simpl. set_solver.
  - rewrite (getPercentiles_ok _ Hall) in Hpt. by injection Hpt as <-.
Qed.

(** X6: One transport pool is created; every backend is initialised with it and
    with the viper [constructServer] was given; and a server that is
    returned carries that pool and the cloud handler factory that was
    created. *)
Theorem constructServer_shared_pool v w o w' log :
  exec h (constructServer v) w = (o, w', log) →
  ∃ pool,
    omap NewTransportPool_of log = [pool] ∧
    Forall (.= (v, pool)) (omap InitBackend_args_of log) ∧
    ∀ s, o = Returned (Some s, None) →
      TransportPool s = pool ∧
      omap NewCloudHandlerFactory_of log = [(CloudHandlerFactory s, None)].
Proof.
  intros Hex. apply constructServer_paths in Hex as (r & -> & Hpath).
  destruct Hpath as [logger pool cloud e | logger pool c e
                    | logger pool cloud pre n post bs b e Hlen
                    | logger pool cloud names bs percentThreshold e Hlen He
                    | logger pool cloud names percentThreshold s badLinesPerMinute
                        Hlen Hcloud Hpt Htags Hrate Hv Hpool];
    exists pool.
  - split_and!; [done | constructor | done].
  - split_and!; [done | constructor | done].
  - rewrite !omap_app, (backend_calls_omap NewTransportPool_of) by done.
    split_and!; [unfold cloud_calls; by destruct cloud | | done].
    rewrite !Forall_app. split_and!;
      [unfold cloud_calls; destruct cloud; constructor | constructor
      | apply backend_calls_args | by repeat constructor].
  - rewrite !omap_app, (backend_calls_omap NewTransportPool_of) by done.
    split_and!; [unfold cloud_calls; by destruct cloud | | done].
    rewrite !Forall_app. split_and!;
      [unfold cloud_calls; destruct cloud; constructor | constructor
      | apply backend_calls_args | constructor].
  - rewrite !omap_app, (backend_calls_omap NewTransportPool_of),
            (backend_calls_omap NewCloudHandlerFactory_of),
            cloud_calls_NewCloudHandlerFactory by done.
    split_and!; [unfold cloud_calls; by destruct cloud | |].
    + rewrite !Forall_app. split_and!;
        [unfold cloud_calls; destruct cloud; constructor | constructor
        | apply backend_calls_args | constructor | constructor].
    + intros s' [= <-]. by rewrite Hcloud.
Qed.

(** ** Further properties of [run] *)

(** Reading a record of calls along a path of [constructServer]. *)
Ltac path_reads f :=
  rewrite ?omap_app;
  rewrite ?(backend_calls_omap f) by done;
  unfold cloud_calls, field_reads;
  repeat match goal with
         | |- context [match ?c with Some _ => _ | None => _ end] => destruct c
         end;
  simpl.

Lemma constructServer_path_no_Go v r l : constructServer_path v r l → omap Go_of l = [].
Proof. intros Hp. destruct Hp; by path_reads Go_of. Qed.

Lemma constructServer_path_no_Info v r l : constructServer_path v r l → omap Info_of l = [].
Proof. intros Hp. destruct Hp; by path_reads Info_of. Qed.

Lemma constructServer_path_no_WithCancel v r l :
  constructServer_path v r l → omap WithCancel_of l = [].
Proof. intros Hp. destruct Hp; by path_reads WithCancel_of. Qed.

Lemma constructServer_path_no_make_chan v r l :
  constructServer_path v r l → omap make_chan_of l = [].
Proof. intros Hp. destruct Hp; by path_reads make_chan_of. Qed.

Lemma constructServer_path_no_Notify v r l :
  constructServer_path v r l → omap Notify_of l = [].
Proof. intros Hp. destruct Hp; by path_reads Notify_of. Qed.

Lemma constructServer_path_no_Cancel v r l :
  constructServer_path v r l → omap Cancel_of l = [].
Proof. intros Hp. destruct Hp; by path_reads Cancel_of. Qed.

(** X7: [run] first reads the profiler address and starts the profiler
    goroutine exactly when the address is not empty, then logs "Starting
    server", once; the only other goroutine it can start is the one of
    [cancelOnInterrupt].  The profiler goroutine serves on that address and
    logs the error [http.ListenAndServe] returns; it makes no other call. *)
Theorem run_profiler v :
  (∀ w o w' log,
     exec h (run v) w = (o, w', log) →
     ∃ profileAddr rest,
       (profileAddr ≠ "" →
          log = EvCall (GetString v ParamProfile) profileAddr
                :: EvGo (run_go profileAddr)
                :: EvCall (logrus_Info "Starting server") () :: rest) ∧
       (profileAddr = "" →
          log = EvCall (GetString v ParamProfile) ""
                :: EvCall (logrus_Info "Starting server") () :: rest) ∧
       omap Info_of rest = [] ∧
       (omap Go_of rest = [] ∨
        ∃ ctx cancelFunc c, omap Go_of rest = [cancelOnInterrupt_go ctx cancelFunc c])) ∧
  (∀ profileAddr w,
     exec h (run_go profileAddr) w =
       let '(e, w1) := h _ (http_ListenAndServe profileAddr) w in
       let '(u, w2) := h _ (logrus_Errorf ("Profiler server failed: " +:+ fmt_v e)) w1 in
       (Returned (), w2,
        [EvCall (http_ListenAndServe profileAddr) e;
         EvCall (logrus_Errorf ("Profiler server failed: " +:+ fmt_v e)) ()])).
Proof.
  split.
  - intros w o w' log Hex.
    apply run_exec in Hex
      as [(profileAddr & e & w1 & lc & Hc & Hpath & -> & ->)
         |(profileAddr & s0 & w1 & w2 & lc & parent & ctx0 & cancelFunc & c & r0
           & Hc & Hpath & -> & ->)].
    + exists profileAddr, lc. rewrite run_prelude_app.
      split_and!.
      * intros Hne. by destruct (decide (profileAddr ≠ "")).
      * intros ->. done.
      * by eapply constructServer_path_no_Info.
      * left. by eapply constructServer_path_no_Go.
    + exists profileAddr, (lc ++ run_server_calls s0 parent ctx0 cancelFunc c r0).
      rewrite run_prelude_app. split_and!.
      * intros Hne. by destruct (decide (profileAddr ≠ "")).
      * intros ->. done.
      * by rewrite omap_app, (constructServer_path_no_Info _ _ _ Hpath).
      * right. exists ctx0, cancelFunc, c.
        by rewrite omap_app, (constructServer_path_no_Go _ _ _ Hpath).
  - intros profileAddr w. unfold run_go. simpl.
    destruct (h _ (http_ListenAndServe profileAddr) w) as [e w1].
    by destruct (h _ (logrus_Errorf _) w1) as [[] w2].
Qed.

(** X8: [run] creates a context only once the server is constructed.  When it
    returns without having run the server it has created no context, made no
    channel, registered for no signal and called no cancel function.  When
    the server has run, one context was created, one channel of capacity 1
    was made and registered for [os.Interrupt] and [SIGTERM], and the cancel
    function of that context was called exactly once by [run], as its last
    call. *)
Theorem run_context_lifecycle v w o w' log :
  exec h (run v) w = (o, w', log) →
  (omap Server_Run_of log = [] →
     omap WithCancel_of log = [] ∧ omap make_chan_of log = [] ∧
     omap Notify_of log = [] ∧ omap Cancel_of log = []) ∧
  (∀ s ctx r, (s, ctx, r) ∈ omap Server_Run_of log →
     ∃ cancelFunc c,
       omap WithCancel_of log = [(ctx, cancelFunc)] ∧
       omap make_chan_of log = [(1%nat, c)] ∧
       omap Notify_of log = [(c, [os_Interrupt; syscall_SIGTERM])] ∧
       omap Cancel_of log = [cancelFunc] ∧
       last log = Some (EvCall (call_CancelFunc cancelFunc) ())).
Proof.
  intros Hex.
  assert (Hpre : ∀ profileAddr,
            omap WithCancel_of (run_prelude v profileAddr) = [] ∧
            omap make_chan_of (run_prelude v profileAddr) = [] ∧
            omap Notify_of (run_prelude v profileAddr) = [] ∧
            omap Cancel_of (run_prelude v profileAddr) = []).
  { intros profileAddr. unfold run_prelude. simpl. by destruct (decide _). }
  apply run_exec in Hex
    as [(profileAddr & e & w1 & lc & Hc & Hpath & -> & ->)
       |(profileAddr & s0 & w1 & w2 & lc & parent & ctx0 & cancelFunc & c & r0
         & Hc & Hpath & -> & ->)].
  - destruct (Hpre profileAddr) as (H1 & H2 & H3 & H4). split.
    + intros _. rewrite !omap_app, H1, H2, H3, H4.
      by rewrite (constructServer_path_no_WithCancel _ _ _ Hpath),
                 (constructServer_path_no_make_chan _ _ _ Hpath),
                 (constructServer_path_no_Notify _ _ _ Hpath),
                 (constructServer_path_no_Cancel _ _ _ Hpath).
    + intros s ctx r Hin.
      rewrite omap_app, run_prelude_no_Run, (constructServer_path_no_Run _ _ _ Hpath) in Hin.
      by apply elem_of_nil in Hin.
  - destruct (Hpre profileAddr) as (H1 & H2 & H3 & H4). split.
    + rewrite !omap_app, run_prelude_no_Run, (constructServer_path_no_Run _ _ _ Hpath).
      done.
    + intros s ctx r Hin.
      rewrite !omap_app, run_prelude_no_Run, (constructServer_path_no_Run _ _ _ Hpath) in Hin.
      simpl in Hin. apply list_elem_of_singleton in Hin as [= -> -> ->].
      exists cancelFunc, c.
      rewrite !omap_app, H1, H2, H3, H4.
      rewrite (constructServer_path_no_WithCancel _ _ _ Hpath),
              (constructServer_path_no_make_chan _ _ _ Hpath),
              (constructServer_path_no_Notify _ _ _ Hpath),
              (constructServer_path_no_Cancel _ _ _ Hpath).
      split_and!; [done.. |].
      unfold run_server_calls. rewrite !app_assoc.
      change [EvCall context_Background parent;
              EvCall (context_WithCancel parent) (ctx0, cancelFunc);
              EvCall (make_chan_Signal 1) c;
              EvCall (signal_Notify c [os_Interrupt; syscall_SIGTERM]) ();
              EvGo (cancelOnInterrupt_go ctx0 cancelFunc c);
              EvCall (Server_Run s0 ctx0) r0;
              EvCall (call_CancelFunc cancelFunc) ()]
        with ([EvCall context_Background parent;
               EvCall (context_WithCancel parent) (ctx0, cancelFunc);
               EvCall (make_chan_Signal 1) c;
               EvCall (signal_Notify c [os_Interrupt; syscall_SIGTERM]) ();
               EvGo (cancelOnInterrupt_go ctx0 cancelFunc c);
               EvCall (Server_Run s0 ctx0) r0]
              ++ [EvCall (call_CancelFunc cancelFunc) ()]).
      rewrite app_assoc. apply last_snoc.
Qed.

(** ** Further properties of [setupConfiguration] *)

(** Reading a record of calls along a path of [setupConfiguration]. *)
Ltac setup_reads f :=
  unfold parse_calls; cbn;
  rewrite ?omap_app;
  rewrite ?(bind_calls_omap f) by done;
  rewrite ?(setupLogger_calls_omap f) by done;
  cbn; rewrite ?app_nil_r.

Lemma bind_calls_Bind v flags :
  omap Bind_of (bind_calls v flags) = (λ flag, (flag_Name flag, flag)) <$> flags.
Proof.
  unfold bind_calls. induction flags as [|flag flags IH]; csimpl; [done|]. by rewrite IH.
Qed.

Lemma bind_calls_BindPFlag_None v flags :
  Forall (.= None) (omap BindPFlag_of (bind_calls v flags)).
Proof.
  unfold bind_calls. induction flags as [|flag flags IH]; csimpl; by constructor.
Qed.

Lemma setupLogger_calls_GetBool v verbose json :
  omap GetBool_of (setupLogger_calls v verbose json)
    = [(ParamVerbose, verbose); (ParamJSON, json)].
Proof. unfold setupLogger_calls. by destruct verbose, json. Qed.

Lemma setupLogger_calls_Logging v verbose json :
  omap Logging_of (setupLogger_calls v verbose json)
    = (if verbose then [DebugLevel] else []) ++ (if json then [JSONFormatter] else []).
Proof. unfold setupLogger_calls. by destruct verbose, json. Qed.

(** X9: [setupLogger] reads [verbose] and then [json], once each, and sets the
    debug level exactly when [verbose] is true and the JSON formatter exactly
    when [json] is true.  [setupConfiguration] creates one viper and applies
    this logging configuration to it as its last calls on every way out: when
    it returns a viper, when it returns an error and when it panics; it reads
    no [bool] setting and sets nothing of the logger before. *)
Theorem setupConfiguration_logging :
  (∀ v w, ∃ verbose json w',
     exec h (setupLogger v) w = (Returned (), w', setupLogger_calls v verbose json) ∧
     omap GetBool_of (setupLogger_calls v verbose json)
       = [(ParamVerbose, verbose); (ParamJSON, json)] ∧
     omap Logging_of (setupLogger_calls v verbose json)
       = (if verbose then [DebugLevel] else []) ++ (if json then [JSONFormatter] else [])) ∧
  (∀ w o w' log,
     exec h setupConfiguration w = (o, w', log) →
     ∃ v pre verbose json,
       omap viper_New_of log = [v] ∧
       log = pre ++ setupLogger_calls v verbose json ∧
       omap GetBool_of pre = [] ∧ omap Logging_of pre = []).
Proof.
  split.
  - intros v w. destruct (setupLogger_exec v w) as (verbose & json & w' & Hex).
    exists verbose, json, w'.
    by rewrite Hex, setupLogger_calls_GetBool, setupLogger_calls_Logging.
  - intros w o w' log Hex.
    apply setupConfiguration_exec in Hex as (v & lb & verbose & json & Hp & ->).
    exists v, (EvCall viper_New v :: lb), verbose, json.
    split_and!; [| done | |].
    + destruct Hp; by setup_reads viper_New_of.
    + destruct Hp; by setup_reads GetBool_of.
    + destruct Hp; by setup_reads Logging_of.
Qed.

(** An execution whose command line was parsed went through all the calls
    before [cmd.Parse]. *)
Lemma setupConfiguration_parse_reached v o lb arguments :
  setupConfiguration_path v o lb →
  arguments ∈ omap Parse_args_of lb →
  ∃ version arg0 args cmd flags arg0' r rest,
    lb = parse_calls v version arg0 args cmd flags arg0' arguments r rest ∧
    omap BindPFlag_of rest = [] ∧ omap Bind_of rest = [] ∧ omap os_Args_of rest = [] ∧
    omap NewFlagSet_of rest = [] ∧ omap flags_of rest = [].
Proof.
  intros Hp Hin.
  destruct Hp as [version | version arg0 args cmd pre flag post e
                 | version arg0 args cmd flags
                 | version arg0 args cmd flags arg0' arguments' e
                 | version arg0 args cmd flags arg0' arguments' configPath e Hne
                 | version arg0 args cmd flags arg0' arguments' configPath ver Hne
                 | version arg0 args cmd flags arg0' arguments' ver].
  1-3: exfalso; revert Hin; setup_reads Parse_args_of; by intros ?%elem_of_nil.
  all: revert Hin; setup_reads Parse_args_of; intros ->%list_elem_of_singleton.
  all: by eexists version, arg0, args, cmd, flags, arg0', _, _.
Qed.

(** X10: Whenever [setupConfiguration] parses the command line, it has named the
    flag set after [os.Args[0]], has bound every flag of the flag set to the
    viper under the flag's own name, in the order of [VisitAll] and without
    an error, and parses [os.Args[1:]]; no flag is bound after parsing. *)
Theorem setupConfiguration_binds_flags w o w' log arguments :
  exec h setupConfiguration w = (o, w', log) →
  arguments ∈ omap Parse_args_of log →
  ∃ arg0 args arg0' flags,
    omap os_Args_of log = [arg0 :: args; arg0' :: arguments] ∧
    omap NewFlagSet_of log = [arg0] ∧
    omap flags_of log = [flags] ∧
    omap Bind_of log = (λ flag, (flag_Name flag, flag)) <$> flags ∧
    Forall (.= None) (omap BindPFlag_of log) ∧
    ∃ pre cmd r post,
      log = pre ++ EvCall (FlagSet_Parse cmd arguments) r :: post ∧
      omap Bind_of pre = (λ flag, (flag_Name flag, flag)) <$> flags ∧
      omap Bind_of post = [].
Proof.
  intros Hex Hin.
  apply setupConfiguration_exec in Hex as (v & lb & verbose & json & Hp & ->).
  assert (arguments ∈ omap Parse_args_of lb) as Hin'.
  { revert Hin. cbn. rewrite omap_app.
    by rewrite (setupLogger_calls_omap Parse_args_of), app_nil_r. }
  destruct (setupConfiguration_parse_reached _ _ _ _ Hp Hin')
    as (version & arg0 & args & cmd & flags & arg0' & r & rest
        & -> & Hr1 & Hr2 & Hr3 & Hr4 & Hr5).
  exists arg0, args, arg0', flags. split_and!.
  - setup_reads os_Args_of. by rewrite Hr3.
  - setup_reads NewFlagSet_of. by rewrite Hr4.
  - setup_reads flags_of. by rewrite Hr5.
  - unfold parse_calls. cbn. rewrite !omap_app, bind_calls_Bind.
    rewrite (setupLogger_calls_omap Bind_of) by done. cbn. by rewrite Hr2, !app_nil_r.
  - unfold parse_calls. cbn. rewrite !omap_app, !Forall_app. cbn.
    rewrite (setupLogger_calls_omap BindPFlag_of), Hr1 by done.
    split_and!; [apply bind_calls_BindPFlag_None | constructor | constructor].
  - exists (EvCall viper_New v :: flag_calls v version arg0 args cmd
            ++ [EvCall (FlagSet_flags cmd) flags] ++ bind_calls v flags
            ++ [EvCall os_Args (arg0' :: arguments)]),
           cmd, r, (rest ++ setupLogger_calls v verbose json).
    split_and!.
    + unfold parse_calls. cbn. by rewrite <- !app_assoc.
    + cbn. rewrite !omap_app, bind_calls_Bind. cbn. by rewrite app_nil_r.
    + rewrite omap_app, Hr2. by rewrite (setupLogger_calls_omap Bind_of).
Qed.

(** X11: What [setupConfiguration] returns: with an error, no viper and no
    version request, and the variable bound to the [version] flag is not
    even read; without an error, the viper that [viper.New] created and the
    value of that variable after parsing. *)
Theorem setupConfiguration_result w vp ver err w' log :
  exec h setupConfiguration w = (Returned (vp, ver, err), w', log) →
  (is_Some err → vp = None ∧ ver = false ∧ omap load_bool_of log = []) ∧
  (err = None →
     ∃ v, omap viper_New_of log = [v] ∧ vp = Some v ∧ omap load_bool_of log = [ver]).
Proof.
  intros Hex.
  apply setupConfiguration_exec in Hex as (v & lb & verbose & json & Hp & ->).
  remember (Returned (vp, ver, err)) as o eqn:Ho.
  destruct Hp; try discriminate; injection Ho as <- <- <-; split.
  all: try (intros [? ?]; discriminate).
  all: try (intros ?; discriminate).
  - intros _. split_and!; [done | done |]. by setup_reads load_bool_of.
  - intros _. split_and!; [done | done |]. by setup_reads load_bool_of.
  - intros _. exists v. split_and!; [| done |].
    + by setup_reads viper_New_of.
    + by setup_reads load_bool_of.
  - intros _. exists v. split_and!; [| done |].
    + by setup_reads viper_New_of.
    + by setup_reads load_bool_of.
Qed.

(** ** Further properties of [main] *)

Lemma setupConfiguration_path_outcome v oc lb :
  setupConfiguration_path v oc lb →
  (∃ p, oc = Panicked p) ∨
  (∃ e, oc = Returned (None, false, Some e)) ∨
  (∃ ver, oc = Returned (Some v, ver, None)).
Proof. intros Hp. destruct Hp; eauto. Qed.

(** The ways through [main]. *)
Lemma main_cases w o w' log :
  exec h main w = (o, w', log) →
  ∃ seed v lb verbose json oc,
    setupConfiguration_path v oc lb ∧
    let setup := main_prelude seed
                 ++ EvCall viper_New v :: lb ++ setupLogger_calls v verbose json in
    (∃ p, oc = Panicked p ∧ o = Panicked p ∧ log = setup) ∨
    (oc = Returned (None, false, Some pflag_ErrHelp) ∧ o = Returned () ∧ log = setup) ∨
    (∃ e, oc = Returned (None, false, Some e) ∧ e ≠ pflag_ErrHelp ∧ o = Exited ∧
          log = setup ++ [EvFatal ("Error while parsing configuration: " +:+ Error e)]) ∨
    (oc = Returned (Some v, true, None) ∧ o = Returned () ∧
     log = setup ++ [EvCall (fmt_Printf version_line) ()]) ∨
    (oc = Returned (Some v, false, None) ∧
     ∃ w1 w2 r lr,
       exec h (run v) w1 = (Returned r, w2, lr) ∧
       ((r = None ∧ o = Returned () ∧ log = setup ++ lr) ∨
        (∃ e, r = Some e ∧ o = Exited ∧ log = setup ++ lr ++ [EvFatal (Error e)]))).
Proof.
  unfold main. intros Hex.
  bind_call Hex seed w1. bind_call Hex u w2. destruct u.
  rewrite exec_mbind in Hex.
  destruct (exec h setupConfiguration w2) as [[oc w3] lc] eqn:Hc.
  destruct (setupConfiguration_exec _ _ _ _ Hc) as (v & lb & verbose & json & Hp & ->).
  exists seed, v, lb, verbose, json, oc. split; [done|]. cbv zeta.
  destruct (setupConfiguration_path_outcome _ _ _ Hp) as [[p ->] | [[e ->] | [ver ->]]].
  - left. exists p. by inversion Hex.
  - cbv beta iota zeta in Hex.
    destruct (decide (e = pflag_ErrHelp)) as [->|Hne]; simpl in Hex; inversion Hex; subst.
    + right; left. by rewrite app_nil_r.
    + right; right; left. by exists e.
  - cbv beta iota zeta in Hex. destruct ver.
    + rewrite exec_call in Hex. destruct (h _ (fmt_Printf _) w3) as [[] w4].
      inversion Hex; subst. right; right; right; left. done.
    + rewrite exec_mbind in Hex.
      destruct (exec h (run v) w3) as [[or w4] lr] eqn:Hrun.
      assert (∃ r, or = Returned r) as [r ->].
      { apply run_exec in Hrun as [(? & ? & ? & ? & _ & _ & _ & ->)
                                  |(? & ? & ? & ? & ? & ? & ? & ? & ? & ? & _ & _ & _ & ->)];
          by eexists. }
      right; right; right; right. split; [done|].
      exists w3, w4, r, lr. split; [done|].
      destruct r as [e|]; simpl in Hex; inversion Hex; subst.
      * right. by exists e.
      * left. by rewrite app_nil_r.
Qed.

(** Reading the record of what [main] does up to the end of
    [setupConfiguration]. *)
Ltac main_setup_reads f := unfold main_prelude; setup_reads f.

Lemma main_setup_no_Fatal seed v oc lb verbose json :
  setupConfiguration_path v oc lb →
  omap Fatal_of (main_prelude seed ++ EvCall viper_New v :: lb
                 ++ setupLogger_calls v verbose json) = [].
Proof. intros Hp. destruct Hp; by main_setup_reads Fatal_of. Qed.

Lemma main_setup_no_Server_Run seed v oc lb verbose json :
  setupConfiguration_path v oc lb →
  omap Server_Run_of (main_prelude seed ++ EvCall viper_New v :: lb
                      ++ setupLogger_calls v verbose json) = [].
Proof. intros Hp. destruct Hp; by main_setup_reads Server_Run_of. Qed.

Lemma main_setup_no_Printf seed v oc lb verbose json :
  setupConfiguration_path v oc lb →
  omap Printf_of (main_prelude seed ++ EvCall viper_New v :: lb
                  ++ setupLogger_calls v verbose json) = [].
Proof. intros Hp. destruct Hp; by main_setup_reads Printf_of. Qed.

Lemma main_setup_no_Info seed v oc lb verbose json :
  setupConfiguration_path v oc lb →
  omap Info_of (main_prelude seed ++ EvCall viper_New v :: lb
                ++ setupLogger_calls v verbose json) = [].
Proof. intros Hp. destruct Hp; by main_setup_reads Info_of. Qed.

Lemma main_setup_no_NewTransportPool seed v oc lb verbose json :
  setupConfiguration_path v oc lb →
  omap NewTransportPool_of (main_prelude seed ++ EvCall viper_New v :: lb
                            ++ setupLogger_calls v verbose json) = [].
Proof. intros Hp. destruct Hp; by main_setup_reads NewTransportPool_of. Qed.

Lemma main_setup_viper_New seed v oc lb verbose json :
  setupConfiguration_path v oc lb →
  omap viper_New_of (main_prelude seed ++ EvCall viper_New v :: lb
                     ++ setupLogger_calls v verbose json) = [v].
Proof. intros Hp. destruct Hp; by main_setup_reads viper_New_of. Qed.

Lemma main_setup_load_bool seed v oc lb verbose json :
  setupConfiguration_path v oc lb →
  omap load_bool_of (main_prelude seed ++ EvCall viper_New v :: lb
                     ++ setupLogger_calls v verbose json)
    = match oc with
      | Returned (_, ver, None) => [ver]
      | _ => []
      end.
Proof. intros Hp. destruct Hp; by main_setup_reads load_bool_of. Qed.

(** Reading the record of calls of an execution of [run]. *)
Ltac run_reads f Hrun :=
  apply run_exec in Hrun
    as [(?profileAddr & ?e & ?w1 & ?lc & _ & ?Hpath & -> & _)
       |(?profileAddr & ?s0 & ?w1 & ?w2 & ?lc & ?parent & ?ctx0 & ?cancelFunc & ?c & ?r0
         & _ & ?Hpath & -> & _)];
  rewrite ?omap_app; unfold run_prelude, run_server_calls;
  match goal with Hp : constructServer_path _ _ _ |- _ => destruct Hp end;
  path_reads f; by repeat destruct (decide _).

Lemma run_no_Fatal v w o w' lr : exec h (run v) w = (o, w', lr) → omap Fatal_of lr = [].
Proof. intros Hrun. run_reads Fatal_of Hrun. Qed.

Lemma run_no_load_bool v w o w' lr :
  exec h (run v) w = (o, w', lr) → omap load_bool_of lr = [].
Proof. intros Hrun. run_reads load_bool_of Hrun. Qed.

Lemma run_no_Printf v w o w' lr : exec h (run v) w = (o, w', lr) → omap Printf_of lr = [].
Proof. intros Hrun. run_reads Printf_of Hrun. Qed.

Lemma run_no_viper_New v w o w' lr :
  exec h (run v) w = (o, w', lr) → omap viper_New_of lr = [].
Proof. intros Hrun. run_reads viper_New_of Hrun. Qed.

Lemma run_no_os_Args v w o w' lr : exec h (run v) w = (o, w', lr) → omap os_Args_of lr = [].
Proof. intros Hrun. run_reads os_Args_of Hrun. Qed.

Lemma run_no_BindPFlag v w o w' lr :
  exec h (run v) w = (o, w', lr) → omap BindPFlag_of lr = [].
Proof. intros Hrun. run_reads BindPFlag_of Hrun. Qed.

(** X12: With the [version] flag set on a command line that parses, [main]
    prints the version line as its last call and returns: it does not log
    "Starting server", creates no transport pool, runs no server and logs
    nothing fatal. *)
Theorem main_version w o w' log :
  exec h main w = (o, w', log) →
  true ∈ omap load_bool_of log →
  o = Returned () ∧
  omap Printf_of log = [version_line] ∧
  last log = Some (EvCall (fmt_Printf version_line) ()) ∧
  omap Info_of log = [] ∧ omap NewTransportPool_of log = [] ∧
  omap Server_Run_of log = [] ∧ omap Fatal_of log = [].
Proof.
  intros Hex Hin.
  apply main_cases in Hex as (seed & v & lb & verbose & json & oc & Hp & Hcases).
  cbv zeta in Hcases.
  pose proof (main_setup_load_bool seed v oc lb verbose json Hp) as Hload.
  pose proof (main_setup_no_Printf seed v oc lb verbose json Hp) as Hnp.
  pose proof (main_setup_no_Info seed v oc lb verbose json Hp) as Hni.
  pose proof (main_setup_no_NewTransportPool seed v oc lb verbose json Hp) as Hnt.
  pose proof (main_setup_no_Server_Run seed v oc lb verbose json Hp) as Hnr.
  pose proof (main_setup_no_Fatal seed v oc lb verbose json Hp) as Hnf.
  set (setup := main_prelude seed ++ EvCall viper_New v :: lb
                ++ setupLogger_calls v verbose json) in *.
  destruct Hcases as [(p & -> & -> & ->) | [(-> & -> & ->) | [(e & -> & Hne & -> & ->)
                     | [(-> & -> & ->) | (-> & w1 & w2 & r & lr & Hrun & Hr)]]]].
  - rewrite Hload in Hin. by apply elem_of_nil in Hin.
  - rewrite Hload in Hin. by apply elem_of_nil in Hin.
  - rewrite omap_app, Hload in Hin. by apply elem_of_nil in Hin.
  - rewrite !omap_app, Hnp, Hni, Hnt, Hnr, Hnf.
    split_and!; try done. apply last_snoc.
  - exfalso. pose proof (run_no_load_bool _ _ _ _ _ Hrun) as Hnl.
    destruct Hr as [(-> & -> & ->) | (e & -> & -> & ->)];
      rewrite ?omap_app, Hload, Hnl in Hin; simpl in Hin;
      apply list_elem_of_singleton in Hin; discriminate.
Qed.

(** X13: When the server has run, [main] returns without a fatal log if
    [Server.Run] returned nil or [context.Canceled]; on any other error it
    logs "server error: " followed by the error, fatally, as its last action,
    and the process exits. *)
Theorem main_server_outcome w o w' log s ctx r :
  exec h main w = (o, w', log) →
  (s, ctx, r) ∈ omap Server_Run_of log →
  (r = None ∨ r = Some context_Canceled → o = Returned () ∧ omap Fatal_of log = []) ∧
  (∀ e, r = Some e → e ≠ context_Canceled →
        o = Exited ∧
        omap Fatal_of log = ["server error: " +:+ Error e] ∧
        last log = Some (EvFatal ("server error: " +:+ Error e))).
Proof.
  intros Hex Hin.
  apply main_cases in Hex as (seed & v & lb & verbose & json & oc & Hp & Hcases).
  cbv zeta in Hcases.
  pose proof (main_setup_no_Server_Run seed v oc lb verbose json Hp) as Hnr.
  pose proof (main_setup_no_Fatal seed v oc lb verbose json Hp) as Hnf.
  set (setup := main_prelude seed ++ EvCall viper_New v :: lb
                ++ setupLogger_calls v verbose json) in *.
  destruct Hcases as [(p & -> & -> & ->) | [(-> & -> & ->) | [(e & -> & Hne & -> & ->)
                     | [(-> & -> & ->) | (-> & w1 & w2 & r' & lr & Hrun & Hr)]]]].
  - rewrite Hnr in Hin. by apply elem_of_nil in Hin.
  - rewrite Hnr in Hin. by apply elem_of_nil in Hin.
  - rewrite omap_app, Hnr in Hin. by apply elem_of_nil in Hin.
  - rewrite omap_app, Hnr in Hin. by apply elem_of_nil in Hin.
  - pose proof (run_no_Fatal _ _ _ _ _ Hrun) as Hrf.
    assert ((s, ctx, r) ∈ omap Server_Run_of lr) as Hin'.
    { destruct Hr as [(-> & -> & ->) | (e & -> & -> & ->)];
        rewrite ?omap_app, Hnr in Hin; simpl in Hin; by rewrite ?app_nil_r in Hin. }
    assert (r' = run_result r) as ->.
    { apply run_exec in Hrun
        as [(profileAddr & e & w3 & lc & _ & Hpath & -> & _)
           |(profileAddr & s0 & w3 & w4 & lc & parent & ctx0 & cancelFunc & c & r0
             & _ & Hpath & -> & Ho)].
      - rewrite omap_app, run_prelude_no_Run, (constructServer_path_no_Run _ _ _ Hpath) in Hin'.
        by apply elem_of_nil in Hin'.
      - rewrite !omap_app, run_prelude_no_Run, (constructServer_path_no_Run _ _ _ Hpath) in Hin'.
        simpl in Hin'. apply list_elem_of_singleton in Hin' as [= -> -> ->].
        by injection Ho. }
    split.
    + intros Hok.
      assert (run_result r = None) as Hnone by (by destruct Hok as [-> | ->]).
      destruct Hr as [(_ & -> & ->) | (e & He & _)]; [| congruence].
      by rewrite omap_app, Hnf, Hrf.
    + intros e -> Hne.
      assert (run_result (Some e) = Some (errorString ("server error: " +:+ Error e))) as Hres
        by (unfold run_result; by destruct (decide _)).
      destruct Hr as [(He & _) | (e' & He & -> & ->)]; [congruence|].
      rewrite Hres in He. injection He as <-.
      rewrite !omap_app, Hnf, Hrf. split_and!; [done | done |].
      rewrite app_assoc. apply last_snoc.
Qed.

(** X14: When [run] has logged "Starting server" and no server has run, the
    start-up has failed: [constructServer] has returned an error, and [main]
    logs the message of that very error, unwrapped, fatally, as its last
    action, and the process exits. *)
Theorem main_startup_error w o w' log :
  exec h main w = (o, w', log) →
  omap Info_of log = ["Starting server"] →
  omap Server_Run_of log = [] →
  o = Exited ∧
  ∃ v e,
    omap viper_New_of log = [v] ∧
    (∃ w1 w2 l1, exec h (constructServer v) w1 = (Returned (None, Some e), w2, l1)) ∧
    omap Fatal_of log = [Error e] ∧
    last log = Some (EvFatal (Error e)).
Proof.
  intros Hex Hinfo Hnorun.
  apply main_cases in Hex as (seed & v & lb & verbose & json & oc & Hp & Hcases).
  cbv zeta in Hcases.
  pose proof (main_setup_no_Info seed v oc lb verbose json Hp) as Hni.
  pose proof (main_setup_no_Fatal seed v oc lb verbose json Hp) as Hnf.
  pose proof (main_setup_no_Server_Run seed v oc lb verbose json Hp) as Hnr.
  pose proof (main_setup_viper_New seed v oc lb verbose json Hp) as Hnv.
  set (setup := main_prelude seed ++ EvCall viper_New v :: lb
                ++ setupLogger_calls v verbose json) in *.
  destruct Hcases as [(p & -> & -> & ->) | [(-> & -> & ->) | [(e & -> & Hne & -> & ->)
                     | [(-> & -> & ->) | (-> & w1 & w2 & r & lr & Hrun & Hr)]]]].
  - by rewrite Hni in Hinfo.
  - by rewrite Hni in Hinfo.
  - by rewrite omap_app, Hni in Hinfo.
  - by rewrite omap_app, Hni in Hinfo.
  - pose proof (run_no_Fatal _ _ _ _ _ Hrun) as Hrf.
    pose proof (run_no_viper_New _ _ _ _ _ Hrun) as Hrv.
    apply run_exec in Hrun
      as [(profileAddr & e & w3 & lc & Hc & Hpath & -> & [= ->])
         |(profileAddr & s0 & w3 & w4 & lc & parent & ctx0 & cancelFunc & c & r0
           & _ & Hpath & -> & _)].
    + destruct Hr as [([=] & _) | (e' & [= <-] & -> & ->)].
      split; [done|]. exists v, e. split_and!.
      * do 2 rewrite omap_app. by rewrite Hnv, Hrv.
      * by exists w3, w2, lc.
      * do 2 rewrite omap_app. by rewrite Hnf, Hrf.
      * rewrite app_assoc. apply last_snoc.
    + exfalso.
      assert ((s0, ctx0, r0) ∈ omap Server_Run_of log) as Hin.
      { apply list_elem_of_omap. exists (EvCall (Server_Run s0 ctx0) r0).
        split; [|done].
        destruct Hr as [(_ & _ & ->) | (e' & _ & _ & ->)];
          unfold run_server_calls; set_solver. }
      rewrite Hnorun in Hin. by apply elem_of_nil in Hin.
Qed.

(** X15: [main] logs fatally at most once, as its last action, and the process
    exits exactly when it does.  [main] panics only when
    [setupConfiguration] does: [os.Args] is empty or binding a flag failed. *)
Theorem main_exit w o w' log :
  exec h main w = (o, w', log) →
  (o = Exited ↔ omap Fatal_of log ≠ []) ∧
  (∀ msg, msg ∈ omap Fatal_of log →
          omap Fatal_of log = [msg] ∧ last log = Some (EvFatal msg)) ∧
  (∀ p, o = Panicked p →
        ([] ∈ omap os_Args_of log ∨ Exists is_Some (omap BindPFlag_of log)) ∧
        omap Info_of log = []).
Proof.
  intros Hex.
  apply main_cases in Hex as (seed & v & lb & verbose & json & oc & Hp & Hcases).
  cbv zeta in Hcases.
  pose proof (main_setup_no_Fatal seed v oc lb verbose json Hp) as Hnf.
  pose proof (main_setup_no_Info seed v oc lb verbose json Hp) as Hni.
  assert (Hpanic : ∀ p, oc = Panicked p →
            [] ∈ omap os_Args_of (main_prelude seed ++ EvCall viper_New v :: lb
                                  ++ setupLogger_calls v verbose json) ∨
            Exists is_Some (omap BindPFlag_of
                              (main_prelude seed ++ EvCall viper_New v :: lb
                               ++ setupLogger_calls v verbose json))).
  { intros p ->. remember (Panicked p) as oc eqn:Hoc.
    destruct Hp; try discriminate.
    - left. main_setup_reads os_Args_of. set_solver.
    - right. main_setup_reads BindPFlag_of. rewrite Exists_app. right.
      constructor. by eexists.
    - left. main_setup_reads os_Args_of. set_solver. }
  set (setup := main_prelude seed ++ EvCall viper_New v :: lb
                ++ setupLogger_calls v verbose json) in *.
  destruct Hcases as [(p & -> & -> & ->) | [(-> & -> & ->) | [(e & -> & Hne & -> & ->)
                     | [(-> & -> & ->) | (-> & w1 & w2 & r & lr & Hrun & Hr)]]]].
  - rewrite Hnf. split_and!; [done | by intros ? ?%elem_of_nil |].
    intros p' [= <-]. split; [by eapply Hpanic | done].
  - rewrite Hnf. split_and!; [done | by intros ? ?%elem_of_nil | done].
  - assert (omap Fatal_of
              (setup ++ [EvFatal ("Error while parsing configuration: " +:+ Error e)])
            = ["Error while parsing configuration: " +:+ Error e]) as ->
      by (by rewrite omap_app, Hnf).
    split_and!; [done | | done].
    intros msg ->%list_elem_of_singleton. split; [done | apply last_snoc].
  - assert (omap Fatal_of (setup ++ [EvCall (fmt_Printf version_line) ()]) = []) as ->
      by (by rewrite omap_app, Hnf).
    split_and!; [done | by intros ? ?%elem_of_nil | done].
  - pose proof (run_no_Fatal _ _ _ _ _ Hrun) as Hrf.
    destruct Hr as [(-> & -> & ->) | (e & -> & -> & ->)].
    + rewrite omap_app, Hnf, Hrf. split_and!; [done | by intros ? ?%elem_of_nil | done].
    + assert (omap Fatal_of (setup ++ lr ++ [EvFatal (Error e)]) = [Error e]) as ->
        by (by rewrite !omap_app, Hnf, Hrf).
      split_and!; [done | | done].
      intros msg ->%list_elem_of_singleton. split; [done|].
      rewrite app_assoc. apply last_snoc.
Qed.

(** ** One viper *)

Lemma Forall_viper_arg v l :
  Forall (λ ev, ∀ x, viper_arg_of ev = Some x → x = v) l →
  Forall (.= v) (omap viper_arg_of l).
Proof.
  induction 1 as [|ev l Hev _ IH]; csimpl; [constructor|].
  destruct (viper_arg_of ev) as [x|]; [constructor; auto | done].
Qed.

Lemma bind_calls_viper v flags :
  Forall (λ ev, ∀ x, viper_arg_of ev = Some x → x = v) (bind_calls v flags).
Proof.
  unfold bind_calls. apply Forall_fmap, Forall_true. intros flag x. simpl. congruence.
Qed.

Lemma backend_calls_viper v pool names rs :
  Forall (λ ev, ∀ x, viper_arg_of ev = Some x → x = v) (backend_calls v pool names rs).
Proof.
  unfold backend_calls. revert rs.
  induction names as [|n names IH]; intros [|r rs]; simpl; constructor; auto.
  simpl. congruence.
Qed.

Ltac all_on_viper :=
  repeat first
    [ apply Forall_nil_2
    | apply bind_calls_viper
    | apply backend_calls_viper
    | apply Forall_app_2
    | apply Forall_cons_2; [intros ?; simpl; congruence|]
    | match goal with
      | |- context [if ?b then _ else _] => destruct b
      | |- context [match ?c with Some _ => _ | None => _ end] => destruct c
      end ].

Lemma setupLogger_calls_viper v verbose json :
  Forall (λ ev, ∀ x, viper_arg_of ev = Some x → x = v) (setupLogger_calls v verbose json).
Proof. unfold setupLogger_calls. all_on_viper. Qed.

Lemma main_setup_viper seed v oc lb verbose json :
  setupConfiguration_path v oc lb →
  Forall (.= v) (omap viper_arg_of (main_prelude seed ++ EvCall viper_New v :: lb
                                    ++ setupLogger_calls v verbose json)).
Proof.
  intros Hp. apply Forall_viper_arg.
  apply Forall_app_2; [unfold main_prelude; all_on_viper|].
  apply Forall_cons_2; [intros ?; simpl; congruence|].
  apply Forall_app_2; [| apply setupLogger_calls_viper].
  destruct Hp; unfold parse_calls, flag_calls; all_on_viper.
Qed.

Lemma constructServer_path_viper v r l :
  constructServer_path v r l → Forall (.= v) (omap viper_arg_of l).
Proof.
  intros Hp. apply Forall_viper_arg.
  destruct Hp; unfold cloud_calls, field_reads; all_on_viper.
Qed.

Lemma run_viper v w o w' lr :
  exec h (run v) w = (o, w', lr) → Forall (.= v) (omap viper_arg_of lr).
Proof.
  intros Hrun.
  apply run_exec in Hrun
    as [(profileAddr & e & w1 & lc & _ & Hpath & -> & _)
       |(profileAddr & s0 & w1 & w2 & lc & parent & ctx0 & cancelFunc & c & r0
         & _ & Hpath & -> & _)].
  - rewrite omap_app. apply Forall_app_2; [| by eapply constructServer_path_viper].
    apply Forall_viper_arg. unfold run_prelude. all_on_viper.
  - rewrite !omap_app. repeat apply Forall_app_2.
    + apply Forall_viper_arg. unfold run_prelude. all_on_viper.
    + by eapply constructServer_path_viper.
    + assert (Viper s0 = v) as Hv by (by inversion Hpath).
      apply Forall_viper_arg. unfold run_server_calls.
      repeat (apply Forall_cons_2; [intros ?; simpl; congruence|]). constructor.
Qed.

(** X16: [main] works on one viper: [viper.New] is called once, and every call
    that reads, binds or is handed a viper gets the one it returned, from
    [util.InitViper] and the binding of the flags to the reads of
    [constructServer], the initialisation of the backends and the server
    that is run. *)
Theorem main_single_viper w o w' log :
  exec h main w = (o, w', log) →
  ∃ v, omap viper_New_of log = [v] ∧ Forall (.= v) (omap viper_arg_of log).
Proof.
  intros Hex.
  apply main_cases in Hex as (seed & v & lb & verbose & json & oc & Hp & Hcases).
  cbv zeta in Hcases.
  pose proof (main_setup_viper_New seed v oc lb verbose json Hp) as Hnv.
  pose proof (main_setup_viper seed v oc lb verbose json Hp) as Hv.
  set (setup := main_prelude seed ++ EvCall viper_New v :: lb
                ++ setupLogger_calls v verbose json) in *.
  exists v.
  destruct Hcases as [(p & -> & -> & ->) | [(-> & -> & ->) | [(e & -> & Hne & -> & ->)
                     | [(-> & -> & ->) | (-> & w1 & w2 & r & lr & Hrun & Hr)]]]].
  - done.
  - done.
  - rewrite !omap_app, Hnv. simpl. rewrite app_nil_r. done.
  - rewrite !omap_app, Hnv. simpl. rewrite app_nil_r. done.
  - pose proof (run_no_viper_New _ _ _ _ _ Hrun) as Hrv.
    pose proof (run_viper _ _ _ _ _ Hrun) as Hrun_v.
    destruct Hr as [(-> & -> & ->) | (e & -> & -> & ->)].
    + rewrite !omap_app, Hnv, Hrv. split; [done|]. by apply Forall_app_2.
    + rewrite !omap_app, Hnv, Hrv. simpl. rewrite !app_nil_r.
      split; [done|]. by apply Forall_app_2.
Qed.

End Executions.

End Properties.

(** * Scenarios

    The functions of [main.go] run in the concrete environment. *)

Module Scenarios.
Import Demo.

Example getPercentiles_good : getPercentiles ["90"; "99"] = (Some [90%float; 99%float], None).
Proof. vm_compute. reflexivity. Qed.

Example getPercentiles_first_error :
  getPercentiles ["90"; "x"; "95"; "y"]
    = (None, Some (errorString "strconv.ParseFloat: parsing x: invalid syntax")).
Proof. vm_compute. reflexivity. Qed.

Example constructServer_good :
  (exec (handler good) (constructServer ()) 0%nat).1.1 =
    Returned (Some {|
      Backends := [Some "graphite"; Some "datadog"];
      CloudHandlerFactory := None;
      InternalTags := [];
      InternalNamespace := "";
      DefaultTags := [];
      Hostname := "";
      ExpiryInterval := 0;
      FlushInterval := 0;
      IgnoreHost := false;
      MaxReaders := 0;
      MaxParsers := 0;
      MaxWorkers := 0;
      MaxQueueSize := 0;
      MaxConcurrentEvents := 0;
      EstimatedTags := 0;
      MetricsAddr := "";
      Namespace := "";
      StatserType := "";
      PercentThreshold := Some [90%float; 99%float];
      HeartbeatEnabled := false;
      ReceiveBatchSize := 0;
      ConnPerReader := false;
      ServerMode := "";
      LogRawMetric := false;
      HeartbeatTags := ["version:0.0.0"; "commit:unknown"];
      DisabledSubTypes := ();
      BadLineRateLimitPerSecond := 10%float;
      Viper := ();
      TransportPool := ();
    |}, None).
Proof. vm_compute. reflexivity. Qed.

Example run_good : (exec (handler good) (run ()) 0%nat).1.1 = Returned None.
Proof. vm_compute. reflexivity. Qed.

Example run_bad_backend :
  (exec (handler bad_backend) (run ()) 0%nat).1.1 =
    Returned (Some (errorString "unknown backend carbon")).
Proof. vm_compute. reflexivity. Qed.

Example run_server_error :
  (exec (handler server_error) (run ()) 0%nat).1.1 =
    Returned (Some (errorString
      "server error: listen udp :8125: bind: address already in use")).
Proof. vm_compute. reflexivity. Qed.

Example cancelOnInterrupt_go_SIGTERM :
  (exec (handler good) (cancelOnInterrupt_go () () ()) 0%nat).2 =
    [EvCall (select_Done_or_recv () ()) (Received SIGTERM); EvCall (call_CancelFunc ()) ()].
Proof. reflexivity. Qed.

Example setupConfiguration_good :
  (exec (handler good) setupConfiguration 0%nat).1.1 = Returned (Some (), false, None) ∧
  omap ReadInConfig_of (exec (handler good) setupConfiguration 0%nat).2 = [].
Proof. split; vm_compute; reflexivity. Qed.

Example setupConfiguration_unreadable_file :
  (exec (handler unreadable_file) setupConfiguration 0%nat).1.1 =
    Returned (None, false,
              Some (errorString "open /etc/gostatsd.toml: no such file or directory")) ∧
  omap SetConfigFile_of (exec (handler unreadable_file) setupConfiguration 0%nat).2
    = ["/etc/gostatsd.toml"].
Proof. split; vm_compute; reflexivity. Qed.

Example main_help :
  (exec (handler (command_line ["-h"] (Some pflag_ErrHelp))) main 0%nat).1.1 = Returned () ∧
  omap Fatal_of (exec (handler (command_line ["-h"] (Some pflag_ErrHelp))) main 0%nat).2 = [].
Proof. split; vm_compute; reflexivity. Qed.

Example main_unknown_flag :
  let cfg := command_line ["--nope"] (Some (errorString "unknown flag: --nope")) in
  (exec (handler cfg) main 0%nat).1.1 = Exited ∧
  omap Fatal_of (exec (handler cfg) main 0%nat).2
    = ["Error while parsing configuration: unknown flag: --nope"].
Proof. split; vm_compute; reflexivity. Qed.

Example main_bad_backend :
  (exec (handler bad_backend) main 0%nat).1.1 = Exited ∧
  omap Fatal_of (exec (handler bad_backend) main 0%nat).2 = ["unknown backend carbon"].
Proof. split; vm_compute; reflexivity. Qed.

Lemma percent_key_distinct_demo : percent_key_distinct.
Proof. unfold percent_key_distinct. simpl. set_solver. Defined.

(** With percentile thresholds that do not parse, [run] returns the parse
    error and the server is not run. *)
Lemma startup_failure_aborts_witness :
  percent_key_distinct ∧
  Exists startup_failure (exec (handler bad_percent) (run ()) 0%nat).2 ∧
  ∃ e, (exec (handler bad_percent) (run ()) 0%nat).1.1 = Returned (Some e) ∧
       omap Server_Run_of (exec (handler bad_percent) (run ()) 0%nat).2 = [].
Proof.
  assert (Hfail : Exists startup_failure (exec (handler bad_percent) (run ()) 0%nat).2).
  { simpl. do 8 apply Exists_cons_tl. apply Exists_cons_hd. simpl. split; [reflexivity|].
    apply Exists_cons_tl, Exists_cons_hd. by eexists. }
  split; [exact percent_key_distinct_demo|]. split; [exact Hfail|].
  destruct (startup_failure_aborts (handler bad_percent) () percent_key_distinct_demo)
    as [_ Hrun].
  destruct (Hrun 0%nat _ _ _ eq_refl Hfail) as (e & Ho & _ & Hno).
  exists e. split; [exact Ho | exact Hno].
Defined.

(** With an unknown second backend, the first backend is initialised, the
    second fails and the third is not tried; with known backends the server
    has them in the configured order. *)
Lemma constructServer_backends_witness :
  (∃ pre n post bs b e,
     omap InitBackend_of (exec (handler bad_backend) (constructServer ()) 0%nat).2
       = zip pre ((., None) <$> bs) ++ [(n, (b, Some e))] ∧
     pre ++ n :: post = ["graphite"; "carbon"; "datadog"] ∧
     (exec (handler bad_backend) (constructServer ()) 0%nat).1.1 = Returned (None, Some e)) ∧
  (∃ s names,
     (exec (handler good) (constructServer ()) 0%nat).1.1 = Returned (Some s, None) ∧
     names = ["graphite"; "datadog"] ∧
     length (Backends s) = length names ∧
     omap InitBackend_of (exec (handler good) (constructServer ()) 0%nat).2
       = zip names ((., None) <$> Backends s)).
Proof.
  split.
  - destruct (constructServer_backends (handler bad_backend) () 0%nat _ _ _ eq_refl)
      as (_ & Hfail & _).
    destruct Hfail as (pre & n & post & bs & b & e & Hin & Hlen & Hcalls & Ho).
    { simpl. apply Exists_cons_tl, Exists_cons_hd. by eexists. }
    exists pre, n, post, bs, b, e. split_and!; [exact Hcalls | | exact Ho].
    simpl in Hin. apply list_elem_of_singleton in Hin. by injection Hin.
  - destruct (constructServer_backends (handler good) () 0%nat _ _ _ eq_refl)
      as (_ & _ & Hserver).
    destruct (Hserver _ eq_refl) as (names & Hin & Hlen & Hcalls & _).
    eexists _, names. split_and!; [reflexivity | | exact Hlen | exact Hcalls].
    simpl in Hin. apply elem_of_cons in Hin as [Hin | Hin].
    + by injection Hin.
    + exfalso. repeat (apply elem_of_cons in Hin as [Hin | Hin]; [discriminate|]).
      by apply elem_of_nil in Hin.
Defined.

(** With percentile thresholds that do not parse, [constructServer] returns
    an error although every backend was initialised. *)
Lemma constructServer_error_without_backend_failure :
  (exec (handler bad_percent) (constructServer ()) 0%nat).1.1
    = Returned (None, Some (errorString
                  "strconv.ParseFloat: parsing ninety-nine: invalid syntax")) ∧
  omap InitBackend_of (exec (handler bad_percent) (constructServer ()) 0%nat).2
    = [("graphite", (Some "graphite", None)); ("datadog", (Some "datadog", None))].
Proof. split; vm_compute; reflexivity. Qed.

(** 600 bad lines per minute are 10 per second. *)
Lemma constructServer_BadLineRateLimit_witness :
  ∃ s m,
    (exec (handler good) (constructServer ()) 0%nat).1.1 = Returned (Some s, None) ∧
    omap GetFloat64_of (exec (handler good) (constructServer ()) 0%nat).2
      = [((), ParamBadLinesPerMinute, m)] ∧
    m = 600%float ∧
    BadLineRateLimitPerSecond s = PrimFloat.div m 60%float ∧
    BadLineRateLimitPerSecond s = 10%float.
Proof.
  destruct (constructServer_BadLineRateLimit (handler good) () 0%nat _ _ _ eq_refl)
    as (m & Hm & Hrate).
  eexists _, m. split_and!; [reflexivity | exact Hm | | exact Hrate | reflexivity].
  simpl in Hm. by injection Hm.
Defined.

(** Without a cloud handler factory the server is constructed with a nil
    factory and [InitCloudProvider] is not called. *)
Lemma constructServer_nil_cloud_witness :
  omap NewCloudHandlerFactory_of (exec (handler good) (constructServer ()) 0%nat).2
    = [(None, None)] ∧
  Forall (λ ev, ¬ is_InitCloudProvider ev) (exec (handler good) (constructServer ()) 0%nat).2 ∧
  ∃ s, (exec (handler good) (constructServer ()) 0%nat).1.1 = Returned (Some s, None) ∧
       CloudHandlerFactory s = None.
Proof.
  split; [reflexivity|].
  destruct (constructServer_nil_cloud (handler good) () 0%nat _ _ _ eq_refl eq_refl)
    as (Hno & _ & _ & _ & Hnil).
  split; [exact Hno|]. eexists. split; [reflexivity|]. by apply Hnil.
Defined.

(** With an unknown second backend, the failed [InitBackend] is the last
    call of [constructServer]. *)
Lemma constructServer_error_is_last_witness :
  ∃ e pre ev,
    (exec (handler bad_backend) (constructServer ()) 0%nat).1.1 = Returned (None, Some e) ∧
    (exec (handler bad_backend) (constructServer ()) 0%nat).2 = pre ++ [ev] ∧
    startup_failure ev.
Proof.
  destruct (constructServer_error_is_last (handler bad_backend) () 0%nat _ _ _ _ _
              eq_refl eq_refl) as (_ & pre & ev & Hlog & Hev).
  eexists _, pre, ev. split_and!; [reflexivity | exact Hlog | exact Hev].
Defined.

(** With a cloud provider, the factory is created once, its provider is
    initialised once and the backends are initialised after that. *)
Lemma constructServer_cloud_provider_witness :
  ∃ cloud err,
    omap NewCloudHandlerFactory_of (exec (handler with_cloud) (constructServer ()) 0%nat).2
      = [(cloud, err)] ∧
    ((∃ c r, cloud = Some c ∧ err = None ∧
             omap InitCloudProvider_of (exec (handler with_cloud) (constructServer ()) 0%nat).2
               = [(c, r)]) ∨
     ((cloud = None ∨ is_Some err) ∧
      omap InitCloudProvider_of (exec (handler with_cloud) (constructServer ()) 0%nat).2 = [])) ∧
    err = None ∧
    Forall (λ p, p.2 = None)
      (omap InitCloudProvider_of (exec (handler with_cloud) (constructServer ()) 0%nat).2).
Proof.
  destruct (constructServer_cloud_provider (handler with_cloud) () 0%nat _ _ _ eq_refl)
    as (cloud & err & Hfactory & Hinit & Hbackends).
  exists cloud, err. split_and!; [exact Hfactory | exact Hinit | |];
    apply Hbackends; simpl; discriminate.
Defined.

(** The server of the good configuration: its fields are read last. *)
Lemma constructServer_fields_witness :
  ∃ s pre badLinesPerMinute,
    (exec (handler good) (constructServer ()) 0%nat).1.1 = Returned (Some s, None) ∧
    (exec (handler good) (constructServer ()) 0%nat).2
      = pre ++ field_reads () s badLinesPerMinute ∧
    HeartbeatTags s = ["version:0.0.0"; "commit:unknown"] ∧
    Viper s = ().
Proof.
  destruct (constructServer_fields (handler good) () 0%nat _ _ _ eq_refl)
    as ((pre & m & Hlog) & Htags & Hviper).
  eexists _, pre, m. split_and!; [reflexivity | exact Hlog | exact Htags | exact Hviper].
Defined.

(** The thresholds "90" and "99" parse, and the server has their values. *)
Lemma constructServer_PercentThreshold_witness :
  ∃ s percentThreshold,
    (exec (handler good) (constructServer ()) 0%nat).1.1 = Returned (Some s, None) ∧
    ((), ParamPercentThreshold, percentThreshold)
      ∈ omap GetStringSlice_of (exec (handler good) (constructServer ()) 0%nat).2 ∧
    Forall parses percentThreshold ∧
    PercentThreshold s = Some ((λ x, (strconv_ParseFloat x).1) <$> percentThreshold).
Proof.
  destruct (constructServer_PercentThreshold (handler good) () 0%nat _ _ _ eq_refl)
    as (percentThreshold & Hin & Hparses & Hvalues).
  eexists _, percentThreshold.
  split_and!; [reflexivity | exact Hin | exact Hparses | exact Hvalues].
Defined.

(** Both backends of the good configuration get the one pool, and so does
    the server. *)
Lemma constructServer_shared_pool_witness :
  ∃ pool s,
    omap NewTransportPool_of (exec (handler good) (constructServer ()) 0%nat).2 = [pool] ∧
    Forall (.= ((), pool))
      (omap InitBackend_args_of (exec (handler good) (constructServer ()) 0%nat).2) ∧
    length (omap InitBackend_args_of (exec (handler good) (constructServer ()) 0%nat).2)
      = 2%nat ∧
    (exec (handler good) (constructServer ()) 0%nat).1.1 = Returned (Some s, None) ∧
    TransportPool s = pool ∧
    omap NewCloudHandlerFactory_of (exec (handler good) (constructServer ()) 0%nat).2
      = [(CloudHandlerFactory s, None)].
Proof.
  destruct (constructServer_shared_pool (handler good) () 0%nat _ _ _ eq_refl)
    as (pool & Hpool & Hbackends & Hserver).
  destruct (Hserver _ eq_refl) as (Hs & Hcloud).
  eexists pool, _.
  split_and!; [exact Hpool | exact Hbackends | reflexivity | reflexivity
              | exact Hs | exact Hcloud].
Defined.

(** With the good configuration the server runs and [run] ends with the
    call of the cancel function; with an unknown backend no context is
    created. *)
Lemma run_context_lifecycle_witness :
  (∃ cancelFunc c,
     omap WithCancel_of (exec (handler good) (run ()) 0%nat).2 = [((), cancelFunc)] ∧
     omap make_chan_of (exec (handler good) (run ()) 0%nat).2 = [(1%nat, c)] ∧
     omap Notify_of (exec (handler good) (run ()) 0%nat).2
       = [(c, [os_Interrupt; syscall_SIGTERM])] ∧
     omap Cancel_of (exec (handler good) (run ()) 0%nat).2 = [cancelFunc] ∧
     last (exec (handler good) (run ()) 0%nat).2
       = Some (EvCall (call_CancelFunc cancelFunc) ())) ∧
  omap Server_Run_of (exec (handler bad_backend) (run ()) 0%nat).2 = [] ∧
  omap WithCancel_of (exec (handler bad_backend) (run ()) 0%nat).2 = [] ∧
  omap make_chan_of (exec (handler bad_backend) (run ()) 0%nat).2 = [] ∧
  omap Notify_of (exec (handler bad_backend) (run ()) 0%nat).2 = [] ∧
  omap Cancel_of (exec (handler bad_backend) (run ()) 0%nat).2 = [].
Proof.
  split.
  - destruct (run_context_lifecycle (handler good) () 0%nat _ _ _ eq_refl) as [_ Hrun].
    edestruct Hrun as (cancelFunc & c & Hrest); [simpl; apply list_elem_of_here|].
    exists cancelFunc, c. exact Hrest.
  - destruct (run_context_lifecycle (handler bad_backend) () 0%nat _ _ _ eq_refl)
      as [Hnone _].
    split; [reflexivity|]. apply Hnone. reflexivity.
Defined.

(** On the command line [gostatsd --verbose] the five flags are bound under
    their names before the arguments are parsed. *)
Lemma setupConfiguration_binds_flags_witness :
  ["--verbose"] ∈ omap Parse_args_of
                    (exec (handler (command_line ["--verbose"] None)) setupConfiguration 0%nat).2 ∧
  ∃ arg0 args arg0' flags,
    omap os_Args_of (exec (handler (command_line ["--verbose"] None)) setupConfiguration 0%nat).2
      = [arg0 :: args; arg0' :: ["--verbose"]] ∧
    omap NewFlagSet_of (exec (handler (command_line ["--verbose"] None)) setupConfiguration 0%nat).2
      = [arg0] ∧
    omap flags_of (exec (handler (command_line ["--verbose"] None)) setupConfiguration 0%nat).2
      = [flags] ∧
    omap Bind_of (exec (handler (command_line ["--verbose"] None)) setupConfiguration 0%nat).2
      = (λ flag, (flag_Name flag, flag)) <$> flags ∧
    Forall (.= None)
      (omap BindPFlag_of
         (exec (handler (command_line ["--verbose"] None)) setupConfiguration 0%nat).2).
Proof.
  assert (Hparse : ["--verbose"] ∈ omap Parse_args_of
            (exec (handler (command_line ["--verbose"] None)) setupConfiguration 0%nat).2)
    by (simpl; apply list_elem_of_here).
  split; [exact Hparse|].
  destruct (setupConfiguration_binds_flags (handler (command_line ["--verbose"] None))
              0%nat _ _ _ ["--verbose"] eq_refl Hparse)
    as (arg0 & args & arg0' & flags & Hargs & Hname & Hflags & Hbind & Hok & _).
  exists arg0, args, arg0', flags.
  split_and!; [exact Hargs | exact Hname | exact Hflags | exact Hbind | exact Hok].
Defined.

(** The good command line gives the viper and no version request; an
    unreadable configuration file gives no viper. *)
Lemma setupConfiguration_result_witness :
  (∃ v, omap viper_New_of (exec (handler good) setupConfiguration 0%nat).2 = [v] ∧
        (exec (handler good) setupConfiguration 0%nat).1.1 = Returned (Some v, false, None) ∧
        omap load_bool_of (exec (handler good) setupConfiguration 0%nat).2 = [false]) ∧
  (∃ e, (exec (handler unreadable_file) setupConfiguration 0%nat).1.1
          = Returned (None, false, Some e) ∧
        omap load_bool_of (exec (handler unreadable_file) setupConfiguration 0%nat).2 = []).
Proof.
  split.
  - destruct (setupConfiguration_result (handler good) 0%nat _ _ _ _ _ eq_refl)
      as [_ Hok].
    destruct (Hok eq_refl) as (v & Hnew & Hv & Hload).
    exists v. split_and!; [exact Hnew | | exact Hload].
    simpl. by injection Hv as <-.
  - destruct (setupConfiguration_result (handler unreadable_file) 0%nat _ _ _ _ _ eq_refl)
      as [Herr _].
    destruct Herr as (_ & _ & Hload); [by eexists|].
    eexists. split; [reflexivity | exact Hload].
Defined.

(** [gostatsd --version] prints the version line and returns. *)
Lemma main_version_witness :
  true ∈ omap load_bool_of
           (exec (version_handler (command_line ["--version"] None)) main 0%nat).2 ∧
  (exec (version_handler (command_line ["--version"] None)) main 0%nat).1.1 = Returned () ∧
  omap Printf_of (exec (version_handler (command_line ["--version"] None)) main 0%nat).2
    = ["Version: 0.0.0 - Commit: unknown - Date: unknown" +:+ newline] ∧
  omap Info_of (exec (version_handler (command_line ["--version"] None)) main 0%nat).2 = [] ∧
  omap Server_Run_of (exec (version_handler (command_line ["--version"] None)) main 0%nat).2
    = [].
Proof.
  assert (Hversion : true ∈ omap load_bool_of
            (exec (version_handler (command_line ["--version"] None)) main 0%nat).2)
    by (simpl; apply list_elem_of_here).
  split; [exact Hversion|].
  destruct (main_version (version_handler (command_line ["--version"] None))
              0%nat _ _ _ eq_refl Hversion)
    as (Ho & Hprint & _ & Hinfo & _ & Hrun & _).
  split_and!; [exact Ho | exact Hprint | exact Hinfo | exact Hrun].
Defined.

(** A server that stops on [context.Canceled] lets [main] return; a server
    that fails makes it exit with "server error: ...". *)
Lemma main_server_outcome_witness :
  ((exec (handler good) main 0%nat).1.1 = Returned () ∧
   omap Fatal_of (exec (handler good) main 0%nat).2 = []) ∧
  ((exec (handler server_error) main 0%nat).1.1 = Exited ∧
   omap Fatal_of (exec (handler server_error) main 0%nat).2
     = ["server error: listen udp :8125: bind: address already in use"]).
Proof.
  split.
  - edestruct (main_server_outcome (handler good) 0%nat) as [Hok _];
      [reflexivity | simpl; apply list_elem_of_here |].
    apply Hok. by right.
  - edestruct (main_server_outcome (handler server_error) 0%nat) as [_ Hfail];
      [reflexivity | simpl; apply list_elem_of_here |].
    destruct (Hfail _ eq_refl) as (Ho & Hfatal & _); [discriminate|].
    split; [exact Ho | exact Hfatal].
Defined.

(** With an unknown backend [main] exits with the error of the backend. *)
Lemma main_startup_error_witness :
  omap Info_of (exec (handler bad_backend) main 0%nat).2 = ["Starting server"] ∧
  omap Server_Run_of (exec (handler bad_backend) main 0%nat).2 = [] ∧
  (exec (handler bad_backend) main 0%nat).1.1 = Exited ∧
  omap Fatal_of (exec (handler bad_backend) main 0%nat).2 = ["unknown backend carbon"] ∧
  ∃ e, last (exec (handler bad_backend) main 0%nat).2 = Some (EvFatal (Error e)).
Proof.
  split; [reflexivity|]. split; [reflexivity|].
  destruct (main_startup_error (handler bad_backend) 0%nat _ _ _ eq_refl eq_refl eq_refl)
    as (Ho & v & e & _ & _ & Hfatal & Hlast).
  split_and!; [exact Ho | reflexivity | by exists e].
Defined.

(** An unknown flag makes [main] exit with one fatal log, its last action. *)
Lemma main_exit_witness :
  let cfg := command_line ["--nope"] (Some (errorString "unknown flag: --nope")) in
  (exec (handler cfg) main 0%nat).1.1 = Exited ∧
  omap Fatal_of (exec (handler cfg) main 0%nat).2
    = ["Error while parsing configuration: unknown flag: --nope"] ∧
  last (exec (handler cfg) main 0%nat).2
    = Some (EvFatal "Error while parsing configuration: unknown flag: --nope").
Proof.
  intros cfg.
  destruct (main_exit (handler cfg) 0%nat _ _ _ eq_refl) as (Hexit & Hfatal & _).
  destruct (Hfatal "Error while parsing configuration: unknown flag: --nope")
    as [Hone Hlast]; [simpl; apply list_elem_of_here|].
  split_and!; [apply Hexit; by rewrite Hone | exact Hone | exact Hlast].
Defined.

(** Every viper call of a run of [main] with the good configuration is on
    the viper that [viper.New] returned. *)
Lemma main_single_viper_witness :
  ∃ v, omap viper_New_of (exec (handler good) main 0%nat).2 = [v] ∧
       Forall (.= v) (omap viper_arg_of (exec (handler good) main 0%nat).2) ∧
       length (omap viper_arg_of (exec (handler good) main 0%nat).2) = 40%nat.
Proof.
  destruct (main_single_viper (handler good) 0%nat _ _ _ eq_refl) as (v & Hnew & Hall).
  exists v. split_and!; [exact Hnew | exact Hall | reflexivity].
Defined.

(** A server that stops on [context.Canceled] lets [run] return nil; a
    server that fails makes it return the wrapped error; with an unknown
    backend [run] returns the error of [constructServer] and runs no server;
    on [SIGTERM] the goroutine of [cancelOnInterrupt] calls the cancel
    function. *)
Lemma run_shutdown_witness :
  (∃ s ctx,
     omap Server_Run_of (exec (handler good) (run ()) 0%nat).2
       = [(s, ctx, Some context_Canceled)] ∧
     (exec (handler good) (run ()) 0%nat).1.1 = Returned None) ∧
  (∃ s ctx,
     omap Server_Run_of (exec (handler server_error) (run ()) 0%nat).2
       = [(s, ctx, Some (errorString "listen udp :8125: bind: address already in use"))] ∧
     (exec (handler server_error) (run ()) 0%nat).1.1
       = Returned (Some (errorString
                    "server error: listen udp :8125: bind: address already in use"))) ∧
  (∃ e, omap Server_Run_of (exec (handler bad_backend) (run ()) 0%nat).2 = [] ∧
        (exec (handler bad_backend) (run ()) 0%nat).1.1 = Returned (Some e)) ∧
  (exec (handler good) (cancelOnInterrupt_go () () ()) 0%nat).2
    = [EvCall (select_Done_or_recv () ()) (Received SIGTERM); EvCall (call_CancelFunc ()) ()].
Proof.
  split; [|split; [|split]].
  - destruct (run_shutdown (handler good) ()) as (Hrun & _ & _).
    destruct (Hrun 0%nat _ _ _ eq_refl)
      as (w1 & w2 & pre & lc & post & _ & [(e & _ & _ & _ & Hs) | (s & ctx & r & _ & Hs & Ho)]).
    + vm_compute in Hs. discriminate.
    + vm_compute in Hs. injection Hs as <- <- <-. eexists _, _. split; reflexivity.
  - destruct (run_shutdown (handler server_error) ()) as (Hrun & _ & _).
    destruct (Hrun 0%nat _ _ _ eq_refl)
      as (w1 & w2 & pre & lc & post & _ & [(e & _ & _ & _ & Hs) | (s & ctx & r & _ & Hs & Ho)]).
    + vm_compute in Hs. discriminate.
    + vm_compute in Hs. injection Hs as <- <- <-. eexists _, _. split; reflexivity.
  - destruct (run_shutdown (handler bad_backend) ()) as (Hrun & _ & _).
    destruct (Hrun 0%nat _ _ _ eq_refl)
      as (w1 & w2 & pre & lc & post & _ & [(e & _ & Ho & _ & Hs) | (s & ctx & r & _ & Hs & _)]).
    + exists e. split; [exact Hs | exact Ho].
    + vm_compute in Hs. discriminate.
  - destruct (run_shutdown (handler good) ()) as (_ & _ & Hgo).
    by rewrite (Hgo () () () 0%nat).
Defined.

(** An unknown flag: the command line is parsed, the error of [cmd.Parse]
    is returned and [config-path] is not read, and [main] exits on a fatal
    log.  An unreadable configuration file: after a successful parse
    [config-path] is read, the file is set and the error of [ReadInConfig]
    is returned.  With [-h], [main] returns without a fatal log. *)
Lemma setupConfiguration_errors_witness :
  (∃ arg0 arguments cmd pre post e,
     (exec (handler (command_line ["--nope"] (Some (errorString "unknown flag: --nope"))))
           setupConfiguration 0%nat).2
       = pre ++ EvCall (FlagSet_Parse cmd arguments) (Some e) :: post ∧
     last (omap os_Args_of pre) = Some (arg0 :: arguments) ∧
     omap GetString_of post = [] ∧
     (exec (handler (command_line ["--nope"] (Some (errorString "unknown flag: --nope"))))
           setupConfiguration 0%nat).1.1 = Returned (None, false, Some e)) ∧
  (∃ arg0 arguments cmd pre post e,
     (exec (handler unreadable_file) setupConfiguration 0%nat).2
       = pre ++ EvCall (FlagSet_Parse cmd arguments) None :: post ∧
     last (omap os_Args_of pre) = Some (arg0 :: arguments) ∧
     omap GetString_of post = [(ParamConfigPath, "/etc/gostatsd.toml")] ∧
     omap SetConfigFile_of post = ["/etc/gostatsd.toml"] ∧
     omap ReadInConfig_of post = [Some e] ∧
     (exec (handler unreadable_file) setupConfiguration 0%nat).1.1
       = Returned (None, false, Some e)) ∧
  ((exec (handler (command_line ["--nope"] (Some (errorString "unknown flag: --nope"))))
         main 0%nat).1.1 = Exited ∧
   omap Fatal_of
     (exec (handler (command_line ["--nope"] (Some (errorString "unknown flag: --nope"))))
           main 0%nat).2
     = ["Error while parsing configuration: unknown flag: --nope"]) ∧
  ((exec (handler (command_line ["-h"] (Some pflag_ErrHelp))) main 0%nat).1.1 = Returned () ∧
   omap Fatal_of (exec (handler (command_line ["-h"] (Some pflag_ErrHelp))) main 0%nat).2 = []).
Proof.
  split; [|split; [|split]].
  - destruct (setupConfiguration_errors
                (handler (command_line ["--nope"] (Some (errorString "unknown flag: --nope")))))
      as (_ & Hret & _).
    destruct (Hret 0%nat _ _ _ _ _ eq_refl)
      as (arg0 & arguments & cmd & r & pre & post & Hlog & Hargs & Hp1 & Hp2 & _ & _ & _ & Hr).
    pose proof (f_equal (omap Parse_of) Hlog) as HP.
    rewrite omap_app, Hp1 in HP. cbn [omap list_omap Parse_of app] in HP.
    rewrite Hp2 in HP. vm_compute in HP. injection HP as <-.
    destruct Hr as (_ & Hg & _).
    eexists arg0, arguments, cmd, pre, post, _.
    split_and!; [exact Hlog | exact Hargs | exact Hg | reflexivity].
  - destruct (setupConfiguration_errors (handler unreadable_file)) as (_ & Hret & _).
    destruct (Hret 0%nat _ _ _ _ _ eq_refl)
      as (arg0 & arguments & cmd & r & pre & post & Hlog & Hargs & Hp1 & Hp2 & Hg1 & _ & _ & Hr).
    pose proof (f_equal (omap Parse_of) Hlog) as HP.
    rewrite omap_app, Hp1 in HP. cbn [omap list_omap Parse_of app] in HP.
    rewrite Hp2 in HP. vm_compute in HP. injection HP as <-.
    destruct Hr as (configPath & Hg & Hr).
    pose proof (f_equal (omap GetString_of) Hlog) as HG.
    rewrite omap_app, Hg1 in HG. cbn [omap list_omap GetString_of app] in HG.
    rewrite Hg in HG. vm_compute in HG. injection HG as <-.
    destruct (decide ("/etc/gostatsd.toml" = "")) as [|_]; [discriminate|].
    destruct Hr as [Hset Hread].
    eexists arg0, arguments, cmd, pre, post, _.
    split_and!; [exact Hlog | exact Hargs | exact Hg | exact Hset | exact Hread | reflexivity].
  - destruct (setupConfiguration_errors
                (handler (command_line ["--nope"] (Some (errorString "unknown flag: --nope")))))
      as (_ & _ & Hmain).
    destruct (Hmain 0%nat _ _ _ eq_refl) as (w1 & w2 & oc & lc & pre & rest & Hc & _ & Herr).
    vm_compute in Hc. injection Hc as <- _ _.
    destruct (Herr _ _ _ eq_refl) as (_ & _ & Hfatal).
    apply Hfatal. discriminate.
  - destruct (setupConfiguration_errors (handler (command_line ["-h"] (Some pflag_ErrHelp))))
      as (_ & _ & Hmain).
    destruct (Hmain 0%nat _ _ _ eq_refl) as (w1 & w2 & oc & lc & pre & rest & Hc & _ & Herr).
    vm_compute in Hc. injection Hc as <- _ _.
    destruct (Herr _ _ _ eq_refl) as (Hiff & Hhelp & _).
    split; [by apply Hhelp | by apply Hiff].
Defined.

End Scenarios.

(** * Properties of the aggregation key *)

Module IdentityProperties.
Import Identity.

Lemma compare_Eq (x y : string) : String_as_OT.compare x y = Eq → x = y.
Proof. intros H. by destruct (String_as_OT.compare_spec x y). Qed.

Lemma compare_Gt (x y : string) : String_as_OT.compare x y = Gt → tag_lt y x.
Proof. intros H. by destruct (String_as_OT.compare_spec x y). Qed.

Lemma tag_lt_irrefl (x : string) : ¬ tag_lt x x.
Proof. apply (StrictOrder_Irreflexive (R := String_as_OT.lt)). Qed.

Lemma tag_lt_trans (x y z : string) : tag_lt x y → tag_lt y z → tag_lt x z.
Proof. apply (StrictOrder_Transitive (R := String_as_OT.lt)). Qed.

Lemma elem_of_insert_tag (t x : string) (l : list string) :
  x ∈ insert_tag t l ↔ x = t ∨ x ∈ l.
Proof.
  induction l as [|y l IH]; simpl.
  - set_solver.
  - destruct (String_as_OT.compare t y) eqn:Hc.
    + apply compare_Eq in Hc as ->. set_solver.
    + set_solver.
    + set_solver.
Qed.

Lemma elem_of_canonical (x : string) (tags : list string) :
  x ∈ canonical tags ↔ x ∈ tags.
Proof.
  unfold canonical. induction tags as [|t tags IH]; simpl; [done|].
  rewrite elem_of_insert_tag, IH. set_solver.
Qed.

Lemma insert_tag_sorted (t : string) (l : list string) :
  StronglySorted tag_lt l → StronglySorted tag_lt (insert_tag t l).
Proof.
  induction 1 as [|y l Hl IH Hy]; simpl.
  - repeat constructor.
  - destruct (String_as_OT.compare t y) eqn:Hc.
    + by constructor.
    + constructor; [by constructor|]. constructor; [done|].
      eapply Forall_impl; [exact Hy|]. intros z Hz. by eapply tag_lt_trans.
    + constructor; [done|]. apply Forall_forall. intros z Hz.
      apply elem_of_insert_tag in Hz as [-> | Hz].
      * by apply compare_Gt.
      * rewrite Forall_forall in Hy. by apply Hy.
Qed.

Lemma canonical_sorted (tags : list string) : StronglySorted tag_lt (canonical tags).
Proof.
  unfold canonical. induction tags as [|t tags IH]; simpl; [constructor|].
  by apply insert_tag_sorted.
Qed.

(** A strictly increasing list is determined by its elements. *)
Lemma sorted_unique (l1 l2 : list string) :
  StronglySorted tag_lt l1 → StronglySorted tag_lt l2 →
  (∀ x, x ∈ l1 ↔ x ∈ l2) → l1 = l2.
Proof.
  intros H1. revert l2. induction H1 as [|x l1 Hl1 IH Hx]; intros l2 H2 Heq.
  - destruct l2 as [|y l2]; [done|]. specialize (Heq y). set_solver.
  - destruct H2 as [|y l2 Hl2 Hy].
    + specialize (Heq x). set_solver.
    + rewrite Forall_forall in Hx, Hy.
      assert (x = y) as <-.
      { assert (x ∈ y :: l2) as Hxin by (apply Heq; set_solver).
        apply elem_of_cons in Hxin as [-> | Hxin]; [done|].
        assert (y ∈ x :: l1) as Hyin by (apply Heq; set_solver).
        apply elem_of_cons in Hyin as [-> | Hyin]; [done|].
        exfalso. apply (tag_lt_irrefl x).
        eapply tag_lt_trans; [by apply Hx | by apply Hy]. }
      f_equal. apply IH; [done|]. intros z. split; intros Hz.
      * assert (z ∈ x :: l2) as Hin by (apply Heq; set_solver).
        apply elem_of_cons in Hin as [-> | Hin]; [| done].
        exfalso. by apply (tag_lt_irrefl x), Hx.
      * assert (z ∈ x :: l1) as Hin by (apply Heq; set_solver).
        apply elem_of_cons in Hin as [-> | Hin]; [| done].
        exfalso. by apply (tag_lt_irrefl x), Hy.
Qed.

(** C2: two metrics with the same name, the same kind and the same set of
    tags, in whatever order (and however often) the tags were inserted, have
    the same identity and are assigned to the same shard, for any hash
    function and any number of workers. *)
Theorem same_identity_same_shard (hash : MetricIdentity → N) (workers : N) (m1 m2 : Metric) :
  Name m1 = Name m2 → Kind m1 = Kind m2 → (∀ t, t ∈ Tags m1 ↔ t ∈ Tags m2) →
  identity m1 = identity m2 ∧
  shard hash workers (identity m1) = shard hash workers (identity m2).
Proof.
  intros Hname Hkind Htags.
  assert (identity m1 = identity m2) as Hid.
  { unfold identity. rewrite Hname, Hkind. f_equal.
    apply sorted_unique; [apply canonical_sorted.. |].
    intros x. by rewrite !elem_of_canonical. }
  by rewrite Hid.
Qed.

(** The same tags in another order, one of them twice. *)
Lemma same_identity_same_shard_witness :
  let m1 := {| Name := "foo.bar"; Kind := Counter; Tags := ["env:prod"; "host:a"]; Value := 1 |} in
  let m2 := {| Name := "foo.bar"; Kind := Counter;
               Tags := ["host:a"; "env:prod"; "host:a"]; Value := 5 |} in
  identity m1 = identity m2 ∧
  shard name_length_hash 4 (identity m1) = shard name_length_hash 4 (identity m2) ∧
  id_tags (identity m2) = ["env:prod"; "host:a"].
Proof.
  intros m1 m2.
  destruct (same_identity_same_shard name_length_hash 4 m1 m2) as [Hid Hshard].
  - reflexivity.
  - reflexivity.
  - intros t. subst m1 m2. simpl. set_solver.
  - split_and!; [exact Hid | exact Hshard | reflexivity].
Defined.

End IdentityProperties.

(** * Properties of the counters *)

Module CounterProperties.
Import Identity Counters.




(** An expiry check keeps the state of an identity as it is, or removes it
    when it was last seen longer ago than the interval. *)
Lemma lookup_expire interval now sh id :
  expire interval now sh !! id =
    match sh !! id with
    | Some c => if decide (now - LastSeen c ≤ interval) then Some c else None
    | None => None
    end.
Proof.
  unfold expire. rewrite map_lookup_filter. destruct (sh !! id) as [c|]; [|done].
  simpl. destruct (decide (now - LastSeen c ≤ interval)).
  - by rewrite option_guard_True.
  - by rewrite option_guard_False.
Qed.

(** An expiry check does not remove state that was active since the last
    check, when the checks are no further apart than the expiry interval. *)
Lemma expire_keeps_active interval last_check now sh id c :
  now - last_check ≤ interval →
  sh !! id = Some c → last_check ≤ LastSeen c →
  expire interval now sh !! id = Some c.
Proof.
  intros Hcadence Hc Hactive. rewrite lookup_expire, Hc.
  destruct (decide (now - LastSeen c ≤ interval)); [done | lia].
Qed.










(** The scenario of the specification: [foo.bar:1|c] twice within one
    window flushes a delta of 2, whatever the reset policy. *)
Example counter_flush_scenario :
  let foo_bar := identity {| Name := "foo.bar"; Kind := Counter; Tags := []; Value := 1 |} in
  delta foo_bar <$> (worker {| Reset := PersistAtZero; ExpiryInterval := 10 |}
                       [Fold 0 foo_bar 1; Fold 1 foo_bar 1; Flush]).2 = [2] ∧
  delta foo_bar <$> (worker {| Reset := Disappear; ExpiryInterval := 10 |}
                       [Fold 0 foo_bar 1; Fold 1 foo_bar 1; Flush]).2 = [2].
Proof. split; vm_compute; reflexivity. Qed.



End CounterProperties.
